(** * A shallow embedding of the layer classes of the Deep-Learning-Framework

    Source files: [layer.py] (classes [Layer], [FC], [ActivationLayer],
    [Flatten], [Conv_layer]) and [model.py] (class [Model], the driver that
    runs [forward] and [backward] of its layers in sequence).

    Modelling conventions.
    - A numpy [ndarray] is a shape together with an element function on
      index lists; only the cells inside the shape are meaningful.
    - A Python/numpy float is an exact rational ([Qc], canonical fractions
      with Leibniz equality): rounding, [nan] and [inf] are outside the model,
      and the order of a summation is irrelevant.  Rounding is measured
      apart, in [FC64], which repeats [FC.backward] over binary64 numbers.
    - A Python exception is a value of [exn]; code that can raise returns a
      [result].  Methods run in the monad [M S] over the instance state [S],
      which keeps the attributes written before an exception is raised.
    - Python integers are [Z]; array dimensions and loop counters are [nat].
    - The sources are read as Python 3: [/] on integers is true division.
    - The layer objects of a [Model] live in a heap and are named by their
      position in it, so that a layer added twice is one object. *)

From Stdlib Require Import String List ZArith Arith Bool Lia QArith Qcanon.
From Stdlib Require Floats.
Import ListNotations.

Set Implicit Arguments.

Local Open Scope nat_scope.

(** ** Python exceptions and results *)

Inductive exn : Type :=
| AttributeError (name : string)
| ValueError
| IndexError
| TypeError
| ZeroDivisionError.

Inductive result (A : Type) : Type :=
| Ok (a : A)
| Raise (e : exn).

Arguments Ok {A} a.
Arguments Raise {A} e.

Definition rbind {A B : Type} (r : result A) (k : A -> result B) : result B :=
  match r with
  | Ok a => k a
  | Raise e => Raise e
  end.

Declare Scope py_scope.
Delimit Scope py_scope with py.

Notation "x <- c ;; k" := (rbind c (fun x => k))
  (at level 61, c at next level, right associativity) : py_scope.

(** Methods: a state transformer that may raise; the state reached when the
    exception is raised is kept. *)
Definition M (S A : Type) : Type := S -> result A * S.

Definition ret {S A : Type} (a : A) : M S A := fun s => (Ok a, s).

Definition bind {S A B : Type} (m : M S A) (k : A -> M S B) : M S B :=
  fun s =>
    match m s with
    | (Ok a, s') => k a s'
    | (Raise e, s') => (Raise e, s')
    end.

Definition raise {S A : Type} (e : exn) : M S A := fun s => (Raise e, s).

Definition lift {S A : Type} (r : result A) : M S A := fun s => (r, s).

Definition gets {S A : Type} (f : S -> A) : M S A := fun s => (Ok (f s), s).

Definition modify {S : Type} (f : S -> S) : M S unit := fun s => (Ok tt, f s).

(** Reading an attribute that may not have been assigned yet. *)
Definition getattr {S A : Type} (name : string) (field : S -> option A) : M S A :=
  fun s =>
    match field s with
    | Some v => (Ok v, s)
    | None => (Raise (AttributeError name), s)
    end.

Declare Scope meth_scope.
Delimit Scope meth_scope with meth.

Notation "x <<- c ;; k" := (bind c (fun x => k))
  (at level 61, c at next level, right associativity) : meth_scope.
Notation "c ;;; k" := (bind c (fun _ => k))
  (at level 61, right associativity) : meth_scope.

(** [for x in l: s = body(x, s)], stopping at the first exception. *)
Fixpoint for_loop {I S : Type} (l : list I) (body : I -> S -> result S) (s : S)
  : result S :=
  match l with
  | [] => Ok s
  | x :: l' =>
      match body x s with
      | Ok s' => for_loop l' body s'
      | Raise e => Raise e
      end
  end.

(** The same loop inside a method: the body also acts on the instance. *)
Fixpoint for_loopM {I S A : Type} (l : list I) (body : I -> A -> M S A) (a : A)
  : M S A :=
  match l with
  | [] => ret a
  | x :: l' => bind (body x a) (fun a' => for_loopM l' body a')
  end.

(** [range(n)] for a Python integer [n]: empty when [n <= 0]. *)
Definition py_range (n : Z) : list nat := seq 0 (Z.to_nat n).

(** [int(a / b)] on Python integers: true division followed by truncation
    toward zero ([Z.quot]); division by zero raises. *)
Definition py_int_truediv (a b : Z) : result Z :=
  if (b =? 0)%Z then Raise ZeroDivisionError else Ok (Z.quot a b).

(** ** The numpy model *)

Record ndarray : Type := mk_nd { shape : list nat; get : list nat -> Qc }.

(** Number of elements of an array of the given shape. *)
Definition prod_dims (sh : list nat) : nat := fold_right Nat.mul 1 sh.

Definition np_zeros (sh : list nat) : ndarray := mk_nd sh (fun _ => 0%Qc).

(** [np.zeros(shape=dims)] with dimensions computed as Python integers. *)
Definition np_zeros_z (dims : list Z) : result ndarray :=
  if forallb (fun d => (0 <=? d)%Z) dims
  then Ok (np_zeros (map Z.to_nat dims))
  else Raise ValueError.

Definition np_zeros_like (a : ndarray) : ndarray := np_zeros (shape a).

(** A Python float seen as a 0-d array. *)
Definition np_scalar (q : Qc) : ndarray := mk_nd [] (fun _ => q).

(** *** Basic indexing: integers and [start:stop] slices *)

Inductive pyindex : Type :=
| Idx (k : Z)
| Slc (start stop : option Z).

(** The full slice [:]. *)
Definition All : pyindex := Slc None None.

Definition Ix (k : nat) : pyindex := Idx (Z.of_nat k).

Definition Sl (start stop : Z) : pyindex := Slc (Some start) (Some stop).

(** An index resolved against an axis: one position, or a span. *)
Inductive sel : Type :=
| At (k : nat)
| Span (lo len : nat).

(** Python's normalisation of a slice bound on an axis of length [n]. *)
Definition clamp_bound (n : nat) (k : Z) : nat :=
  if (k <? 0)%Z
  then Z.to_nat (Z.max 0 (k + Z.of_nat n))
  else Z.to_nat (Z.min k (Z.of_nat n)).

Definition resolve1 (n : nat) (ix : pyindex) : result sel :=
  match ix with
  | Idx k =>
      if ((0 <=? k) && (k <? Z.of_nat n))%Z then Ok (At (Z.to_nat k))
      else if ((- Z.of_nat n <=? k) && (k <? 0))%Z
           then Ok (At (Z.to_nat (k + Z.of_nat n)))
           else Raise IndexError
  | Slc a b =>
      let lo := match a with None => 0 | Some s => clamp_bound n s end in
      let hi := match b with None => n | Some s => clamp_bound n s end in
      Ok (Span lo (hi - lo))
  end.

(** Resolves the indices against the leading axes; the axes left over are
    taken whole. *)
Fixpoint resolve (sh : list nat) (ixs : list pyindex) {struct ixs}
  : result (list sel * list nat) :=
  match ixs with
  | [] => Ok ([], sh)
  | ix :: ixs' =>
      match sh with
      | [] => Raise IndexError
      | n :: sh' =>
          (s <- resolve1 n ix ;;
           r <- resolve sh' ixs' ;;
           Ok (s :: fst r, snd r))%py
      end
  end.

Fixpoint view_shape (ss : list sel) (rest : list nat) : list nat :=
  match ss with
  | [] => rest
  | At _ :: ss' => view_shape ss' rest
  | Span _ len :: ss' => len :: view_shape ss' rest
  end.

(** From an index of the view to the index of the same cell in the base. *)
Fixpoint view_fwd (ss : list sel) (j : list nat) : list nat :=
  match ss with
  | [] => j
  | At k :: ss' => k :: view_fwd ss' j
  | Span lo _ :: ss' => (lo + hd 0 j) :: view_fwd ss' (tl j)
  end.

(** From an index of the base to the index in the view, when the cell
    belongs to the view. *)
Fixpoint view_inv (ss : list sel) (idx : list nat) : option (list nat) :=
  match ss with
  | [] => Some idx
  | At k :: ss' =>
      match idx with
      | [] => None
      | i :: idx' => if i =? k then view_inv ss' idx' else None
      end
  | Span lo len :: ss' =>
      match idx with
      | [] => None
      | i :: idx' =>
          if (lo <=? i) && (i <? lo + len)
          then option_map (cons (i - lo)) (view_inv ss' idx')
          else None
      end
  end.

(** [a[ixs]] *)
Definition np_getitem (a : ndarray) (ixs : list pyindex) : result ndarray :=
  (r <- resolve (shape a) ixs ;;
   Ok (mk_nd (view_shape (fst r) (snd r))
             (fun j => get a (view_fwd (fst r) j))))%py.

(** *** Broadcasting *)

Fixpoint bcast_rev (a b : list nat) : option (list nat) :=
  match a, b with
  | [], l => Some l
  | l, [] => Some l
  | x :: a', y :: b' =>
      match bcast_rev a' b' with
      | None => None
      | Some r =>
          if x =? y then Some (x :: r)
          else if x =? 1 then Some (y :: r)
          else if y =? 1 then Some (x :: r)
          else None
      end
  end.

(** Shapes are aligned on their last axis. *)
Definition broadcast_shapes (a b : list nat) : option (list nat) :=
  option_map (@rev nat) (bcast_rev (rev a) (rev b)).

(** The cell of an operand of shape [sh] read for the cell [idx] of the
    broadcast result. *)
Definition bcast_index (sh idx : list nat) : list nat :=
  map (fun di => if fst di =? 1 then 0 else snd di)
      (combine sh (skipn (length idx - length sh) idx)).

Definition list_nat_eqb (a b : list nat) : bool :=
  if list_eq_dec Nat.eq_dec a b then true else false.

(** [rhs] can be broadcast to exactly the shape [sh]. *)
Definition broadcastable_to (rhs sh : list nat) : bool :=
  match broadcast_shapes rhs sh with
  | Some r => list_nat_eqb r sh
  | None => false
  end.

(** An elementwise binary operator ([np.multiply], [*], [+], [-]). *)
Definition np_binop (f : Qc -> Qc -> Qc) (a b : ndarray) : result ndarray :=
  match broadcast_shapes (shape a) (shape b) with
  | Some sh =>
      Ok (mk_nd sh (fun idx => f (get a (bcast_index (shape a) idx))
                                 (get b (bcast_index (shape b) idx))))
  | None => Raise ValueError
  end.

Definition np_multiply : ndarray -> ndarray -> result ndarray := np_binop Qcmult.
Definition np_add : ndarray -> ndarray -> result ndarray := np_binop Qcplus.

(** [a[ixs] op= rhs] and [a[ixs] = rhs]: the cells of the view are
    recomputed, the others kept; [rhs] must broadcast to the view's shape.
    (numpy also lets the right-hand side of a plain assignment carry extra
    leading axes of length one; the sources assigned here never have more
    axes than their target.) *)
Definition np_iop (f : Qc -> Qc -> Qc) (a : ndarray) (ixs : list pyindex)
  (rhs : ndarray) : result ndarray :=
  (r <- resolve (shape a) ixs ;;
   if broadcastable_to (shape rhs) (view_shape (fst r) (snd r))
   then Ok (mk_nd (shape a)
              (fun idx =>
                 match view_inv (fst r) idx with
                 | Some j => f (get a idx) (get rhs (bcast_index (shape rhs) j))
                 | None => get a idx
                 end))
   else Raise ValueError)%py.

Definition np_iadd := np_iop Qcplus.
Definition np_isub := np_iop Qcminus.
Definition np_setitem := np_iop (fun _ v => v).

(** *** Reductions and conversions *)

(** Sum of [f 0 .. f (n-1)]. *)
Fixpoint qsum (n : nat) (f : nat -> Qc) : Qc :=
  match n with
  | O => 0%Qc
  | S k => (qsum k f + f k)%Qc
  end.

Fixpoint sum_all (sh : list nat) (g : list nat -> Qc) : Qc :=
  match sh with
  | [] => g []
  | d :: sh' => qsum d (fun i => sum_all sh' (fun j => g (i :: j)))
  end.

(** [np.sum(a)] *)
Definition np_sum (a : ndarray) : Qc := sum_all (shape a) (get a).

(** [float(a)]: defined on arrays with exactly one element. *)
Definition py_float (a : ndarray) : result Qc :=
  if prod_dims (shape a) =? 1
  then Ok (get a (repeat 0 (length (shape a))))
  else Raise TypeError.

(** [len(a)]: the length of the first axis; a 0-d array has none. *)
Definition py_len (a : ndarray) : result nat :=
  match shape a with
  | [] => Raise TypeError
  | d :: _ => Ok d
  end.

(** [a.shape[k]] *)
Definition shape_at (a : ndarray) (k : nat) : result nat :=
  match nth_error (shape a) k with
  | Some d => Ok d
  | None => Raise IndexError
  end.

(** [a.T]: the axes in reverse order. *)
Definition np_T (a : ndarray) : ndarray :=
  mk_nd (rev (shape a)) (fun idx => get a (rev idx)).

(** [np.dot(a, b)].  With a 0-d operand it is the elementwise product;
    otherwise the last axis of [a] is contracted with the last-but-one axis
    of [b] (its only axis when [b] is 1-d), and the result carries the other
    axes of [a] followed by the other axes of [b]. *)
Definition np_dot (a b : ndarray) : result ndarray :=
  match shape a, shape b with
  | [], _ => np_multiply a b
  | _, [] => np_multiply a b
  | _, _ =>
      let na := length (shape a) - 1 in
      let nb := length (shape b) - 2 in
      let ka := last (shape a) 0 in
      let kb := nth nb (shape b) 0 in
      if ka =? kb
      then Ok (mk_nd (removelast (shape a) ++ firstn nb (shape b)
                        ++ skipn (S nb) (shape b))
                 (fun idx =>
                    let ia := firstn na idx in
                    let jb := skipn na idx in
                    qsum ka (fun t =>
                      (get a (ia ++ [t])
                       * get b (firstn nb jb ++ t :: skipn nb jb))%Qc)))
      else Raise ValueError
  end.

(** [np.sum(a, axis=0, keepdims=True)] *)
Definition np_sum_axis0_keepdims (a : ndarray) : result ndarray :=
  match shape a with
  | [] => Raise ValueError
  | d :: rest =>
      Ok (mk_nd (1 :: rest) (fun idx => qsum d (fun t => get a (t :: tl idx))))
  end.

Fixpoint unsqueeze (sh j : list nat) : list nat :=
  match sh with
  | [] => []
  | d :: sh' =>
      if d =? 1 then 0 :: unsqueeze sh' j
      else hd 0 j :: unsqueeze sh' (tl j)
  end.

(** [np.squeeze(a)]: the axes of length one are removed. *)
Definition np_squeeze (a : ndarray) : ndarray :=
  mk_nd (filter (fun d => negb (d =? 1)) (shape a))
        (fun j => get a (unsqueeze (shape a) j)).

(** Row-major position of a cell, and back. *)
Fixpoint ravel (sh idx : list nat) : nat :=
  match sh with
  | [] => 0
  | _ :: sh' => hd 0 idx * prod_dims sh' + ravel sh' (tl idx)
  end.

Fixpoint unravel (sh : list nat) (k : nat) : list nat :=
  match sh with
  | [] => []
  | _ :: sh' => (k / prod_dims sh') :: unravel sh' (k mod prod_dims sh')
  end.

(** [a.reshape(new)] with every dimension given. *)
Definition np_reshape (a : ndarray) (new : list nat) : result ndarray :=
  if prod_dims (shape a) =? prod_dims new
  then Ok (mk_nd new (fun j => get a (unravel (shape a) (ravel new j))))
  else Raise ValueError.

(** [a.reshape(known, -1)]: the second dimension is inferred; numpy refuses
    when [known] is zero or does not divide the number of elements. *)
Definition np_reshape_infer (a : ndarray) (known : nat) : result ndarray :=
  let total := prod_dims (shape a) in
  if (known =? 0) || negb (total mod known =? 0)
  then Raise ValueError
  else np_reshape a [known; total / known].

(** A Python integer used as a float. *)
Definition qc_of_nat (n : nat) : Qc := Q2Qc (inject_Z (Z.of_nat n)).

(** [a / m] for a Python integer [m >= 0] (numpy answers [nan] or [inf]
    where [m] is zero; the model has no such values and is meant for
    [m <> 0]). *)
Definition np_true_divide (a : ndarray) (m : nat) : ndarray :=
  mk_nd (shape a) (fun idx => (get a idx / qc_of_nat m)%Qc).

(** ** The layers of [layer.py] *)

Module Layer.

(** Names defined in the body of [class Layer]. *)
Definition attrs : list string := ["__init__"; "forward"; "backward"]%string.

End Layer.

Module FC.

(** [__init__] draws [weights] and [bias]; [input] and [output] exist once
    [forward] has run. *)
Record obj : Type := mk {
  weights : ndarray;
  bias : ndarray;
  input : option ndarray;
  output : option ndarray
}.

Definition set_input (v : ndarray) (self : obj) : obj :=
  mk (weights self) (bias self) (Some v) (output self).
Definition set_output (v : ndarray) (self : obj) : obj :=
  mk (weights self) (bias self) (input self) (Some v).
Definition set_weights (v : ndarray) (self : obj) : obj :=
  mk v (bias self) (input self) (output self).
Definition set_bias (v : ndarray) (self : obj) : obj :=
  mk (weights self) v (input self) (output self).

Definition forward (input_data : ndarray) : M obj ndarray :=
  (modify (set_input input_data) ;;;
   w <<- gets weights ;;
   b <<- gets bias ;;
   out <<- lift (xw <- np_dot input_data w ;; np_add xw b)%py ;;
   modify (set_output out) ;;;
   ret out)%meth.

Definition backward (dY : ndarray) (learning_rate : Qc) : M obj ndarray :=
  (m <<- lift (py_len dY) ;;
   w <<- gets weights ;;
   grad <<- lift (np_dot dY (np_T w)) ;;
   x <<- getattr "input" input ;;
   xtdy <<- lift (np_dot (np_T x) dY) ;;
   let dW := np_true_divide xtdy m in
   s <<- lift (np_sum_axis0_keepdims dY) ;;
   n <<- lift (shape_at dY 1) ;;
   r <<- lift (np_reshape (np_squeeze s) [1; n]) ;;
   let dB := np_true_divide r m in
   (* update parameters *)
   ldw <<- lift (np_multiply (np_scalar learning_rate) dW) ;;
   w' <<- lift (np_isub w [] ldw) ;;
   modify (set_weights w') ;;;
   ldb <<- lift (np_multiply (np_scalar learning_rate) dB) ;;
   b <<- gets bias ;;
   b' <<- lift (np_isub b [] ldb) ;;
   modify (set_bias b') ;;;
   ret grad)%meth.

End FC.

Module ActivationLayer.

(** The two functions are supplied by the caller and may raise. *)
Record obj : Type := mk {
  activation : ndarray -> result ndarray;
  activation_grad : ndarray -> result ndarray;
  input : option ndarray;
  output : option ndarray
}.

Definition set_input (v : ndarray) (self : obj) : obj :=
  mk (activation self) (activation_grad self) (Some v) (output self).
Definition set_output (v : ndarray) (self : obj) : obj :=
  mk (activation self) (activation_grad self) (input self) (Some v).

Definition forward (input_data : ndarray) : M obj ndarray :=
  (modify (set_input input_data) ;;;
   f <<- gets activation ;;
   out <<- lift (f input_data) ;;
   modify (set_output out) ;;;
   ret out)%meth.

Definition backward (dY : ndarray) (learning_rate : Qc) : M obj ndarray :=
  (g <<- gets activation_grad ;;
   x <<- getattr "input" input ;;
   gx <<- lift (g x) ;;
   lift (np_multiply gx dY))%meth.

End ActivationLayer.

Module Flatten.

(** [Flatten] inherits [Layer.__init__]: [input] starts as [None]. *)
Record obj : Type := mk {
  input : option ndarray;
  output : option ndarray
}.

Definition set_input (v : ndarray) (self : obj) : obj :=
  mk (Some v) (output self).

Definition forward (X : ndarray) : M obj ndarray :=
  (modify (set_input X) ;;;
   samples <<- lift (shape_at X 0) ;;
   lift (np_reshape_infer X samples))%meth.

(** [self.input.shape] on [None] is an attribute error as well. *)
Definition backward (dY : ndarray) (learning_rate : Qc) : M obj ndarray :=
  (x <<- getattr "shape" input ;;
   lift (np_reshape dY (shape x)))%meth.

End Flatten.

(** Modelled from the spec: [utils.pad_inputs] is not among the sources.
    The spec describes it as the padding helper that, given a tensor and a
    [(pad_h, pad_w)] pair, returns a zero-padded copy with the padding
    applied to the two spatial axes only (not the batch or channel axes).
    The spec is silent on negative amounts and on tensors that are not 4-d;
    the model raises there. *)
Definition pad_inputs (X : ndarray) (pad : Z * Z) : result ndarray :=
  match shape X with
  | [s; H; Wd; C] =>
      if ((0 <=? fst pad) && (0 <=? snd pad))%Z
      then
        let ph := Z.to_nat (fst pad) in
        let pw := Z.to_nat (snd pad) in
        Ok (mk_nd [s; H + 2 * ph; Wd + 2 * pw; C]
              (fun idx =>
                 match idx with
                 | [i; h; w; c] =>
                     if (ph <=? h) && (h <? ph + H) && (pw <=? w) && (w <? pw + Wd)
                     then get X [i; h - ph; w - pw; c]
                     else 0%Qc
                 | _ => 0%Qc
                 end))
      else Raise ValueError
  | _ => Raise ValueError
  end.

Module Conv_layer.

(** [__init__] stores the four configuration values; [W], [b], [pad_h],
    [pad_w] and [A] are assigned by [forward], [dW] and [db] by
    [backward]. *)
Record obj : Type := mk {
  stride : Z;
  kernel_shape : nat * nat;
  padding : string;
  filters : nat;
  W : option ndarray;
  b : option ndarray;
  pad_h : option Z;
  pad_w : option Z;
  A : option ndarray;
  dW : option ndarray;
  db : option ndarray
}.

(** The instance as [__init__] leaves it. *)
Definition init (filters : nat) (kernel_shape : nat * nat) (padding : string)
  (stride : Z) : obj :=
  mk stride kernel_shape padding filters None None None None None None None.

Definition set_W (v : ndarray) (s : obj) : obj :=
  mk (stride s) (kernel_shape s) (padding s) (filters s)
     (Some v) (b s) (pad_h s) (pad_w s) (A s) (dW s) (db s).
Definition set_b (v : ndarray) (s : obj) : obj :=
  mk (stride s) (kernel_shape s) (padding s) (filters s)
     (W s) (Some v) (pad_h s) (pad_w s) (A s) (dW s) (db s).
Definition set_pad_h (v : Z) (s : obj) : obj :=
  mk (stride s) (kernel_shape s) (padding s) (filters s)
     (W s) (b s) (Some v) (pad_w s) (A s) (dW s) (db s).
Definition set_pad_w (v : Z) (s : obj) : obj :=
  mk (stride s) (kernel_shape s) (padding s) (filters s)
     (W s) (b s) (pad_h s) (Some v) (A s) (dW s) (db s).
Definition set_A (v : ndarray) (s : obj) : obj :=
  mk (stride s) (kernel_shape s) (padding s) (filters s)
     (W s) (b s) (pad_h s) (pad_w s) (Some v) (dW s) (db s).
Definition set_dW (v : ndarray) (s : obj) : obj :=
  mk (stride s) (kernel_shape s) (padding s) (filters s)
     (W s) (b s) (pad_h s) (pad_w s) (A s) (Some v) (db s).
Definition set_db (v : ndarray) (s : obj) : obj :=
  mk (stride s) (kernel_shape s) (padding s) (filters s)
     (W s) (b s) (pad_h s) (pad_w s) (A s) (dW s) (Some v).

(** Names defined in the body of [class Conv_layer]. *)
Definition attrs : list string :=
  ["__init__"; "conv_single_step"; "forward"; "backward"]%string.

Definition name_if {T : Type} (field : option T) (name : string) : list string :=
  match field with
  | Some _ => [name]
  | None => []
  end.

(** Names in the instance dictionary. *)
Definition instance_attrs (s : obj) : list string :=
  concat
    [ ["stride"; "kernel_shape"; "padding"; "filters"]%string;
      name_if (W s) "W"; name_if (b s) "b";
      name_if (pad_h s) "pad_h"; name_if (pad_w s) "pad_w";
      name_if (A s) "A"; name_if (dW s) "dW"; name_if (db s) "db" ].

(** Attribute lookup by name: the instance, then the class, then its base
    ([object] contributes only double-underscore names). *)
Definition has_attr (s : obj) (name : string) : bool :=
  existsb (String.eqb name) (instance_attrs s ++ attrs ++ Layer.attrs).

Definition conv_single_step (input W b : ndarray) : result Qc :=
  (p <- np_multiply input W ;;
   fb <- py_float b ;;
   Ok (np_sum p + fb)%Qc)%py.

(** Lines 119-128 of [forward]: the pad amounts and the output height and
    width, [(pad_h, pad_w, n_H, n_W)]. *)
Definition output_geometry (self : obj) (prev_height prev_width : nat)
  : result (Z * Z * Z * Z) :=
  let filter_shape_h := Z.of_nat (fst (kernel_shape self)) in
  let filter_shape_w := Z.of_nat (snd (kernel_shape self)) in
  let prev_height := Z.of_nat prev_height in
  let prev_width := Z.of_nat prev_width in
  (if String.eqb (padding self) "same"
   then
     pad_h <- py_int_truediv
                ((prev_height - 1) * stride self + filter_shape_h - prev_height) 2 ;;
     pad_w <- py_int_truediv
                ((prev_width - 1) * stride self + filter_shape_w - prev_width) 2 ;;
     Ok (pad_h, pad_w, prev_height, prev_width)
   else
     q_h <- py_int_truediv (prev_height - filter_shape_h) (stride self) ;;
     q_w <- py_int_truediv (prev_width - filter_shape_w) (stride self) ;;
     Ok (0, 0, q_h + 1, q_w + 1))%py%Z.

(** The value stored in [Z[i, h, w, c]]. *)
Definition forward_cell (self : obj) (W b x : ndarray) (h w c : nat) : result Qc :=
  let filter_shape_h := Z.of_nat (fst (kernel_shape self)) in
  let filter_shape_w := Z.of_nat (snd (kernel_shape self)) in
  let vert_start := (stride self * Z.of_nat h)%Z in
  let vert_end := (vert_start + filter_shape_h)%Z in
  let horiz_start := (stride self * Z.of_nat w)%Z in
  let horiz_end := (horiz_start + filter_shape_w)%Z in
  (x_slice <- np_getitem x [Sl vert_start vert_end; Sl horiz_start horiz_end; All] ;;
   Wc <- np_getitem W [All; All; All; Ix c] ;;
   bc <- np_getitem b [All; All; All; Ix c] ;;
   conv_single_step x_slice Wc bc)%py.

(** The loop nest of lines 135-149. *)
Definition forward_loops (self : obj) (W b X_pad : ndarray) (samples : nat)
  (n_H n_W : Z) (Z0 : ndarray) : result ndarray :=
  for_loop (seq 0 samples) (fun i Zi =>
    (x <- np_getitem X_pad [Ix i] ;;
     for_loop (py_range n_H) (fun h Zh =>
       for_loop (py_range n_W) (fun w Zw =>
         for_loop (seq 0 (filters self)) (fun c Zc =>
           (v <- forward_cell self W b x h w c ;;
            np_setitem Zc [Ix i; Ix h; Ix w; Ix c] (np_scalar v))%py)
         Zw)
       Zh)
     Zi)%py)
  Z0.

Section Forward.

(** [utils.glorot_uniform] is not among the sources and draws from the
    global random generator: the draw made by one call of [forward] is a
    parameter, a function from the requested shape to the pair [(W, b)]. *)
Variable glorot_uniform : list nat -> ndarray * ndarray.

Definition forward (X : ndarray) : M obj ndarray :=
  match shape X with
  | [samples; prev_height; prev_width; prev_channels] =>
      (self <<- gets (fun s => s) ;;
       let shp := [fst (kernel_shape self); snd (kernel_shape self);
                   prev_channels; filters self] in
       let W0 := fst (glorot_uniform shp) in
       let b0 := snd (glorot_uniform shp) in
       modify (set_W W0) ;;;
       modify (set_b b0) ;;;
       g <<- lift (output_geometry self prev_height prev_width) ;;
       let '(pad_h, pad_w, n_H, n_W) := g in
       Z0 <<- lift (np_zeros_z [Z.of_nat samples; n_H; n_W;
                                Z.of_nat (filters self)]) ;;
       modify (set_pad_h pad_h) ;;;
       modify (set_pad_w pad_w) ;;;
       X_pad <<- lift (pad_inputs X (pad_h, pad_w)) ;;
       Zr <<- lift (forward_loops self W0 b0 X_pad samples n_H n_W Z0) ;;
       modify (set_A X) ;;;
       ret Zr)%meth
  | _ => raise ValueError
  end.

End Forward.

(** The body of the innermost loop of [backward] (lines 188-192): it
    updates the local [da_pad] and the attributes [dW] and [db]. *)
Definition backward_cell (dY a_pad : ndarray) (i h w c : nat) (da_pad : ndarray)
  : M obj ndarray :=
  (self <<- gets (fun s => s) ;;
   let filter_shape_h := Z.of_nat (fst (kernel_shape self)) in
   let filter_shape_w := Z.of_nat (snd (kernel_shape self)) in
   let vert_start := (stride self * Z.of_nat h)%Z in
   let vert_end := (vert_start + filter_shape_h)%Z in
   let horiz_start := (stride self * Z.of_nat w)%Z in
   let horiz_end := (horiz_start + filter_shape_w)%Z in
   let window := [Sl vert_start vert_end; Sl horiz_start horiz_end; All] in
   a_slice <<- lift (np_getitem a_pad window) ;;
   W0 <<- getattr "W" W ;;
   g <<- lift (Wc <- np_getitem W0 [All; All; All; Ix c] ;;
               dy <- np_getitem dY [Ix i; Ix h; Ix w; Ix c] ;;
               np_multiply Wc dy)%py ;;
   da_pad' <<- lift (np_iadd da_pad window g) ;;
   dW0 <<- getattr "dW" dW ;;
   gw <<- lift (dy <- np_getitem dY [Ix i; Ix h; Ix w; Ix c] ;;
                np_multiply a_slice dy)%py ;;
   dW' <<- lift (np_iadd dW0 [All; All; All; Ix c] gw) ;;
   modify (set_dW dW') ;;;
   db0 <<- getattr "db" db ;;
   dy <<- lift (np_getitem dY [Ix i; Ix h; Ix w; Ix c]) ;;
   db' <<- lift (np_iadd db0 [All; All; All; Ix c] dy) ;;
   modify (set_db db') ;;;
   ret da_pad')%meth.

(** The body of the loop over the samples (lines 176-196), acting on the
    instance ([W], [b], [dW], [db]) and on the local [dA]. *)
Definition backward_sample (dY A_pad dA_pad : ndarray) (learning_rate : Qc)
  (pad_h pad_w : Z) (prev_height prev_width : nat) (i : nat) (dA : ndarray)
  : M obj ndarray :=
  (a_pad <<- lift (np_getitem A_pad [Ix i]) ;;
   da_pad <<- lift (np_getitem dA_pad [Ix i]) ;;
   nf <<- gets filters ;;
   da_pad' <<- for_loopM (seq 0 prev_height) (fun h da_h =>
                 for_loopM (seq 0 prev_width) (fun w da_w =>
                   for_loopM (seq 0 nf) (fun c da_c =>
                     backward_cell dY a_pad i h w c da_c)
                   da_w)
                 da_h)
               da_pad ;;
   crop <<- lift (np_getitem da_pad' [Sl pad_h (- pad_h); Sl pad_w (- pad_w); All]) ;;
   dA' <<- lift (np_setitem dA [Ix i; All; All; All] crop) ;;
   W0 <<- getattr "W" W ;;
   dW0 <<- getattr "dW" dW ;;
   ldw <<- lift (np_multiply (np_scalar learning_rate) dW0) ;;
   W' <<- lift (np_isub W0 [] ldw) ;;
   modify (set_W W') ;;;
   b0 <<- getattr "b" b ;;
   db0 <<- getattr "db" db ;;
   ldb <<- lift (np_multiply (np_scalar learning_rate) db0) ;;
   b' <<- lift (np_isub b0 [] ldb) ;;
   modify (set_b b') ;;;
   ret dA')%meth.

(** Lines 169-198 of [backward]: what follows the call of [init_cache]. *)
Definition backward_from_line_169 (dY : ndarray) (learning_rate : Qc)
  (A0 : ndarray) (pad_h pad_w : Z) (samples prev_height prev_width : nat)
  (dA : ndarray) : M obj ndarray :=
  (W0 <<- getattr "W" W ;;
   modify (set_dW (np_zeros_like W0)) ;;;
   b0 <<- getattr "b" b ;;
   modify (set_db (np_zeros_like b0)) ;;;
   A_pad <<- lift (pad_inputs A0 (pad_h, pad_w)) ;;
   dA_pad <<- lift (pad_inputs dA (pad_h, pad_w)) ;;
   for_loopM (seq 0 samples)
     (backward_sample dY A_pad dA_pad learning_rate pad_h pad_w
        prev_height prev_width)
     dA)%meth.

Definition backward (dY : ndarray) (learning_rate : Qc) : M obj ndarray :=
  (A0 <<- getattr "A" A ;;
   pad_h <<- getattr "pad_h" pad_h ;;
   pad_w <<- getattr "pad_w" pad_w ;;
   match shape A0 with
   | [samples; prev_height; prev_width; prev_channels] =>
       let dA := np_zeros [samples; prev_height; prev_width; prev_channels] in
       (* self.grads = self.init_cache() *)
       self <<- gets (fun s => s) ;;
       if has_attr self "init_cache"
       then backward_from_line_169 dY learning_rate A0 pad_h pad_w
              samples prev_height prev_width dA
       else raise (AttributeError "init_cache")
   | _ => raise ValueError
   end)%meth.

(** [backward] as it would run if the call of [init_cache] returned:
    lines 160-166 followed by lines 169-198. *)
Definition backward_past_init_cache (dY : ndarray) (learning_rate : Qc)
  : M obj ndarray :=
  (A0 <<- getattr "A" A ;;
   pad_h <<- getattr "pad_h" pad_h ;;
   pad_w <<- getattr "pad_w" pad_w ;;
   match shape A0 with
   | [samples; prev_height; prev_width; prev_channels] =>
       let dA := np_zeros [samples; prev_height; prev_width; prev_channels] in
       backward_from_line_169 dY learning_rate A0 pad_h pad_w
         samples prev_height prev_width dA
   | _ => raise ValueError
   end)%meth.

End Conv_layer.

(** ** [FC.backward] over binary64 *)

(** The exact rationals of [ndarray] leave rounding out.  To measure it,
    [FC.backward] is written once more over binary64 numbers (the kernel's
    primitive floats, IEEE 754 with rounding to nearest), for 2-d arrays
    given as the list of their rows.  The shapes are taken to agree: the
    shape errors are those of [FC.backward] above.  The sums inside
    [np.dot] and [np.sum] are taken from left to right; numpy does not fix
    their order. *)
Module FC64.

Import PrimFloat.

Definition matrix : Type := list (list float).

Record obj : Type := mk {
  weights : matrix;
  bias : matrix;
  input : option matrix
}.

Definition set_input (v : matrix) (self : obj) : obj :=
  mk (weights self) (bias self) (Some v).
Definition set_weights (v : matrix) (self : obj) : obj :=
  mk v (bias self) (input self).
Definition set_bias (v : matrix) (self : obj) : obj :=
  mk (weights self) v (input self).


(** A Python integer used as a float (exact below [2^53]). *)
Fixpoint float_of_nat (n : nat) : float :=
  match n with
  | O => 0%float
  | S k => (float_of_nat k + 1)%float
  end.

Definition fsum (l : list float) : float := fold_left add l 0%float.

Definition column (j : nat) (a : matrix) : list float :=
  map (fun row => nth j row 0%float) a.

Definition width (a : matrix) : nat := length (hd [] a).

(** [a.T] *)
Definition T (a : matrix) : matrix :=
  map (fun j => column j a) (seq 0 (width a)).

(** [np.dot(a, b)] *)
Definition dot (a b : matrix) : matrix :=
  map (fun row =>
         map (fun j => fsum (map (fun p => (fst p * snd p)%float)
                               (combine row (column j b))))
             (seq 0 (width b)))
      a.

(** [np.sum(a, axis=0, keepdims=True)] *)
Definition sum_axis0_keepdims (a : matrix) : matrix :=
  [map (fun j => fsum (column j a)) (seq 0 (width a))].

(** [a / m] *)
Definition true_divide (a : matrix) (m : nat) : matrix :=
  map (map (fun x => (x / float_of_nat m)%float)) a.

(** [c * a] *)
Definition scalar_multiply (c : float) (a : matrix) : matrix :=
  map (map (mul c)) a.

(** [a -= b] *)
Definition isub (a b : matrix) : matrix :=
  map (fun rows => map (fun p => (fst p - snd p)%float)
                       (combine (fst rows) (snd rows)))
      (combine a b).

(** [np.squeeze(s).reshape(1, n)] of a [1 x n] array [s] is [s] again. *)
Definition backward (dY : matrix) (learning_rate : float) : M obj matrix :=
  (let m := length dY in
   w <<- gets weights ;;
   let grad := dot dY (T w) in
   x <<- getattr "input" input ;;
   let dW := true_divide (dot (T x) dY) m in
   let dB := true_divide (sum_axis0_keepdims dY) m in
   (* update parameters *)
   modify (set_weights (isub w (scalar_multiply learning_rate dW))) ;;;
   b <<- gets bias ;;
   modify (set_bias (isub b (scalar_multiply learning_rate dB))) ;;;
   ret grad)%meth.

End FC64.

(** ** The training driver of [model.py] *)

(** A Python number: the driver mixes integers and floats. *)
Inductive pynum : Type :=
| PyInt (z : Z)
| PyFloat (q : Qc).

Definition pynum_value (x : pynum) : Qc :=
  match x with
  | PyInt z => Q2Qc (inject_Z z)
  | PyFloat q => q
  end.

(** [a / b] on Python integers: always a float. *)
Definition py_truediv (a b : Z) : result pynum :=
  if (b =? 0)%Z then Raise ZeroDivisionError
  else Ok (PyFloat (Q2Qc (inject_Z a) / Q2Qc (inject_Z b))%Qc).

(** [max(a, b)]: the first argument unless the second is larger. *)
Definition py_max (a b : pynum) : pynum :=
  match (pynum_value a ?= pynum_value b)%Qc with
  | Lt => b
  | _ => a
  end.

(** [range(n)] accepts integers only. *)
Definition py_range_num (n : pynum) : result (list nat) :=
  match n with
  | PyInt z => Ok (py_range z)
  | PyFloat _ => Raise TypeError
  end.

(** [x / n] for the error accumulator and a length [n].  (A numpy scalar
    divided by zero gives [nan] or [inf]; the accumulator is taken to hold
    Python numbers, for which the division raises.) *)
Definition pynum_div (x : pynum) (n : nat) : result pynum :=
  if n =? 0 then Raise ZeroDivisionError
  else Ok (PyFloat (pynum_value x / qc_of_nat n)%Qc).

(** [sh[0] = v] on the list [sh]. *)
Definition py_set_first (sh : list nat) (v : nat) : result (list nat) :=
  match sh with
  | [] => Raise IndexError
  | _ :: rest => Ok (v :: rest)
  end.

(** The list [l] with its position [k], when it has one, holding [v]. *)
Fixpoint update_nth {A : Type} (k : nat) (v : A) (l : list A) : list A :=
  match l, k with
  | [], _ => []
  | _ :: l', O => v :: l'
  | x :: l', S k' => x :: update_nth k' v l'
  end.

Module Model.

(** The objects a model can hold: instances of the four layer classes. *)
Inductive layer_obj : Type :=
| FC_layer (o : FC.obj)
| Activation_layer (o : ActivationLayer.obj)
| Flatten_layer (o : Flatten.obj)
| Conv (o : Conv_layer.obj).

(** The instance and what its methods can reach.  [layers] holds references
    (positions in [heap]), so that a layer added twice is one object;
    [draws] counts the calls of [utils.glorot_uniform] made so far, and
    [stdout] holds one entry [(epoch, epochs, error)] per printed line. *)
Record obj : Type := mk {
  training_method : string;
  layers : list nat;
  err : pynum;
  loss : option (ndarray -> ndarray -> result Qc);
  loss_prime : option (ndarray -> ndarray -> result ndarray);
  heap : list layer_obj;
  draws : nat;
  stdout : list (Z * Z * Qc)
}.

(** [Model(training_method)], in a world holding the objects [heap]. *)
Definition init (training_method : string) (heap : list layer_obj) : obj :=
  mk training_method [] (PyInt 0) None None heap 0 [].

Definition set_layers (v : list nat) (s : obj) : obj :=
  mk (training_method s) v (err s) (loss s) (loss_prime s)
     (heap s) (draws s) (stdout s).
Definition set_err (v : pynum) (s : obj) : obj :=
  mk (training_method s) (layers s) v (loss s) (loss_prime s)
     (heap s) (draws s) (stdout s).
Definition set_loss (l : ndarray -> ndarray -> result Qc)
  (lp : ndarray -> ndarray -> result ndarray) (s : obj) : obj :=
  mk (training_method s) (layers s) (err s) (Some l) (Some lp)
     (heap s) (draws s) (stdout s).
Definition set_heap (v : list layer_obj) (s : obj) : obj :=
  mk (training_method s) (layers s) (err s) (loss s) (loss_prime s)
     v (draws s) (stdout s).
Definition set_draws (v : nat) (s : obj) : obj :=
  mk (training_method s) (layers s) (err s) (loss s) (loss_prime s)
     (heap s) v (stdout s).
Definition print (line : Z * Z * Qc) (s : obj) : obj :=
  mk (training_method s) (layers s) (err s) (loss s) (loss_prime s)
     (heap s) (draws s) (stdout s ++ [line]).

(** add layer to network *)
Definition add (layer : nat) : M obj unit :=
  modify (fun s => set_layers (layers s ++ [layer]) s).

(** set loss to use *)
Definition use (l : ndarray -> ndarray -> result Qc)
  (lp : ndarray -> ndarray -> result ndarray) : M obj unit :=
  modify (set_loss l lp).

Section Driver.

(** The successive draws of [utils.glorot_uniform]: [glorot k] is the
    draw number [k] of the run. *)
Variable glorot : nat -> list nat -> ndarray * ndarray.

(** [layer.forward(X)] on the object itself; a [Conv_layer] draws once it
    has unpacked a 4-d shape. *)
Definition layer_forward (d : nat) (l : layer_obj) (X : ndarray)
  : result ndarray * layer_obj * nat :=
  match l with
  | FC_layer o => (fst (FC.forward X o), FC_layer (snd (FC.forward X o)), d)
  | Activation_layer o =>
      (fst (ActivationLayer.forward X o),
       Activation_layer (snd (ActivationLayer.forward X o)), d)
  | Flatten_layer o =>
      (fst (Flatten.forward X o), Flatten_layer (snd (Flatten.forward X o)), d)
  | Conv o =>
      (fst (Conv_layer.forward (glorot d) X o),
       Conv (snd (Conv_layer.forward (glorot d) X o)),
       if length (shape X) =? 4 then S d else d)
  end.

Definition layer_backward (l : layer_obj) (dY : ndarray) (learning_rate : Qc)
  : result ndarray * layer_obj :=
  match l with
  | FC_layer o =>
      (fst (FC.backward dY learning_rate o),
       FC_layer (snd (FC.backward dY learning_rate o)))
  | Activation_layer o =>
      (fst (ActivationLayer.backward dY learning_rate o),
       Activation_layer (snd (ActivationLayer.backward dY learning_rate o)))
  | Flatten_layer o =>
      (fst (Flatten.backward dY learning_rate o),
       Flatten_layer (snd (Flatten.backward dY learning_rate o)))
  | Conv o =>
      (fst (Conv_layer.backward dY learning_rate o),
       Conv (snd (Conv_layer.backward dY learning_rate o)))
  end.

(** The method calls through a reference.  (A position outside the heap
    stands for an object without the method.) *)
Definition call_forward (ref : nat) (X : ndarray) : M obj ndarray :=
  fun s =>
    match nth_error (heap s) ref with
    | None => (Raise (AttributeError "forward"), s)
    | Some l =>
        let r := layer_forward (draws s) l X in
        (fst (fst r),
         set_draws (snd r) (set_heap (update_nth ref (snd (fst r)) (heap s)) s))
    end.

Definition call_backward (learning_rate : Qc) (ref : nat) (dY : ndarray)
  : M obj ndarray :=
  fun s =>
    match nth_error (heap s) ref with
    | None => (Raise (AttributeError "backward"), s)
    | Some l =>
        let r := layer_backward l dY learning_rate in
        (fst r, set_heap (update_nth ref (snd r) (heap s)) s)
    end.

(** Calling an attribute that may still be [None]. *)
Definition callable {A : Type} (field : obj -> option A) : M obj A :=
  fun s =>
    match field s with
    | Some f => (Ok f, s)
    | None => (Raise TypeError, s)
    end.

(** [for layer in self.layers: X = layer.forward(X)] *)
Definition forward_pass (X : ndarray) : M obj ndarray :=
  (ls <<- gets layers ;;
   for_loopM ls call_forward X)%meth.

(** predict X for given input *)
Definition predict (input_data : ndarray) : M obj (list ndarray) :=
  ((* sample dimension first *)
   samples <<- lift (py_len input_data) ;;
   (* run network over all samples *)
   for_loopM (seq 0 samples) (fun i result =>
     (* forward propagation *)
     X <<- lift (np_getitem input_data [Ix i]) ;;
     X' <<- forward_pass X ;;
     ret (result ++ [X']))
   [])%meth.

Definition train (X Y : ndarray) (learning_rate : Qc) : M obj unit :=
  (X' <<- forward_pass X ;;
   (* compute loss (for display purpose only) *)
   e <<- gets err ;;
   l <<- callable loss ;;
   v <<- lift (l Y X') ;;
   modify (set_err (PyFloat (pynum_value e + v)%Qc)) ;;;
   (* backward propagation *)
   lp <<- callable loss_prime ;;
   error <<- lift (lp Y X') ;;
   ls <<- gets layers ;;
   for_loopM (rev ls) (call_backward learning_rate) error ;;;
   ret tt)%meth.

(** One sample or one batch of [fit]: rows [begin .. end-1] of both arrays,
    reshaped to [rows] rows, then [train]. *)
Definition fit_step (x_train y_train : ndarray) (idx : pyindex) (rows : nat)
  (learning_rate : Qc) : M obj unit :=
  (sh_x <<- lift (py_set_first (shape x_train) rows) ;;
   X <<- lift (X0 <- np_getitem x_train [idx; All] ;; np_reshape X0 sh_x)%py ;;
   sh_y <<- lift (py_set_first (shape y_train) rows) ;;
   Y <<- lift (Y0 <- np_getitem y_train [idx; All] ;; np_reshape Y0 sh_y)%py ;;
   train X Y learning_rate)%meth.

(** One pass of the training loop of [fit], for the epoch [i].  (In the
    ['batch'] mode [range] accepts the number of batches only when it is
    the integer 1, so [begin_index] is 0 and the batch size is never
    negative.) *)
Definition fit_epoch (x_train y_train : ndarray) (samples : nat) (epochs : Z)
  (learning_rate : Qc) (i : nat) : M obj unit :=
  (modify (set_err (PyInt 0)) ;;;
   method <<- gets training_method ;;
   (if String.eqb method "online" then
      for_loopM (seq 0 samples) (fun j _ =>
        fit_step x_train y_train (Ix j) 1 learning_rate) tt
    else if String.eqb method "batch" then
      let batch_size := 100%Z in
      num_of_batches <<- lift (q <- py_truediv (Z.of_nat samples) batch_size ;;
                               Ok (py_max (PyInt 1) q))%py ;;
      js <<- lift (py_range_num num_of_batches) ;;
      for_loopM js (fun j _ =>
        let begin_index := (Z.of_nat j * batch_size)%Z in
        let end_index := Z.min (Z.of_nat samples) (begin_index + batch_size) in
        let current_batch_size := (end_index - begin_index)%Z in
        fit_step x_train y_train (Sl begin_index end_index)
          (Z.to_nat current_batch_size) learning_rate) tt
    else ret tt) ;;;
   (* calculate average error on all samples *)
   e <<- gets err ;;
   e' <<- lift (pynum_div e samples) ;;
   modify (set_err e') ;;;
   modify (print (Z.of_nat i + 1, epochs, pynum_value e')%Z))%meth.

(** train the network *)
Definition fit (x_train y_train : ndarray) (epochs : Z) (learning_rate : Qc)
  : M obj unit :=
  ((* sample dimension first *)
   samples <<- lift (py_len x_train) ;;
   (* training loop *)
   for_loopM (py_range epochs) (fun i _ =>
     fit_epoch x_train y_train samples epochs learning_rate i) tt)%meth.

End Driver.

End Model.

(** ** Vocabulary of the statements *)

(** Every index of [idx] lies inside the matching axis of [sh]. *)
Definition in_bounds (sh idx : list nat) : Prop := Forall2 lt idx sh.

(** What the spec says of the initializer's result: [W] has the requested
    shape and [b] the shape [1 x 1 x 1 x filters]. *)
Definition glorot_shapes (g : list nat -> ndarray * ndarray) : Prop :=
  forall kh kw C F,
    shape (fst (g [kh; kw; C; F])) = [kh; kw; C; F] /\
    shape (snd (g [kh; kw; C; F])) = [1; 1; 1; F].

(** The value [forward] computes for one output cell: [conv_single_step]
    on the window of sample [i] at [(h, w)], with filter [c] and bias [c]. *)
Definition cell_value (self : Conv_layer.obj) (W b Xp : ndarray) (idx : list nat)
  : result Qc :=
  match idx with
  | [i; h; w; c] =>
      (x <- np_getitem Xp [Ix i] ;; Conv_layer.forward_cell self W b x h w c)%py
  | _ => Raise IndexError
  end.

(** A loop body that only writes cells of the output, each with the value
    [f] gives it; [Q] are the cells it is sure to have written. *)
Definition fills (f : list nat -> result Qc) (Q : list nat -> Prop)
  (body : ndarray -> result ndarray) : Prop :=
  forall Z Z1, body Z = Ok Z1 ->
    shape Z1 = shape Z /\
    (forall idx, f idx = Ok (get Z idx) -> f idx = Ok (get Z1 idx)) /\
    (forall idx, Q idx -> f idx = Ok (get Z1 idx)).

(** [self.A], when assigned, is a 4-d array: true of a new layer, and kept
    by [forward] and [backward]. *)
Definition cache_is_4d (self : Conv_layer.obj) : Prop :=
  match Conv_layer.A self with
  | Some a => length (shape a) = 4
  | None => True
  end.

(** One pass of lines 195-196: [W] and [b] of [st'] are those of [st] less
    [learning_rate] times the [dW] and [db] that [st'] holds. *)
Definition one_update (learning_rate : Qc) (st st' : Conv_layer.obj) : Prop :=
  exists W0 b0 dW1 db1 ldw ldb W1 b1,
    Conv_layer.W st = Some W0 /\ Conv_layer.b st = Some b0 /\
    Conv_layer.dW st' = Some dW1 /\ Conv_layer.db st' = Some db1 /\
    np_multiply (np_scalar learning_rate) dW1 = Ok ldw /\
    np_isub W0 [] ldw = Ok W1 /\ Conv_layer.W st' = Some W1 /\
    np_multiply (np_scalar learning_rate) db1 = Ok ldb /\
    np_isub b0 [] ldb = Ok b1 /\ Conv_layer.b st' = Some b1.

Inductive sample_updates (learning_rate : Qc)
  : nat -> Conv_layer.obj -> Conv_layer.obj -> Prop :=
| no_sample (st : Conv_layer.obj) : sample_updates learning_rate 0 st st
| next_sample (n : nat) (st st1 st' : Conv_layer.obj) :
    one_update learning_rate st st1 ->
    sample_updates learning_rate n st1 st' ->
    sample_updates learning_rate (S n) st st'.


(** The fraction held by a cell of an attribute, when it is assigned. *)
Definition attr_cell (a : option ndarray) (idx : list nat) : option Q :=
  option_map (fun v => this (get v idx)) a.

Definition result_shape (r : result ndarray) : result (list nat) :=
  match r with
  | Ok a => Ok (shape a)
  | Raise e => Raise e
  end.

Definition result_cell (r : result ndarray) (idx : list nat) : result Q :=
  match r with
  | Ok a => Ok (this (get a idx))
  | Raise e => Raise e
  end.

(** The states a [Conv_layer] can be in: as [__init__] leaves it, or after
    any call of [forward] (with any draw of the initializer) or of
    [backward], whether the call returned or raised. *)
Inductive reachable : Conv_layer.obj -> Prop :=
| reach_init (filters : nat) (kernel_shape : nat * nat) (padding : string)
    (stride : Z) :
    reachable (Conv_layer.init filters kernel_shape padding stride)
| reach_forward (g : list nat -> ndarray * ndarray) (X : ndarray)
    (self : Conv_layer.obj) :
    reachable self -> reachable (snd (Conv_layer.forward g X self))
| reach_backward (dY : ndarray) (learning_rate : Qc) (self : Conv_layer.obj) :
    reachable self -> reachable (snd (Conv_layer.backward dY learning_rate self)).

(** What [forward] keeps of a layer object: its class, the parameters of an
    [FC] layer, the functions of an [ActivationLayer] and the configuration
    of a [Conv_layer]. *)
Definition layer_kept (l l' : Model.layer_obj) : Prop :=
  match l, l' with
  | Model.FC_layer o, Model.FC_layer o' =>
      FC.weights o' = FC.weights o /\ FC.bias o' = FC.bias o
  | Model.Activation_layer o, Model.Activation_layer o' =>
      ActivationLayer.activation o' = ActivationLayer.activation o /\
      ActivationLayer.activation_grad o' = ActivationLayer.activation_grad o
  | Model.Flatten_layer _, Model.Flatten_layer _ => True
  | Model.Conv o, Model.Conv o' =>
      Conv_layer.stride o' = Conv_layer.stride o /\
      Conv_layer.kernel_shape o' = Conv_layer.kernel_shape o /\
      Conv_layer.padding o' = Conv_layer.padding o /\
      Conv_layer.filters o' = Conv_layer.filters o
  | _, _ => False
  end.

(** The model after a call that has trained nothing: its own attributes
    and the output are as before, and every layer object is kept in the
    sense of [layer_kept]. *)
Definition model_kept (s s' : Model.obj) : Prop :=
  Model.training_method s' = Model.training_method s /\
  Model.layers s' = Model.layers s /\
  Model.err s' = Model.err s /\
  Model.loss s' = Model.loss s /\
  Model.loss_prime s' = Model.loss_prime s /\
  Model.stdout s' = Model.stdout s /\
  Forall2 layer_kept (Model.heap s) (Model.heap s').

(** The reference [ref] holds a [Conv_layer] whose cache, if any, is 4-d. *)
Definition conv_at (ref : nat) (s : Model.obj) : Prop :=
  exists o, nth_error (Model.heap s) ref = Some (Model.Conv o) /\ cache_is_4d o.

(** A model whose only layer is an [FC] layer with parameters [W] and [b]. *)
Definition fc_model (ref : nat) (W b : ndarray) (s : Model.obj) : Prop :=
  Model.layers s = [ref] /\
  exists o, nth_error (Model.heap s) ref = Some (Model.FC_layer o) /\
            FC.weights o = W /\ FC.bias o = b.

(** [y] is the row [X[i] . W + b], as an array of shape [(1, n_out)]. *)
Definition affine_row (X W b : ndarray) (n_in n_out i : nat) (y : ndarray)
  : Prop :=
  shape y = [1; n_out] /\
  forall j, j < n_out ->
    get y [0; j] = (qsum n_in (fun k => get X [i; k]%nat * get W [k; j]%nat)
                    + get b [0; j]%nat)%Qc.

(** ** Concrete inputs *)

(** An array given by its shape and its cells in row-major order. *)
Definition of_list (sh : list nat) (cells : list Z) : ndarray :=
  mk_nd sh (fun idx => Q2Qc (inject_Z (nth (ravel sh idx) cells 0%Z))).

(** A draw of the initializer: every weight is one, every bias zero. *)
Definition ones_glorot (shp : list nat) : ndarray * ndarray :=
  (mk_nd shp (fun _ => 1%Qc), mk_nd [1; 1; 1; nth 3 shp 0] (fun _ => 0%Qc)).

Definition half : Qc := Q2Qc (1 # 2).

Definition image_5x5 : ndarray := np_zeros [1; 5; 5; 1].

Definition image_4x4 : ndarray :=
  of_list [1; 4; 4; 1] [1; 2; 3; 4; 5; 6; 7; 8; 9; 10; 11; 12; 13; 14; 15; 16]%Z.

Definition image_2x2 : ndarray := of_list [1; 2; 2; 1] [5; 6; 7; 8]%Z.

Definition image_1x1 : ndarray := of_list [1; 1; 1; 1] [5]%Z.

(** Two samples of one pixel, and a gradient for the two outputs. *)
Definition batch_two_1x1 : ndarray := of_list [2; 1; 1; 1] [5; 7]%Z.
Definition grad_two_1x1 : ndarray := of_list [2; 1; 1; 1] [1; 10]%Z.

(** Layers with one filter, as [__init__] leaves them. *)
Definition conv_3x3_valid : Conv_layer.obj := Conv_layer.init 1 (3, 3) "valid" 1.
Definition conv_3x3_same : Conv_layer.obj := Conv_layer.init 1 (3, 3) "same" 1.
Definition conv_2x2_valid : Conv_layer.obj := Conv_layer.init 1 (2, 2) "valid" 1.
Definition conv_2x2_valid_stride2 : Conv_layer.obj :=
  Conv_layer.init 1 (2, 2) "valid" 2.
Definition conv_1x1_valid : Conv_layer.obj := Conv_layer.init 1 (1, 1) "valid" 1.

Definition batch_2x2x3 : ndarray :=
  of_list [2; 2; 3] [1; 2; 3; 4; 5; 6; 7; 8; 9; 10; 11; 12]%Z.

(** A fully connected layer with two inputs and one output, before any
    call of [forward]. *)
Definition fc_2x1 : FC.obj :=
  FC.mk (of_list [2; 1] [1; 2]%Z) (of_list [1; 1] [3]%Z) None None.

Definition batch_2x2 : ndarray := of_list [2; 2] [1; 0; 0; 1]%Z.
Definition grad_2x1 : ndarray := of_list [2; 1] [1; 1]%Z.

Definition grad_2x6 : ndarray :=
  of_list [2; 6] [1; 2; 3; 4; 5; 6; 7; 8; 9; 10; 11; 12]%Z.

(** An activation layer with the identity as function and a gradient of
    ones, before any call of [forward]. *)
Definition identity_activation : ActivationLayer.obj :=
  ActivationLayer.mk (fun x => Ok x)
    (fun x => Ok (mk_nd (shape x) (fun _ => 1%Qc))) None None.

Definition conv_1x1_stride0 : Conv_layer.obj := Conv_layer.init 1 (1, 1) "valid" 0.
Definition conv_2x2_same : Conv_layer.obj := Conv_layer.init 1 (2, 2) "same" 1.
Definition conv_4x4_same : Conv_layer.obj := Conv_layer.init 1 (4, 4) "same" 1.


(** A loss and a gradient of the loss: the sum of the outputs, and the
    outputs themselves. *)
Definition sum_loss (Y out : ndarray) : result Qc := Ok (np_sum out).
Definition output_as_gradient (Y out : ndarray) : result ndarray := Ok out.

(** Every draw of the run is [ones_glorot]. *)
Definition ones_draws (k : nat) : list nat -> ndarray * ndarray := ones_glorot.

(** Models built with [Model(...)], [add] and [use]. *)
Definition model_of (training_method : string) (layer : Model.layer_obj)
  : Model.obj :=
  snd ((Model.add 0 ;;; Model.use sum_loss output_as_gradient)%meth
         (Model.init training_method [layer])).

Definition model_fc : Model.obj := model_of "online" (Model.FC_layer fc_2x1).
Definition model_fc_batch : Model.obj := model_of "batch" (Model.FC_layer fc_2x1).
Definition model_fc_minibatch : Model.obj :=
  model_of "minibatch" (Model.FC_layer fc_2x1).
Definition model_conv : Model.obj := model_of "online" (Model.Conv conv_1x1_valid).

(** The same, before [use]. *)
Definition model_fc_no_loss : Model.obj :=
  snd (Model.add 0 (Model.init "online" [Model.FC_layer fc_2x1])).

(** * Properties *)

(** ** The monad and the loops *)

Lemma for_loop_preserves {I S : Type} (P : S -> Prop) (l : list I)
  (body : I -> S -> result S) (s s' : S) :
  (forall x s0 s1, In x l -> P s0 -> body x s0 = Ok s1 -> P s1) ->
  P s -> for_loop l body s = Ok s' -> P s'.
Proof.
  revert s; induction l as [|x l IH]; intros s Hb Hs Hl; simpl in Hl.
  - inversion Hl; subst; exact Hs.
  - destruct (body x s) as [s1|e] eqn:Hx; [|discriminate].
    apply (IH s1); auto.
    + intros y s0 s2 Hy; apply Hb; right; exact Hy.
    + apply (Hb x s s1); auto. left; reflexivity.
Qed.

Lemma for_loop_returns {I S : Type} (P : S -> Prop) (l : list I)
  (body : I -> S -> result S) (s : S) :
  (forall x s0, In x l -> P s0 -> exists s1, body x s0 = Ok s1 /\ P s1) ->
  P s -> exists s', for_loop l body s = Ok s' /\ P s'.
Proof.
  revert s; induction l as [|x l IH]; intros s Hb Hs; cbn [for_loop].
  - exists s. auto.
  - destruct (Hb x s (or_introl eq_refl) Hs) as (s1 & Hx & Hs1).
    rewrite Hx. apply IH; [|exact Hs1].
    intros y s0 Hy; apply Hb; right; exact Hy.
Qed.

Lemma for_loopM_app {I S A : Type} (l1 l2 : list I) (body : I -> A -> M S A)
  (a : A) (s : S) :
  for_loopM (l1 ++ l2) body a s
  = bind (for_loopM l1 body a) (for_loopM l2 body) s.
Proof.
  revert a s; induction l1 as [|x l1 IH]; intros a s; cbn [for_loopM app].
  - unfold bind, ret. reflexivity.
  - unfold bind in *. destruct (body x a s) as [[a'|e] s']; [apply IH | reflexivity].
Qed.

(** ** Row-major positions *)

Lemma ravel_lt (sh idx : list nat) :
  in_bounds sh idx -> ravel sh idx < prod_dims sh.
Proof.
  unfold in_bounds; intros Hb; induction Hb as [|i d idx sh Hi Hb IH]; simpl.
  - lia.
  - fold (prod_dims sh). nia.
Qed.

Lemma unravel_ravel (sh idx : list nat) :
  in_bounds sh idx -> unravel sh (ravel sh idx) = idx.
Proof.
  unfold in_bounds; intros Hb; induction Hb as [|i d idx sh Hi Hb IH]; simpl.
  - reflexivity.
  - pose proof (ravel_lt Hb) as Hr.
    rewrite Nat.div_add_l by lia.
    rewrite (Nat.div_small _ _ Hr), Nat.add_0_r.
    rewrite Nat.add_comm, Nat.Div0.mod_add, (Nat.mod_small _ _ Hr), IH.
    reflexivity.
Qed.

Lemma ravel_unravel (sh : list nat) (n : nat) :
  n < prod_dims sh -> ravel sh (unravel sh n) = n.
Proof.
  revert n; induction sh as [|d sh IH]; intros n Hn; simpl in *.
  - lia.
  - fold (prod_dims sh) in *.
    assert (Hp : prod_dims sh <> 0) by nia.
    rewrite IH by (apply Nat.mod_upper_bound; exact Hp).
    rewrite Nat.mul_comm. symmetry; apply Nat.div_mod_eq.
Qed.

Lemma unravel_in_bounds (sh : list nat) (n : nat) :
  n < prod_dims sh -> in_bounds sh (unravel sh n).
Proof.
  unfold in_bounds.
  revert n; induction sh as [|d sh IH]; intros n Hn; simpl in *.
  - constructor.
  - fold (prod_dims sh) in *.
    assert (Hp : prod_dims sh <> 0) by nia.
    constructor.
    + apply Nat.Div0.div_lt_upper_bound. lia.
    + apply IH. apply Nat.mod_upper_bound; exact Hp.
Qed.

(** ** Sums *)

Lemma qsum_ext (n : nat) (f g : nat -> Qc) :
  (forall i, i < n -> f i = g i) -> qsum n f = qsum n g.
Proof.
  induction n as [|n IH]; intros H; cbn [qsum]; [reflexivity|].
  rewrite IH by (intros i Hi; apply H; lia).
  rewrite (H n) by lia. reflexivity.
Qed.







Lemma np_sum_3d (a : ndarray) (d1 d2 d3 : nat) :
  shape a = [d1; d2; d3] ->
  np_sum a = qsum d1 (fun p => qsum d2 (fun q => qsum d3 (fun t => get a [p; q; t]))).
Proof. intros Hs. unfold np_sum. rewrite Hs. reflexivity. Qed.

(** ** Broadcasting and elementwise operators *)

Lemma bcast_index_in_bounds (sh idx : list nat) :
  in_bounds sh idx -> bcast_index sh idx = idx.
Proof.
  unfold in_bounds, bcast_index; intros Hb.
  rewrite (Forall2_length Hb), Nat.sub_diag; cbn [skipn].
  induction Hb as [|i d idx sh Hi Hb IH]; cbn [combine map fst snd]; [reflexivity|].
  rewrite IH. destruct (Nat.eqb_spec d 1); [f_equal; lia | reflexivity].
Qed.

Lemma bcast_rev_refl (l : list nat) : bcast_rev l l = Some l.
Proof.
  induction l as [|x l IH]; cbn [bcast_rev]; [reflexivity|].
  rewrite IH, Nat.eqb_refl. reflexivity.
Qed.

Lemma broadcast_shapes_refl (sh : list nat) : broadcast_shapes sh sh = Some sh.
Proof.
  unfold broadcast_shapes. rewrite bcast_rev_refl. cbn [option_map].
  rewrite rev_involutive. reflexivity.
Qed.

Lemma broadcast_shapes_scalar_l (sh : list nat) : broadcast_shapes [] sh = Some sh.
Proof.
  unfold broadcast_shapes. cbn [rev bcast_rev option_map].
  rewrite rev_involutive. reflexivity.
Qed.

Lemma bcast_rev_nil_r (l : list nat) : bcast_rev l [] = Some l.
Proof. destruct l; reflexivity. Qed.

Lemma broadcast_shapes_scalar_r (sh : list nat) : broadcast_shapes sh [] = Some sh.
Proof.
  unfold broadcast_shapes. cbn [rev]. rewrite bcast_rev_nil_r. cbn [option_map].
  rewrite rev_involutive. reflexivity.
Qed.

Lemma list_nat_eqb_refl (l : list nat) : list_nat_eqb l l = true.
Proof. unfold list_nat_eqb. destruct (list_eq_dec Nat.eq_dec l l); congruence. Qed.

Lemma broadcastable_to_refl (sh : list nat) : broadcastable_to sh sh = true.
Proof.
  unfold broadcastable_to. rewrite broadcast_shapes_refl. apply list_nat_eqb_refl.
Qed.

Lemma broadcastable_to_scalar (sh : list nat) : broadcastable_to [] sh = true.
Proof.
  unfold broadcastable_to. rewrite broadcast_shapes_scalar_l. apply list_nat_eqb_refl.
Qed.

Lemma np_binop_same_shape (f : Qc -> Qc -> Qc) (a b : ndarray) :
  shape a = shape b ->
  exists r, np_binop f a b = Ok r /\ shape r = shape a /\
            forall idx, in_bounds (shape a) idx ->
                        get r idx = f (get a idx) (get b idx).
Proof.
  intros Hs. unfold np_binop. rewrite <- Hs, broadcast_shapes_refl.
  eexists; split; [reflexivity|]. split; [reflexivity|].
  intros idx Hidx; cbn [get]. rewrite bcast_index_in_bounds by exact Hidx.
  reflexivity.
Qed.

Lemma np_binop_scalar_l (f : Qc -> Qc -> Qc) (q : Qc) (a : ndarray) :
  exists r, np_binop f (np_scalar q) a = Ok r /\ shape r = shape a /\
            forall idx, in_bounds (shape a) idx -> get r idx = f q (get a idx).
Proof.
  unfold np_binop. cbn [shape np_scalar]. rewrite broadcast_shapes_scalar_l.
  eexists; split; [reflexivity|]. split; [reflexivity|].
  intros idx Hidx; cbn [get]. rewrite (bcast_index_in_bounds Hidx).
  reflexivity.
Qed.

Lemma np_iop_shape (f : Qc -> Qc -> Qc) (a rhs a' : ndarray) (ixs : list pyindex) :
  np_iop f a ixs rhs = Ok a' -> shape a' = shape a.
Proof.
  unfold np_iop, rbind.
  destruct (resolve (shape a) ixs) as [r|e]; [|discriminate].
  destruct (broadcastable_to _ _); [|discriminate].
  intros H; inversion H; reflexivity.
Qed.

Lemma np_iop_whole (f : Qc -> Qc -> Qc) (a rhs : ndarray) :
  shape rhs = shape a ->
  exists r, np_iop f a [] rhs = Ok r /\ shape r = shape a /\
            forall idx, in_bounds (shape a) idx ->
                        get r idx = f (get a idx) (get rhs idx).
Proof.
  intros Hs. unfold np_iop. cbn [resolve rbind fst snd view_shape].
  rewrite Hs, broadcastable_to_refl.
  eexists; split; [reflexivity|]. split; [reflexivity|].
  intros idx Hidx; cbn [get view_inv]. rewrite bcast_index_in_bounds by exact Hidx.
  reflexivity.
Qed.

Lemma np_zeros_z_shape (dims : list Z) (Z0 : ndarray) :
  np_zeros_z dims = Ok Z0 -> shape Z0 = map Z.to_nat dims.
Proof.
  unfold np_zeros_z; destruct (forallb _ dims); [|discriminate].
  intros H; inversion H; reflexivity.
Qed.

Lemma py_float_111 (a : ndarray) :
  shape a = [1; 1; 1] -> py_float a = Ok (get a [0; 0; 0]).
Proof. intros Hs. unfold py_float. rewrite Hs. reflexivity. Qed.

(** ** Indexing *)

Lemma resolve1_Ix_inv (n k : nat) (s : sel) :
  resolve1 n (Ix k) = Ok s -> s = At k /\ k < n.
Proof.
  unfold resolve1, Ix.
  destruct ((0 <=? Z.of_nat k)%Z && (Z.of_nat k <? Z.of_nat n)%Z) eqn:E.
  - intros H; inversion H. rewrite Nat2Z.id.
    apply andb_prop in E. destruct E as [_ E]. apply Z.ltb_lt in E. split; [reflexivity | lia].
  - replace (Z.of_nat k <? 0)%Z with false by (symmetry; apply Z.ltb_ge; lia).
    rewrite andb_false_r. discriminate.
Qed.

Lemma resolve1_Ix (n k : nat) : k < n -> resolve1 n (Ix k) = Ok (At k).
Proof.
  intros H. unfold resolve1, Ix.
  replace (0 <=? Z.of_nat k)%Z with true by (symmetry; apply Z.leb_le; lia).
  replace (Z.of_nat k <? Z.of_nat n)%Z with true by (symmetry; apply Z.ltb_lt; lia).
  cbn [andb]. rewrite Nat2Z.id. reflexivity.
Qed.

Lemma resolve1_All (n : nat) : resolve1 n All = Ok (Span 0 n).
Proof. unfold resolve1, All. rewrite Nat.sub_0_r. reflexivity. Qed.

Lemma clamp_bound_inside (n : nat) (k : Z) :
  (0 <= k <= Z.of_nat n)%Z -> clamp_bound n k = Z.to_nat k.
Proof.
  intros H. unfold clamp_bound.
  replace (k <? 0)%Z with false by (symmetry; apply Z.ltb_ge; lia).
  rewrite Z.min_l by lia. reflexivity.
Qed.

Lemma resolve1_Sl (n : nat) (lo len : nat) :
  lo + len <= n ->
  resolve1 n (Sl (Z.of_nat lo) (Z.of_nat lo + Z.of_nat len)) = Ok (Span lo len).
Proof.
  intros H. unfold resolve1, Sl.
  rewrite !clamp_bound_inside by lia.
  rewrite Nat2Z.id. f_equal. f_equal. lia.
Qed.

(** Writing one cell. *)
Lemma np_setitem_cell_inv (Z Z1 : ndarray) (i h w c : nat) (v : Qc) :
  np_setitem Z [Ix i; Ix h; Ix w; Ix c] (np_scalar v) = Ok Z1 ->
  shape Z1 = shape Z /\
  get Z1 [i; h; w; c] = v /\
  forall idx, length idx = 4 -> idx <> [i; h; w; c] -> get Z1 idx = get Z idx.
Proof.
  intros H. split; [exact (np_iop_shape _ _ _ _ H)|].
  unfold np_setitem, np_iop in H.
  destruct (shape Z) as [|d0 [|d1 [|d2 [|d3 rest]]]];
    cbn [resolve rbind] in H; try discriminate;
    try (destruct (resolve1 d0 (Ix i)); cbn [rbind] in H; try discriminate;
         try (destruct (resolve1 d1 (Ix h)); cbn [rbind] in H; try discriminate;
              try (destruct (resolve1 d2 (Ix w)); cbn [rbind] in H; discriminate));
         fail).
  destruct (resolve1 d0 (Ix i)) as [s0|] eqn:E0; cbn [rbind] in H; [|discriminate].
  destruct (resolve1 d1 (Ix h)) as [s1|] eqn:E1; cbn [rbind] in H; [|discriminate].
  destruct (resolve1 d2 (Ix w)) as [s2|] eqn:E2; cbn [rbind] in H; [|discriminate].
  destruct (resolve1 d3 (Ix c)) as [s3|] eqn:E3; cbn [rbind] in H; [|discriminate].
  apply resolve1_Ix_inv in E0, E1, E2, E3.
  destruct E0 as [-> _], E1 as [-> _], E2 as [-> _], E3 as [-> _].
  cbn [fst snd view_shape] in H.
  destruct (broadcastable_to _ _); [|discriminate].
  inversion H; subst Z1; clear H. cbn [get view_inv].
  split.
  - rewrite !Nat.eqb_refl. reflexivity.
  - intros idx Hlen Hne.
    destruct idx as [|a [|b [|e [|f [|? ?]]]]]; try discriminate.
    destruct (Nat.eqb_spec a i); [|reflexivity].
    destruct (Nat.eqb_spec b h); [|reflexivity].
    destruct (Nat.eqb_spec e w); [|reflexivity].
    destruct (Nat.eqb_spec f c); [|reflexivity].
    subst; contradiction.
Qed.

Lemma np_setitem_cell_ok (Z : ndarray) (s nH nW F i h w c : nat) (v : Qc) :
  shape Z = [s; nH; nW; F] -> i < s -> h < nH -> w < nW -> c < F ->
  exists Z1, np_setitem Z [Ix i; Ix h; Ix w; Ix c] (np_scalar v) = Ok Z1.
Proof.
  intros Hs Hi Hh Hw Hc. unfold np_setitem, np_iop. rewrite Hs.
  cbn [resolve]. rewrite !resolve1_Ix by assumption.
  cbn [rbind fst snd view_shape np_scalar shape].
  rewrite broadcastable_to_refl. eexists; reflexivity.
Qed.

Lemma np_getitem_sample (Xp : ndarray) (s Hp Wp C i : nat) :
  shape Xp = [s; Hp; Wp; C] -> i < s ->
  np_getitem Xp [Ix i] = Ok (mk_nd [Hp; Wp; C] (fun j => get Xp (i :: j))).
Proof.
  intros Hs Hi. unfold np_getitem. rewrite Hs. cbn [resolve].
  rewrite resolve1_Ix by exact Hi. reflexivity.
Qed.

Lemma np_getitem_window (x : ndarray) (Hp Wp C lo1 len1 lo2 len2 : nat) :
  shape x = [Hp; Wp; C] -> lo1 + len1 <= Hp -> lo2 + len2 <= Wp ->
  exists r,
    np_getitem x [Sl (Z.of_nat lo1) (Z.of_nat lo1 + Z.of_nat len1);
                  Sl (Z.of_nat lo2) (Z.of_nat lo2 + Z.of_nat len2); All] = Ok r /\
    shape r = [len1; len2; C] /\
    forall p q t, get r [p; q; t] = get x [lo1 + p; lo2 + q; t].
Proof.
  intros Hs H1 H2. unfold np_getitem. rewrite Hs. cbn [resolve].
  rewrite !resolve1_Sl by assumption. rewrite resolve1_All.
  cbn [rbind fst snd view_shape].
  eexists; split; [reflexivity|]. split; [reflexivity|].
  intros p q t; reflexivity.
Qed.

Lemma np_getitem_filter (W : ndarray) (kh kw C F c : nat) :
  shape W = [kh; kw; C; F] -> c < F ->
  exists r,
    np_getitem W [All; All; All; Ix c] = Ok r /\
    shape r = [kh; kw; C] /\
    forall p q t, get r [p; q; t] = get W [p; q; t; c].
Proof.
  intros Hs Hc. unfold np_getitem. rewrite Hs. cbn [resolve].
  rewrite !resolve1_All. rewrite resolve1_Ix by exact Hc.
  cbn [rbind fst snd view_shape].
  eexists; split; [reflexivity|]. split; [reflexivity|].
  intros p q t; reflexivity.
Qed.

(** Cropping by [pad : -pad] with [pad = 0] selects nothing. *)
Lemma crop_without_padding_is_empty (a : ndarray) (Hp Wp C : nat) :
  shape a = [Hp; Wp; C] ->
  exists r, np_getitem a [Sl 0 (- 0); Sl 0 (- 0); All] = Ok r /\
            shape r = [0; 0; C].
Proof.
  intros Hs. unfold np_getitem. rewrite Hs.
  cbn [resolve resolve1 Sl All Z.opp clamp_bound Z.ltb Z.compare Z.min Z.to_nat
       rbind fst snd view_shape Nat.sub].
  rewrite !Z.min_l by lia. cbn [Z.to_nat Nat.sub].
  rewrite Nat.sub_0_r.
  eexists; split; [reflexivity|]. reflexivity.
Qed.

Lemma crop_with_padding (a : ndarray) (H Wd C ph pw : nat) :
  0 < ph -> 0 < pw ->
  shape a = [H + 2 * ph; Wd + 2 * pw; C] ->
  exists r, np_getitem a [Sl (Z.of_nat ph) (- Z.of_nat ph);
                          Sl (Z.of_nat pw) (- Z.of_nat pw); All] = Ok r /\
            shape r = [H; Wd; C] /\
            forall y x t, get r [y; x; t] = get a [ph + y; pw + x; t].
Proof.
  intros Hph Hpw Hs. unfold np_getitem. rewrite Hs.
  cbn [resolve resolve1 Sl All rbind fst snd view_shape].
  unfold clamp_bound.
  replace (Z.of_nat ph <? 0)%Z with false by (symmetry; apply Z.ltb_ge; lia).
  replace (Z.of_nat pw <? 0)%Z with false by (symmetry; apply Z.ltb_ge; lia).
  replace (- Z.of_nat ph <? 0)%Z with true by (symmetry; apply Z.ltb_lt; lia).
  replace (- Z.of_nat pw <? 0)%Z with true by (symmetry; apply Z.ltb_lt; lia).
  cbn [rbind fst snd view_shape].
  eexists; split; [reflexivity|]. cbn [shape get view_fwd hd tl].
  split.
  - repeat (f_equal; try lia).
  - intros y x t. repeat (f_equal; try lia).
Qed.

(** ** [Flatten] (C10) *)

Lemma np_reshape_infer_ok (X : ndarray) (batch : nat) (rest : list nat) :
  shape X = batch :: rest -> 0 < batch ->
  np_reshape_infer X batch
  = Ok (mk_nd [batch; prod_dims rest]
          (fun j => get X (unravel (shape X) (ravel [batch; prod_dims rest] j)))).
Proof.
  intros HX Hb.
  unfold np_reshape_infer, np_reshape.
  cbv zeta. rewrite !HX.
  change (prod_dims (batch :: rest)) with (batch * prod_dims rest).
  rewrite (Nat.mul_comm batch), Nat.Div0.mod_mul, Nat.div_mul by lia.
  change (prod_dims [batch; prod_dims rest]) with (batch * (prod_dims rest * 1)).
  replace (batch =? 0) with false by (symmetry; apply Nat.eqb_neq; lia).
  replace (prod_dims rest * batch =? batch * (prod_dims rest * 1)) with true
    by (symmetry; apply Nat.eqb_eq; lia).
  reflexivity.
Qed.

Lemma flatten_forward_inv (X Y : ndarray) (self self' : Flatten.obj)
  (batch : nat) (rest : list nat) :
  shape X = batch :: rest ->
  Flatten.forward X self = (Ok Y, self') ->
  0 < batch /\
  self' = Flatten.set_input X self /\
  Y = mk_nd [batch; prod_dims rest]
        (fun j => get X (unravel (shape X) (ravel [batch; prod_dims rest] j))).
Proof.
  intros HX.
  unfold Flatten.forward, bind, modify, lift, shape_at.
  rewrite HX; cbn [nth_error].
  destruct batch as [|k].
  - unfold np_reshape_infer; cbn [Nat.eqb orb]. discriminate.
  - rewrite (np_reshape_infer_ok X HX) by lia.
    intros H; injection H as HY Hs. split; [lia|].
    split; [symmetry; exact Hs | rewrite <- HY, ?HX; reflexivity].
Qed.

Lemma flatten_forward_returns (X : ndarray) (self : Flatten.obj)
  (batch : nat) (rest : list nat) :
  shape X = batch :: rest -> 0 < batch ->
  exists Y, Flatten.forward X self = (Ok Y, Flatten.set_input X self).
Proof.
  intros HX Hb.
  unfold Flatten.forward, bind, modify, lift, shape_at.
  rewrite HX; cbn [nth_error].
  rewrite (np_reshape_infer_ok X HX) by lia.
  eexists; reflexivity.
Qed.

(** On an empty batch numpy cannot infer the [-1] and [forward] raises. *)
Lemma flatten_forward_empty_batch (X : ndarray) (self : Flatten.obj)
  (rest : list nat) :
  shape X = 0 :: rest ->
  fst (Flatten.forward X self) = Raise ValueError.
Proof.
  intros HX.
  unfold Flatten.forward, bind, modify, lift, shape_at, np_reshape_infer.
  rewrite HX; reflexivity.
Qed.

(** C10 as stated fails: on an empty batch, here an input of shape
    [(0, 3)], [X.reshape(0, -1)] cannot infer the second dimension and
    [Flatten.forward] raises [ValueError], the input being cached already. *)
Lemma flatten_forward_refuses_empty_batch :
  Flatten.forward (np_zeros [0; 3]) (Flatten.mk None None)
  = (Raise ValueError, Flatten.set_input (np_zeros [0; 3]) (Flatten.mk None None)).
Proof. reflexivity. Qed.

(** C10 (amended). On an input with a first axis, [Flatten.forward] returns whenever
    the batch is not empty, and what it returns has the shape
    [(batch, product of the remaining dimensions)] and the cells of [X] in
    the same row-major order; [Flatten.backward] on that output then returns
    an array of the shape of [X], with the cells of [X]. *)
Theorem flatten_forward_backward (X : ndarray) (self : Flatten.obj)
  (batch : nat) (rest : list nat) (learning_rate : Qc) :
  shape X = batch :: rest ->
  (0 < batch -> exists Y self', Flatten.forward X self = (Ok Y, self')) /\
  (forall Y self',
      Flatten.forward X self = (Ok Y, self') ->
      shape Y = [batch; prod_dims rest] /\
      (forall n, n < prod_dims (shape X) ->
                 get Y (unravel (shape Y) n) = get X (unravel (shape X) n)) /\
      exists X',
        Flatten.backward Y learning_rate self' = (Ok X', self') /\
        shape X' = shape X /\
        forall idx, in_bounds (shape X) idx -> get X' idx = get X idx).
Proof.
  intros HX. split.
  - intros Hb. destruct (@flatten_forward_returns X self batch rest HX Hb) as [Y HY].
    exists Y, (Flatten.set_input X self). exact HY.
  - intros Y self' Hf.
    destruct (@flatten_forward_inv X Y self self' batch rest HX Hf) as (Hb & Hs & HY).
    assert (Hprod : prod_dims [batch; prod_dims rest] = prod_dims (shape X)).
    { rewrite HX; simpl. fold (prod_dims rest). lia. }
    split; [rewrite HY; reflexivity|].
    split.
    + intros n Hn. rewrite HY; cbn [get shape].
      rewrite ravel_unravel by (rewrite Hprod; exact Hn). reflexivity.
    + unfold Flatten.backward, bind, getattr, lift, np_reshape.
      rewrite Hs; cbn [Flatten.input Flatten.set_input].
      replace (shape Y) with [batch; prod_dims rest] by (rewrite HY; reflexivity).
      rewrite Hprod, Nat.eqb_refl.
      eexists; split; [reflexivity|].
      split; [reflexivity|].
      intros idx Hidx. cbn [get].
      rewrite HY; cbn [get].
      rewrite ravel_unravel by (rewrite Hprod; apply ravel_lt; exact Hidx).
      rewrite unravel_ravel by exact Hidx. reflexivity.
Qed.

Lemma flatten_forward_backward_witness :
  exists Y self',
    Flatten.forward batch_2x2x3 (Flatten.mk None None) = (Ok Y, self') /\
    shape Y = [2; 6] /\
    exists X', Flatten.backward Y 1%Qc self' = (Ok X', self') /\
               shape X' = [2; 2; 3].
Proof.
  destruct (@flatten_forward_backward batch_2x2x3 (Flatten.mk None None)
              2 [2; 3] 1%Qc eq_refl) as [Hret Hspec].
  destruct (Hret ltac:(lia)) as (Y & self' & Hf).
  destruct (Hspec Y self' Hf) as (Hsh & _ & X' & Hb & HshX & _).
  exists Y, self'. split; [exact Hf|]. split; [exact Hsh|].
  exists X'. split; [exact Hb | exact HshX].
Defined.

(** ** [FC] (C8, C9) *)

Lemma np_dot_2d (a b : ndarray) (m k n : nat) :
  shape a = [m; k] -> shape b = [k; n] ->
  exists r, np_dot a b = Ok r /\ shape r = [m; n] /\
            forall i j, get r [i; j]
                        = qsum k (fun t => (get a [i; t] * get b [t; j])%Qc).
Proof.
  intros Ha Hb. unfold np_dot. rewrite Ha, Hb.
  cbn [length Nat.sub last nth removelast firstn skipn app].
  rewrite Nat.eqb_refl.
  eexists; split; [reflexivity|]. split; [reflexivity|].
  intros i j; reflexivity.
Qed.

Lemma bias_gradient_row (dY : ndarray) (m n : nat) :
  shape dY = [m; n] ->
  exists s r,
    np_sum_axis0_keepdims dY = Ok s /\
    np_reshape (np_squeeze s) [1; n] = Ok r /\
    shape r = [1; n] /\
    forall k, k < n -> get r [0; k] = qsum m (fun t => get dY [t; k]).
Proof.
  intros Hs. unfold np_sum_axis0_keepdims. rewrite Hs.
  exists (mk_nd [1; n] (fun idx => qsum m (fun t => get dY (t :: tl idx)))).
  cut (exists r,
          np_reshape
            (np_squeeze (mk_nd [1; n] (fun idx => qsum m (fun t => get dY (t :: tl idx)))))
            [1; n] = Ok r /\
          shape r = [1; n] /\
          forall k, k < n -> get r [0; k] = qsum m (fun t => get dY [t; k])).
  { intros (r & Hr & Hrs & Hrg). exists r. auto. }
  unfold np_reshape, np_squeeze. cbn [shape filter].
  destruct (Nat.eqb_spec n 1) as [Hn|Hn].
  - subst n. cbn [Nat.eqb negb prod_dims fold_right Nat.mul].
    eexists. split; [reflexivity|]. split; [reflexivity|].
    intros k Hk. assert (k = 0) by lia; subst k. reflexivity.
  - cbn [Nat.eqb negb prod_dims fold_right].
    replace (n * 1 =? 1 * (n * 1)) with true by (symmetry; apply Nat.eqb_eq; lia).
    eexists. split; [reflexivity|]. split; [reflexivity|].
    intros k Hk. cbn [get ravel unravel hd tl prod_dims fold_right unsqueeze shape].
    replace (0 * (n * 1) + (k * 1 + 0)) with k by lia.
    rewrite Nat.div_1_r.
    destruct (Nat.eqb_spec n 1); [contradiction|]. reflexivity.
Qed.

Lemma fc_backward_spec (self : FC.obj) (X dY : ndarray) (lr : Qc) (m n_in n_out : nat) :
  FC.input self = Some X ->
  shape X = [m; n_in] ->
  shape (FC.weights self) = [n_in; n_out] ->
  shape (FC.bias self) = [1; n_out] ->
  shape dY = [m; n_out] ->
  exists grad self',
    FC.backward dY lr self = (Ok grad, self') /\
    shape grad = [m; n_in] /\
    (forall i j, get grad [i; j]
                 = qsum n_out (fun k => (get dY [i; k]%nat
                                         * get (FC.weights self) [j; k]%nat)%Qc)) /\
    FC.input self' = Some X /\
    shape (FC.weights self') = [n_in; n_out] /\
    (forall j k, j < n_in -> k < n_out ->
       get (FC.weights self') [j; k]
       = (get (FC.weights self) [j; k]%nat
          - lr * (qsum m (fun i => get X [i; j]%nat * get dY [i; k]%nat)
                  / qc_of_nat m))%Qc) /\
    shape (FC.bias self') = [1; n_out] /\
    (forall k, k < n_out ->
       get (FC.bias self') [0; k]
       = (get (FC.bias self) [0; k]%nat
          - lr * (qsum m (fun i => get dY [i; k]%nat)
                  / qc_of_nat m))%Qc).
Proof.
  intros Hin HX HW Hb HdY.
  destruct (@np_dot_2d dY (np_T (FC.weights self)) m n_out n_in HdY)
    as (grad & Hgrad & Hgs & Hgg).
  { unfold np_T; cbn [shape]. rewrite HW. reflexivity. }
  destruct (@np_dot_2d (np_T X) dY n_in m n_out) as (xtdy & Hx & Hxs & Hxg); auto.
  { unfold np_T; cbn [shape]. rewrite HX. reflexivity. }
  destruct (@bias_gradient_row dY m n_out HdY) as (s & r & Hsum & Hr & Hrs & Hrg).
  destruct (np_binop_scalar_l Qcmult lr (np_true_divide xtdy m))
    as (ldw & Hldw & Hldws & Hldwg).
  destruct (@np_iop_whole Qcminus (FC.weights self) ldw) as (w' & Hw' & Hw's & Hw'g).
  { rewrite Hldws. cbn [np_true_divide shape]. congruence. }
  destruct (np_binop_scalar_l Qcmult lr (np_true_divide r m))
    as (ldb & Hldb & Hldbs & Hldbg).
  destruct (@np_iop_whole Qcminus (FC.bias self) ldb) as (b' & Hb' & Hb's & Hb'g).
  { rewrite Hldbs. cbn [np_true_divide shape]. congruence. }
  exists grad, (FC.set_bias b' (FC.set_weights w' self)).
  split.
  { unfold FC.backward, bind, lift, gets, modify, getattr, ret, py_len, shape_at.
    rewrite HdY. cbn [nth_error].
    rewrite Hgrad, Hin, Hx, Hsum, Hr.
    unfold np_multiply, np_isub in *.
    rewrite Hldw, Hw'.
    cbn [FC.bias FC.set_weights].
    rewrite Hldb, Hb'. reflexivity. }
  split; [exact Hgs|].
  split; [intros i j; rewrite Hgg; reflexivity|].
  split; [exact Hin|].
  split; [cbn [FC.set_bias FC.set_weights FC.weights]; congruence|].
  split.
  { intros j k Hj Hk. cbn [FC.set_bias FC.set_weights FC.weights].
    assert (Hjk : in_bounds [n_in; n_out] [j; k])
      by (constructor; [assumption | constructor; [assumption | constructor]]).
    rewrite Hw'g by (rewrite HW; exact Hjk).
    rewrite Hldwg by (cbn [np_true_divide shape]; rewrite Hxs; exact Hjk).
    cbn [np_true_divide get]. rewrite Hxg. reflexivity. }
  split; [cbn [FC.set_bias FC.bias]; congruence|].
  intros k Hk. cbn [FC.set_bias FC.bias].
  assert (H0k : in_bounds [1; n_out] [0; k])
    by (constructor; [lia | constructor; [assumption | constructor]]).
  rewrite Hb'g by (rewrite Hb; exact H0k).
  rewrite Hldbg by (cbn [np_true_divide shape]; rewrite Hrs; exact H0k).
  cbn [np_true_divide get]. rewrite Hrg by exact Hk. reflexivity.
Qed.

Lemma fc_backward_shape (self : FC.obj) (X dY : ndarray) (lr : Qc)
  (m n_in n_out : nat) :
  FC.input self = Some X ->
  shape X = [m; n_in] ->
  shape (FC.weights self) = [n_in; n_out] ->
  shape (FC.bias self) = [1; n_out] ->
  shape dY = [m; n_out] ->
  exists grad self', FC.backward dY lr self = (Ok grad, self') /\
                     shape grad = shape X.
Proof.
  intros Hin HX HW Hb HdY.
  destruct (@fc_backward_spec self X dY lr m n_in n_out Hin HX HW Hb HdY)
    as (grad & self' & H & Hs & _).
  exists grad, self'. split; [exact H | congruence].
Qed.

(** C8. After [forward] cached [X] of batch size [m], [FC.backward] returns
    [dY . W^T], of shape [(batch, input_size)] and computed from the weights
    as they were before the update, and replaces [W] by
    [W - lr * (X^T . dY / m)] and [b] by
    [b - lr * (sum of dY over the batch axis / m)], as a row of shape
    [(1, output_size)]; the shapes of [W] and [b] are unchanged. *)
Theorem fc_backward_gradient_and_update (self : FC.obj) (X dY : ndarray)
  (lr : Qc) (m n_in n_out : nat) :
  0 < m ->
  FC.input self = Some X ->
  shape X = [m; n_in] ->
  shape (FC.weights self) = [n_in; n_out] ->
  shape (FC.bias self) = [1; n_out] ->
  shape dY = [m; n_out] ->
  exists grad self',
    FC.backward dY lr self = (Ok grad, self') /\
    shape grad = [m; n_in] /\
    (forall i j, get grad [i; j]
                 = qsum n_out (fun k => (get dY [i; k]%nat
                                         * get (FC.weights self) [j; k]%nat)%Qc)) /\
    FC.input self' = Some X /\
    shape (FC.weights self') = [n_in; n_out] /\
    (forall j k, j < n_in -> k < n_out ->
       get (FC.weights self') [j; k]
       = (get (FC.weights self) [j; k]%nat
          - lr * (qsum m (fun i => get X [i; j]%nat * get dY [i; k]%nat)
                  / qc_of_nat m))%Qc) /\
    shape (FC.bias self') = [1; n_out] /\
    (forall k, k < n_out ->
       get (FC.bias self') [0; k]
       = (get (FC.bias self) [0; k]%nat
          - lr * (qsum m (fun i => get dY [i; k]%nat) / qc_of_nat m))%Qc).
Proof.
  intros _ Hin HX HW Hb HdY.
  exact (@fc_backward_spec self X dY lr m n_in n_out Hin HX HW Hb HdY).
Qed.

(** Two samples, weights [[1], [2]], bias [[3]], learning rate 1: the first
    weight becomes [1 - (1*1 + 0*1)/2]. *)
Lemma fc_backward_gradient_and_update_witness :
  exists grad self',
    FC.backward grad_2x1 1%Qc (FC.set_input batch_2x2 fc_2x1) = (Ok grad, self') /\
    shape grad = [2; 2] /\
    shape (FC.weights self') = [2; 1] /\
    shape (FC.bias self') = [1; 1] /\
    get (FC.weights self') [0; 0] = Q2Qc (1 # 2).
Proof.
  destruct (@fc_backward_gradient_and_update (FC.set_input batch_2x2 fc_2x1)
              batch_2x2 grad_2x1 1%Qc 2 2 1
              ltac:(lia) eq_refl eq_refl eq_refl eq_refl eq_refl)
    as (grad & self' & Hb & Hgs & _ & _ & HWs & HWg & Hbs & _).
  exists grad, self'.
  split; [exact Hb|]. split; [exact Hgs|]. split; [exact HWs|].
  split; [exact Hbs|].
  rewrite (HWg 0 0 ltac:(lia) ltac:(lia)).
  apply Qc_is_canon. vm_compute. reflexivity.
Defined.








(** ** [ActivationLayer] *)

(** The other layers return a gradient of the shape of the cached input. *)
Lemma activation_backward_shape (self : ActivationLayer.obj) (X G dY : ndarray)
  (lr : Qc) :
  ActivationLayer.input self = Some X ->
  ActivationLayer.activation_grad self X = Ok G ->
  shape G = shape X -> shape dY = shape X ->
  exists r, ActivationLayer.backward dY lr self = (Ok r, self) /\
            shape r = shape X /\
            forall idx, in_bounds (shape X) idx ->
                        get r idx = (get G idx * get dY idx)%Qc.
Proof.
  intros Hin HG HGs HdY.
  destruct (@np_binop_same_shape Qcmult G dY) as (r & Hr & Hrs & Hrg);
    [congruence|].
  exists r. split.
  - unfold ActivationLayer.backward, bind, gets, getattr, lift.
    rewrite Hin, HG. unfold np_multiply. rewrite Hr. reflexivity.
  - split; [congruence|]. intros idx Hidx. apply Hrg. rewrite HGs. exact Hidx.
Qed.

(** ** [Conv_layer.forward]: state and geometry (C7, C2) *)

Lemma ones_glorot_shapes : glorot_shapes ones_glorot.
Proof. intros kh kw C F; split; reflexivity. Qed.

Lemma forward_ok_inv (g : list nat -> ndarray * ndarray) (X Zr : ndarray)
  (self self' : Conv_layer.obj) :
  Conv_layer.forward g X self = (Ok Zr, self') ->
  exists samples prev_height prev_width prev_channels ph pw nH nW Z0 X_pad,
    let shp := [fst (Conv_layer.kernel_shape self); snd (Conv_layer.kernel_shape self);
                prev_channels; Conv_layer.filters self] in
    shape X = [samples; prev_height; prev_width; prev_channels] /\
    Conv_layer.output_geometry self prev_height prev_width = Ok (ph, pw, nH, nW) /\
    np_zeros_z [Z.of_nat samples; nH; nW; Z.of_nat (Conv_layer.filters self)] = Ok Z0 /\
    pad_inputs X (ph, pw) = Ok X_pad /\
    Conv_layer.forward_loops self (fst (g shp)) (snd (g shp)) X_pad samples nH nW Z0
      = Ok Zr /\
    self' = Conv_layer.set_A X
              (Conv_layer.set_pad_w pw
                 (Conv_layer.set_pad_h ph
                    (Conv_layer.set_b (snd (g shp))
                       (Conv_layer.set_W (fst (g shp)) self)))).
Proof.
  unfold Conv_layer.forward.
  destruct (shape X) as [|s [|H [|Wd [|C [|? ?]]]]] eqn:HX;
    try (unfold raise; discriminate).
  unfold bind, gets, modify, lift, ret; simpl.
  destruct (Conv_layer.output_geometry self H Wd) as [[[[ph pw] nH] nW]|e] eqn:Hg;
    [|discriminate].
  destruct (np_zeros_z _) as [Z0|e] eqn:HZ0; [|discriminate].
  destruct (pad_inputs X (ph, pw)) as [X_pad|e] eqn:Hp; [|discriminate].
  destruct (Conv_layer.forward_loops _ _ _ _ _ _ _ _) as [Zr'|e] eqn:Hl; [|discriminate].
  intros Heq; inversion Heq; subst.
  exists s, H, Wd, C, ph, pw, nH, nW, Z0, X_pad.
  simpl; repeat split; auto.
Qed.

Lemma forward_loops_shape (self : Conv_layer.obj) (W b X_pad Z0 Zr : ndarray)
  (samples : nat) (nH nW : Z) :
  Conv_layer.forward_loops self W b X_pad samples nH nW Z0 = Ok Zr ->
  shape Zr = shape Z0.
Proof.
  unfold Conv_layer.forward_loops.
  apply (for_loop_preserves (fun Zc => shape Zc = shape Z0)); [|reflexivity].
  intros i Zi Zi' _ Hi; unfold rbind.
  destruct (np_getitem X_pad [Ix i]) as [x|e]; [|discriminate].
  apply (for_loop_preserves (fun Zc => shape Zc = shape Z0)); [|exact Hi].
  intros h Zh Zh' _ Hh.
  apply (for_loop_preserves (fun Zc => shape Zc = shape Z0)); [|exact Hh].
  intros w Zw Zw' _ Hw.
  apply (for_loop_preserves (fun Zc => shape Zc = shape Z0)); [|exact Hw].
  intros c Zc Zc' _ Hc.
  destruct (Conv_layer.forward_cell self W b x h w c) as [v|e]; [|discriminate].
  intros Hs; apply np_iop_shape in Hs; congruence.
Qed.

Lemma pad_inputs_shape (X Xp : ndarray) (ph pw : Z) (s H Wd C : nat) :
  shape X = [s; H; Wd; C] ->
  pad_inputs X (ph, pw) = Ok Xp ->
  shape Xp = [s; H + 2 * Z.to_nat ph; Wd + 2 * Z.to_nat pw; C].
Proof.
  intros HX. unfold pad_inputs. rewrite HX. cbn [fst snd].
  destruct ((0 <=? ph)%Z && (0 <=? pw)%Z); [|discriminate].
  intros H0; inversion H0; reflexivity.
Qed.

Lemma forward_state_W_b (g : list nat -> ndarray * ndarray) (X : ndarray)
  (self : Conv_layer.obj) (s H Wd C : nat) :
  shape X = [s; H; Wd; C] ->
  let shp := [fst (Conv_layer.kernel_shape self); snd (Conv_layer.kernel_shape self);
              C; Conv_layer.filters self] in
  Conv_layer.W (snd (Conv_layer.forward g X self)) = Some (fst (g shp)) /\
  Conv_layer.b (snd (Conv_layer.forward g X self)) = Some (snd (g shp)).
Proof.
  intros HX shp.
  unfold Conv_layer.forward; rewrite HX.
  unfold bind, gets, modify, lift, ret; simpl.
  destruct (Conv_layer.output_geometry self H Wd) as [[[[ph pw] nH] nW]|e];
    [|split; reflexivity].
  destruct (np_zeros_z _) as [Z0|e]; [|split; reflexivity].
  destruct (pad_inputs X (ph, pw)) as [X_pad|e]; [|split; reflexivity].
  destruct (Conv_layer.forward_loops _ _ _ _ _ _ _ _) as [Zr'|e];
    split; reflexivity.
Qed.

Lemma forward_result_ignores_old_parameters (g : list nat -> ndarray * ndarray)
  (X : ndarray) (self : Conv_layer.obj) :
  fst (Conv_layer.forward g X self)
  = fst (Conv_layer.forward g X
           (Conv_layer.init (Conv_layer.filters self) (Conv_layer.kernel_shape self)
              (Conv_layer.padding self) (Conv_layer.stride self))).
Proof.
  unfold Conv_layer.forward.
  destruct (shape X) as [|s [|H [|Wd [|C [|? ?]]]]]; try reflexivity.
  unfold bind, gets, modify, lift, ret; simpl.
  change (Conv_layer.output_geometry
            (Conv_layer.init (Conv_layer.filters self) (Conv_layer.kernel_shape self)
               (Conv_layer.padding self) (Conv_layer.stride self)) H Wd)
    with (Conv_layer.output_geometry self H Wd).
  destruct (Conv_layer.output_geometry self H Wd) as [[[[ph pw] nH] nW]|e];
    [|reflexivity].
  destruct (np_zeros_z _) as [Z0|e]; [|reflexivity].
  destruct (pad_inputs X (ph, pw)) as [X_pad|e]; [|reflexivity].
  change (Conv_layer.forward_loops
            (Conv_layer.init (Conv_layer.filters self) (Conv_layer.kernel_shape self)
               (Conv_layer.padding self) (Conv_layer.stride self)))
    with (Conv_layer.forward_loops self).
  destruct (Conv_layer.forward_loops _ _ _ _ _ _ _ _); reflexivity.
Qed.

(** C7. Every call of [forward] on a 4-d input stores as [W] and [b] the
    pair drawn by the initializer for the shape
    [kernel_h x kernel_w x input_channels x filters] (so [W] has that shape
    and [b] the shape [1 x 1 x 1 x filters]), whether or not the call then
    returns; the values [W] and [b] held before, and everything else
    [backward] may have stored, have no influence on the outcome: the call
    answers as it does on a freshly constructed layer. *)
Theorem forward_reinitializes_W_b (g : list nat -> ndarray * ndarray)
  (X : ndarray) (self : Conv_layer.obj) (s H Wd C : nat) :
  glorot_shapes g ->
  shape X = [s; H; Wd; C] ->
  let kh := fst (Conv_layer.kernel_shape self) in
  let kw := snd (Conv_layer.kernel_shape self) in
  let F := Conv_layer.filters self in
  let self' := snd (Conv_layer.forward g X self) in
  Conv_layer.W self' = Some (fst (g [kh; kw; C; F])) /\
  Conv_layer.b self' = Some (snd (g [kh; kw; C; F])) /\
  shape (fst (g [kh; kw; C; F])) = [kh; kw; C; F] /\
  shape (snd (g [kh; kw; C; F])) = [1; 1; 1; F] /\
  fst (Conv_layer.forward g X self)
  = fst (Conv_layer.forward g X
           (Conv_layer.init F (kh, kw) (Conv_layer.padding self)
              (Conv_layer.stride self))).
Proof.
  intros Hg HX kh kw F self'.
  destruct (forward_state_W_b g X self HX) as [HW Hb].
  destruct (Hg kh kw C F) as [HsW Hsb].
  repeat split; auto.
  rewrite (forward_result_ignores_old_parameters g X self).
  unfold kh, kw, F. rewrite <- surjective_pairing. reflexivity.
Qed.

(** A layer whose [W] and [b] hold values left by earlier calls. *)
Lemma forward_reinitializes_W_b_witness :
  let used := Conv_layer.set_b (np_zeros [7])
                (Conv_layer.set_W (np_zeros [9; 9]) conv_2x2_valid) in
  Conv_layer.W (snd (Conv_layer.forward ones_glorot image_4x4 used))
  = Some (fst (ones_glorot [2; 2; 1; 1])) /\
  Conv_layer.b (snd (Conv_layer.forward ones_glorot image_4x4 used))
  = Some (snd (ones_glorot [2; 2; 1; 1])).
Proof.
  intros used.
  destruct (@forward_reinitializes_W_b ones_glorot image_4x4 used 1 4 4 1
              ones_glorot_shapes eq_refl)
    as (HW & Hb & _).
  split; [exact HW | exact Hb].
Defined.

Lemma forward_geometry_facts (g : list nat -> ndarray * ndarray)
  (X Zr : ndarray) (self self' : Conv_layer.obj) (s H Wd C : nat) :
  shape X = [s; H; Wd; C] ->
  Conv_layer.forward g X self = (Ok Zr, self') ->
  let kh := Z.of_nat (fst (Conv_layer.kernel_shape self)) in
  let kw := Z.of_nat (snd (Conv_layer.kernel_shape self)) in
  let st := Conv_layer.stride self in
  let F := Conv_layer.filters self in
  (Conv_layer.padding self = "same"%string ->
     Conv_layer.pad_h self'
     = Some (Z.quot ((Z.of_nat H - 1) * st + kh - Z.of_nat H) 2) /\
     Conv_layer.pad_w self'
     = Some (Z.quot ((Z.of_nat Wd - 1) * st + kw - Z.of_nat Wd) 2) /\
     shape Zr = [s; H; Wd; F]) /\
  (Conv_layer.padding self <> "same"%string ->
     Conv_layer.pad_h self' = Some 0%Z /\
     Conv_layer.pad_w self' = Some 0%Z /\
     shape Zr = [s; Z.to_nat (Z.quot (Z.of_nat H - kh) st + 1);
                 Z.to_nat (Z.quot (Z.of_nat Wd - kw) st + 1); F] /\
     ((0 < st)%Z -> (kh <= Z.of_nat H)%Z ->
        Z.quot (Z.of_nat H - kh) st = ((Z.of_nat H - kh) / st)%Z) /\
     ((0 < st)%Z -> (kw <= Z.of_nat Wd)%Z ->
        Z.quot (Z.of_nat Wd - kw) st = ((Z.of_nat Wd - kw) / st)%Z)).
Proof.
  intros HX Hf kh kw st F.
  destruct (forward_ok_inv _ _ _ Hf)
    as (s1 & H1 & W1 & C1 & ph & pw & nH & nW & Z0 & Xp
        & HX' & Hg & HZ0 & _ & Hl & Hs).
  rewrite HX in HX'; inversion HX'; subst s1 H1 W1 C1; clear HX'.
  apply forward_loops_shape in Hl.
  apply np_zeros_z_shape in HZ0. rewrite HZ0 in Hl; simpl in Hl.
  rewrite !Nat2Z.id in Hl.
  unfold Conv_layer.output_geometry, py_int_truediv, rbind in Hg.
  split; intros Hp.
  - apply String.eqb_eq in Hp. rewrite Hp in Hg. simpl in Hg.
    inversion Hg; subst ph pw nH nW.
    rewrite !Nat2Z.id in Hl.
    rewrite Hs; simpl. auto.
  - apply String.eqb_neq in Hp. rewrite Hp in Hg.
    destruct (Conv_layer.stride self =? 0)%Z; [discriminate|].
    inversion Hg; subst ph pw nH nW.
    rewrite Hs; simpl.
    repeat split; auto.
    + intros Hst Hk. apply Z.quot_div_nonneg; lia.
    + intros Hst Hk. apply Z.quot_div_nonneg; lia.
Qed.

(** X24. A call of [forward] that returns has padded by
    [((in_dim - 1) * stride + kernel_dim - in_dim) / 2] truncated toward
    zero on each spatial axis and kept the spatial dimensions under
    ['same']; under any other padding it has padded by zero and its output
    dimension is [(in_dim - kernel_dim) / stride] truncated toward zero,
    plus one, which is [floor((in_dim - kernel_dim) / stride) + 1] as soon
    as the kernel is not larger than the input and the stride is
    positive. *)
Theorem forward_output_dimensions (g : list nat -> ndarray * ndarray)
  (X Zr : ndarray) (self self' : Conv_layer.obj) (s H Wd C : nat) :
  shape X = [s; H; Wd; C] ->
  Conv_layer.forward g X self = (Ok Zr, self') ->
  let kh := Z.of_nat (fst (Conv_layer.kernel_shape self)) in
  let kw := Z.of_nat (snd (Conv_layer.kernel_shape self)) in
  let st := Conv_layer.stride self in
  let F := Conv_layer.filters self in
  (Conv_layer.padding self = "same"%string ->
     Conv_layer.pad_h self'
     = Some (Z.quot ((Z.of_nat H - 1) * st + kh - Z.of_nat H) 2) /\
     Conv_layer.pad_w self'
     = Some (Z.quot ((Z.of_nat Wd - 1) * st + kw - Z.of_nat Wd) 2) /\
     shape Zr = [s; H; Wd; F]) /\
  (Conv_layer.padding self <> "same"%string ->
     Conv_layer.pad_h self' = Some 0%Z /\
     Conv_layer.pad_w self' = Some 0%Z /\
     shape Zr = [s; Z.to_nat (Z.quot (Z.of_nat H - kh) st + 1);
                 Z.to_nat (Z.quot (Z.of_nat Wd - kw) st + 1); F] /\
     ((0 < st)%Z -> (kh <= Z.of_nat H)%Z ->
        Z.quot (Z.of_nat H - kh) st = ((Z.of_nat H - kh) / st)%Z) /\
     ((0 < st)%Z -> (kw <= Z.of_nat Wd)%Z ->
        Z.quot (Z.of_nat Wd - kw) st = ((Z.of_nat Wd - kw) / st)%Z)).
Proof.
  intros HX Hf. exact (@forward_geometry_facts g X Zr self self' s H Wd C HX Hf).
Qed.

(** Input 5 x 5, kernel 3 x 3, stride 1: output 3 x 3 under ['valid'] and
    5 x 5, with one row or column of padding on each side, under ['same']. *)
Lemma forward_output_dimensions_witness :
  (exists Zr self',
      Conv_layer.forward ones_glorot image_5x5 conv_3x3_valid = (Ok Zr, self') /\
      shape Zr = [1; 3; 3; 1] /\ Conv_layer.pad_h self' = Some 0%Z) /\
  (exists Zr self',
      Conv_layer.forward ones_glorot image_5x5 conv_3x3_same = (Ok Zr, self') /\
      shape Zr = [1; 5; 5; 1] /\ Conv_layer.pad_h self' = Some 1%Z).
Proof.
  split.
  - destruct (Conv_layer.forward ones_glorot image_5x5 conv_3x3_valid)
      as [[Zr|e] self'] eqn:Hf; [|vm_compute in Hf; discriminate Hf].
    exists Zr, self'. split; [reflexivity|].
    destruct (@forward_output_dimensions ones_glorot image_5x5 Zr conv_3x3_valid
                self' 1 5 5 1 eq_refl Hf) as [_ Hv].
    destruct Hv as (Hp & _ & Hsh & _); [discriminate|].
    split; [exact Hsh | exact Hp].
  - destruct (Conv_layer.forward ones_glorot image_5x5 conv_3x3_same)
      as [[Zr|e] self'] eqn:Hf; [|vm_compute in Hf; discriminate Hf].
    exists Zr, self'. split; [reflexivity|].
    destruct (@forward_output_dimensions ones_glorot image_5x5 Zr conv_3x3_same
                self' 1 5 5 1 eq_refl Hf) as [Hv _].
    destruct Hv as (Hp & _ & Hsh); [reflexivity|].
    split; [exact Hsh | exact Hp].
Defined.

(** C2 (failing input). One 2 x 2 filter of ones with zero bias, ['valid']
    padding and stride 2 on a 1 x 1 input holding 5: [forward] computes
    the output dimension [int((1 - 2) / 2) + 1 = int(-0.5) + 1 = 1], where
    [floor((1 - 2) / 2) + 1] is [0], and returns a 1 x 1 output.  Its one
    window [x[0:2, 0:2, :]] is clipped to the shape (1, 1, 1), not the
    kernel's (2, 2, 1), and broadcast over the kernel: the cell holds
    [4 * 5]. *)
Theorem valid_output_dimension_is_not_floor :
  result_shape (fst (Conv_layer.forward ones_glorot image_1x1 conv_2x2_valid_stride2))
  = Ok [1; 1; 1; 1] /\
  Z.to_nat ((1 - 2) / 2 + 1) = 0 /\
  Z.to_nat (Z.quot (1 - 2) 2 + 1) = 1 /\
  result_shape (x <- np_getitem image_1x1 [Ix 0] ;;
                np_getitem x [Sl 0 2; Sl 0 2; All])%py = Ok [1; 1; 1] /\
  result_cell (fst (Conv_layer.forward ones_glorot image_1x1 conv_2x2_valid_stride2))
    [0; 0; 0; 0] = Ok (20 # 1).
Proof.
  split; [vm_compute; reflexivity|]. split; [reflexivity|].
  split; [reflexivity|]. split; vm_compute; reflexivity.
Qed.

(** ** [Conv_layer.forward]: the cells of the output (C1) *)

Lemma conv_single_step_spec (input W b : ndarray) (kh kw C : nat) :
  shape input = [kh; kw; C] -> shape W = [kh; kw; C] -> shape b = [1; 1; 1] ->
  Conv_layer.conv_single_step input W b
  = Ok (qsum kh (fun p => qsum kw (fun q => qsum C (fun t =>
          get input [p; q; t]%nat * get W [p; q; t]%nat)))
        + get b [0; 0; 0]%nat)%Qc.
Proof.
  intros Hi HW Hb. unfold Conv_layer.conv_single_step, np_multiply.
  destruct (@np_binop_same_shape Qcmult input W) as (r & Hr & Hrs & Hrg);
    [congruence|].
  rewrite Hr. cbn [rbind]. rewrite (@py_float_111 b Hb). cbn [rbind].
  rewrite (@np_sum_3d r kh kw C) by congruence.
  f_equal. f_equal.
  apply qsum_ext; intros p Hp. apply qsum_ext; intros q Hq.
  apply qsum_ext; intros t Ht.
  apply Hrg. rewrite Hi.
  constructor; [exact Hp|]. constructor; [exact Hq|]. constructor; [exact Ht|].
  constructor.
Qed.

Lemma forward_cell_fits (self : Conv_layer.obj) (W b x : ndarray)
  (Hp Wp C h w c : nat) :
  let kh := fst (Conv_layer.kernel_shape self) in
  let kw := snd (Conv_layer.kernel_shape self) in
  let st := Z.to_nat (Conv_layer.stride self) in
  (0 <= Conv_layer.stride self)%Z ->
  shape x = [Hp; Wp; C] ->
  shape W = [kh; kw; C; Conv_layer.filters self] ->
  shape b = [1; 1; 1; Conv_layer.filters self] ->
  c < Conv_layer.filters self ->
  st * h + kh <= Hp -> st * w + kw <= Wp ->
  Conv_layer.forward_cell self W b x h w c
  = Ok (qsum kh (fun p => qsum kw (fun q => qsum C (fun t =>
          get x [st * h + p; st * w + q; t]%nat * get W [p; q; t; c]%nat)))
        + get b [0; 0; 0; c]%nat)%Qc.
Proof.
  intros kh kw st Hst Hx HW Hb Hc Hh Hw.
  unfold Conv_layer.forward_cell.
  replace (Conv_layer.stride self * Z.of_nat h)%Z with (Z.of_nat (st * h))
    by (unfold st; lia).
  replace (Conv_layer.stride self * Z.of_nat w)%Z with (Z.of_nat (st * w))
    by (unfold st; lia).
  destruct (@np_getitem_window x Hp Wp C (st * h) kh (st * w) kw Hx Hh Hw)
    as (xs & Hxs & Hxss & Hxsg).
  fold kh kw. rewrite Hxs. cbn [rbind].
  destruct (@np_getitem_filter W kh kw C (Conv_layer.filters self) c HW Hc)
    as (Wc & HWc & HWcs & HWcg).
  rewrite HWc. cbn [rbind].
  destruct (@np_getitem_filter b 1 1 1 (Conv_layer.filters self) c Hb Hc)
    as (bc & Hbc & Hbcs & Hbcg).
  rewrite Hbc. cbn [rbind].
  rewrite (@conv_single_step_spec xs Wc bc kh kw C Hxss HWcs Hbcs).
  rewrite Hbcg. f_equal. f_equal.
  apply qsum_ext; intros p _. apply qsum_ext; intros q _.
  apply qsum_ext; intros t _.
  rewrite Hxsg, HWcg. reflexivity.
Qed.

Section Fills.

Variable f : list nat -> result Qc.
Hypothesis f_rank : forall idx v, f idx = Ok v -> length idx = 4.

Lemma fills_for_loop {I : Type} (l : list I) (Q : I -> list nat -> Prop)
  (body : I -> ndarray -> result ndarray) :
  (forall x, In x l -> fills f (Q x) (body x)) ->
  fills f (fun idx => exists x, In x l /\ Q x idx) (for_loop l body).
Proof.
  induction l as [|x l IH]; intros Hb Z Z1 Hl; cbn [for_loop] in Hl.
  - inversion Hl; subst Z1. split; [reflexivity|]. split; [auto|].
    intros idx (x & [] & _).
  - destruct (body x Z) as [Za|e] eqn:Hx; [|discriminate].
    destruct (Hb x (or_introl eq_refl) Z Za Hx) as (Hs1 & Hst1 & Hq1).
    destruct (IH (fun y Hy => Hb y (or_intror Hy)) Za Z1 Hl) as (Hs2 & Hst2 & Hq2).
    split; [congruence|]. split; [auto|].
    intros idx (y & [Hy|Hy] & HQ).
    + subst y. auto.
    + apply Hq2. exists y. auto.
Qed.

Lemma fills_cell (i h w c : nat) :
  fills f (fun idx => idx = [i; h; w; c])
    (fun Zc => (v <- f [i; h; w; c] ;;
                np_setitem Zc [Ix i; Ix h; Ix w; Ix c] (np_scalar v))%py).
Proof.
  intros Z Z1 H.
  destruct (f [i; h; w; c]) as [v|e] eqn:Hv; cbn [rbind] in H; [|discriminate].
  destruct (np_setitem_cell_inv _ _ _ _ _ _ H) as (Hs & Hg & Hfr).
  split; [exact Hs|]. split.
  - intros idx Hidx.
    destruct (list_eq_dec Nat.eq_dec idx [i; h; w; c]) as [->|Hne].
    + rewrite Hg. exact Hv.
    + rewrite Hfr; [exact Hidx | exact (@f_rank idx _ Hidx) | exact Hne].
  - intros idx ->. rewrite Hg. exact Hv.
Qed.

End Fills.

Lemma cell_value_rank (self : Conv_layer.obj) (W b Xp : ndarray) (idx : list nat)
  (v : Qc) :
  cell_value self W b Xp idx = Ok v -> length idx = 4.
Proof.
  destruct idx as [|i [|h [|w [|c [|? ?]]]]]; cbn [cell_value]; try discriminate.
  reflexivity.
Qed.

Lemma fills_weaken (f : list nat -> result Qc) (Q Q' : list nat -> Prop)
  (body : ndarray -> result ndarray) :
  fills f Q body -> (forall idx, Q' idx -> Q idx) -> fills f Q' body.
Proof.
  intros H HQ Z Z1 Hb. destruct (H Z Z1 Hb) as (Hs & Hst & Hq).
  split; [exact Hs|]. split; [exact Hst|]. intros idx Hidx. apply Hq, HQ, Hidx.
Qed.

Section ForwardLoops.

Variable self : Conv_layer.obj.
Variables W b Xp : ndarray.


Lemma filters_loop_fills (x : ndarray) (i h w : nat) :
  np_getitem Xp [Ix i] = Ok x ->
  fills (cell_value self W b Xp)
    (fun idx => exists c, idx = [i; h; w; c] /\ c < Conv_layer.filters self)
    (for_loop (seq 0 (Conv_layer.filters self)) (fun c Zc =>
       (v <- Conv_layer.forward_cell self W b x h w c ;;
        np_setitem Zc [Ix i; Ix h; Ix w; Ix c] (np_scalar v))%py)).
Proof.
  intros Hx.
  eapply fills_weaken.
  - apply (@fills_for_loop (cell_value self W b Xp) nat
             (seq 0 (Conv_layer.filters self)) (fun c idx => idx = [i; h; w; c])).
    intros c _ Z Z1 H.
    apply (@fills_cell (cell_value self W b Xp) (@cell_value_rank self W b Xp) i h w c Z Z1).
    cbn [cell_value]. rewrite Hx. exact H.
  - intros idx (c & -> & Hc). exists c. split; [apply in_seq; lia | reflexivity].
Qed.

Lemma width_loop_fills (x : ndarray) (nW : Z) (i h : nat) :
  np_getitem Xp [Ix i] = Ok x ->
  fills (cell_value self W b Xp)
    (fun idx => exists w c, idx = [i; h; w; c] /\ w < Z.to_nat nW /\
                            c < Conv_layer.filters self)
    (for_loop (py_range nW) (fun w Zw =>
       for_loop (seq 0 (Conv_layer.filters self)) (fun c Zc =>
         (v <- Conv_layer.forward_cell self W b x h w c ;;
          np_setitem Zc [Ix i; Ix h; Ix w; Ix c] (np_scalar v))%py) Zw)).
Proof.
  intros Hx.
  eapply fills_weaken.
  - apply (@fills_for_loop (cell_value self W b Xp) nat (py_range nW)
             (fun w idx => exists c, idx = [i; h; w; c] /\ c < Conv_layer.filters self)).
    intros w _. exact (@filters_loop_fills x i h w Hx).
  - intros idx (w & c & -> & Hw & Hc). exists w.
    split; [apply in_seq; lia|]. exists c. auto.
Qed.

Lemma height_loop_fills (x : ndarray) (nH nW : Z) (i : nat) :
  np_getitem Xp [Ix i] = Ok x ->
  fills (cell_value self W b Xp)
    (fun idx => exists h w c, idx = [i; h; w; c] /\ h < Z.to_nat nH /\
                                    w < Z.to_nat nW /\ c < Conv_layer.filters self)
    (for_loop (py_range nH) (fun h Zh =>
       for_loop (py_range nW) (fun w Zw =>
         for_loop (seq 0 (Conv_layer.filters self)) (fun c Zc =>
           (v <- Conv_layer.forward_cell self W b x h w c ;;
            np_setitem Zc [Ix i; Ix h; Ix w; Ix c] (np_scalar v))%py) Zw) Zh)).
Proof.
  intros Hx.
  eapply fills_weaken.
  - apply (@fills_for_loop (cell_value self W b Xp) nat (py_range nH)
             (fun h idx => exists w c, idx = [i; h; w; c] /\ w < Z.to_nat nW /\
                                       c < Conv_layer.filters self)).
    intros h _. exact (@width_loop_fills x nW i h Hx).
  - intros idx (h & w & c & -> & Hh & Hw & Hc). exists h.
    split; [apply in_seq; lia|]. exists w, c. auto.
Qed.

Lemma forward_loops_fills (samples : nat) (nH nW : Z) :
  fills (cell_value self W b Xp)
    (fun idx => exists i h w c,
         idx = [i; h; w; c] /\ i < samples /\ h < Z.to_nat nH /\
         w < Z.to_nat nW /\ c < Conv_layer.filters self)
    (Conv_layer.forward_loops self W b Xp samples nH nW).
Proof.
  unfold Conv_layer.forward_loops.
  eapply fills_weaken.
  - apply (@fills_for_loop (cell_value self W b Xp) nat (seq 0 samples)
             (fun i idx => exists h w c, idx = [i; h; w; c] /\ h < Z.to_nat nH /\
                                         w < Z.to_nat nW /\ c < Conv_layer.filters self)).
    intros i _ Z Z1 H.
    destruct (np_getitem Xp [Ix i]) as [x|e] eqn:Hx; cbn [rbind] in H; [|discriminate].
    exact (@height_loop_fills x nH nW i Hx Z Z1 H).
  - intros idx (i & h & w & c & -> & Hi & Hh & Hw & Hc). exists i.
    split; [apply in_seq; lia|]. exists h, w, c. auto.
Qed.

End ForwardLoops.

Lemma forward_loops_returns (self : Conv_layer.obj) (W b Xp Z0 : ndarray)
  (s Hp Wp C : nat) (nH nW : Z) :
  let kh := fst (Conv_layer.kernel_shape self) in
  let kw := snd (Conv_layer.kernel_shape self) in
  let st := Z.to_nat (Conv_layer.stride self) in
  let F := Conv_layer.filters self in
  (0 <= Conv_layer.stride self)%Z ->
  shape Xp = [s; Hp; Wp; C] ->
  shape W = [kh; kw; C; F] ->
  shape b = [1; 1; 1; F] ->
  (forall h, h < Z.to_nat nH -> st * h + kh <= Hp) ->
  (forall w, w < Z.to_nat nW -> st * w + kw <= Wp) ->
  shape Z0 = [s; Z.to_nat nH; Z.to_nat nW; F] ->
  exists Zr, Conv_layer.forward_loops self W b Xp s nH nW Z0 = Ok Zr.
Proof.
  intros kh kw st F Hst HXp HW Hb Hfh Hfw HZ0.
  set (P := fun Zc : ndarray => shape Zc = [s; Z.to_nat nH; Z.to_nat nW; F]).
  cut (exists Zr, Conv_layer.forward_loops self W b Xp s nH nW Z0 = Ok Zr /\ P Zr).
  { intros (Zr & H & _); exists Zr; exact H. }
  unfold Conv_layer.forward_loops.
  apply for_loop_returns; [|exact HZ0].
  intros i Zi Hi HPi. apply in_seq in Hi.
  rewrite (@np_getitem_sample Xp s Hp Wp C i HXp) by lia. cbn [rbind].
  apply for_loop_returns; [|exact HPi].
  intros h Zh Hh HPh. apply in_seq in Hh.
  apply for_loop_returns; [|exact HPh].
  intros w Zw Hw HPw. apply in_seq in Hw.
  apply for_loop_returns; [|exact HPw].
  intros c Zc Hc HPc. apply in_seq in Hc.
  rewrite (@forward_cell_fits self W b
             (mk_nd [Hp; Wp; C] (fun j => get Xp (i :: j))) Hp Wp C h w c
             Hst eq_refl HW Hb)
    by (try apply Hfh; try apply Hfw; lia).
  cbn [rbind].
  destruct (@np_setitem_cell_ok Zc s (Z.to_nat nH) (Z.to_nat nW) F i h w c
              (qsum kh (fun p => qsum kw (fun q => qsum C (fun t =>
                  get (mk_nd [Hp; Wp; C] (fun j => get Xp (i :: j)))
                      [st * h + p; st * w + q; t]%nat
                  * get W [p; q; t; c]%nat)))
               + get b [0; 0; 0; c]%nat)%Qc HPc)
    as (Z1 & HZ1); try lia.
  exists Z1. split; [exact HZ1|].
  unfold P. rewrite (np_iop_shape _ _ _ _ HZ1). exact HPc.
Qed.

Lemma forward_cells_spec (g : list nat -> ndarray * ndarray) (X Xp : ndarray)
  (self : Conv_layer.obj) (s H Wd C : nat) (ph pw nH nW : Z) :
  let kh := fst (Conv_layer.kernel_shape self) in
  let kw := snd (Conv_layer.kernel_shape self) in
  let st := Z.to_nat (Conv_layer.stride self) in
  let F := Conv_layer.filters self in
  let W := fst (g [kh; kw; C; F]) in
  let b := snd (g [kh; kw; C; F]) in
  shape X = [s; H; Wd; C] ->
  Conv_layer.output_geometry self H Wd = Ok (ph, pw, nH, nW) ->
  pad_inputs X (ph, pw) = Ok Xp ->
  (forall Zr self',
      Conv_layer.forward g X self = (Ok Zr, self') ->
      shape Zr = [s; Z.to_nat nH; Z.to_nat nW; F] /\
      forall i h w c,
        i < s -> h < Z.to_nat nH -> w < Z.to_nat nW -> c < F ->
        cell_value self W b Xp [i; h; w; c] = Ok (get Zr [i; h; w; c])) /\
  (glorot_shapes g ->
   (0 <= Conv_layer.stride self)%Z -> (0 <= nH)%Z -> (0 <= nW)%Z ->
   (forall h, h < Z.to_nat nH -> st * h + kh <= H + 2 * Z.to_nat ph) ->
   (forall w, w < Z.to_nat nW -> st * w + kw <= Wd + 2 * Z.to_nat pw) ->
   exists Zr self',
     Conv_layer.forward g X self = (Ok Zr, self') /\
     shape Zr = [s; Z.to_nat nH; Z.to_nat nW; F] /\
     forall i h w c,
       i < s -> h < Z.to_nat nH -> w < Z.to_nat nW -> c < F ->
       get Zr [i; h; w; c]
       = (qsum kh (fun p => qsum kw (fun q => qsum C (fun t =>
            get Xp [i; st * h + p; st * w + q; t]%nat * get W [p; q; t; c]%nat)))
          + get b [0; 0; 0; c]%nat)%Qc).
Proof.
  intros kh kw st F W b HX Hg Hp.
  assert (HA : forall Zr self',
      Conv_layer.forward g X self = (Ok Zr, self') ->
      shape Zr = [s; Z.to_nat nH; Z.to_nat nW; F] /\
      forall i h w c,
        i < s -> h < Z.to_nat nH -> w < Z.to_nat nW -> c < F ->
        cell_value self W b Xp [i; h; w; c] = Ok (get Zr [i; h; w; c])).
  { intros Zr self' Hf.
    destruct (forward_ok_inv _ _ _ Hf)
      as (s1 & H1 & W1 & C1 & ph1 & pw1 & nH1 & nW1 & Z0 & Xp1
          & HX' & Hg' & HZ0 & Hp' & Hl & _).
    rewrite HX in HX'; inversion HX'; subst s1 H1 W1 C1; clear HX'.
    rewrite Hg in Hg'; inversion Hg'; subst ph1 pw1 nH1 nW1; clear Hg'.
    rewrite Hp in Hp'; inversion Hp'; subst Xp1; clear Hp'.
    destruct (@forward_loops_fills self W b Xp s nH nW Z0 Zr Hl) as (Hs & _ & Hq).
    split.
    - rewrite Hs, (np_zeros_z_shape _ HZ0). cbn [map]. rewrite !Nat2Z.id. reflexivity.
    - intros i h w c Hi Hh Hw Hc. apply Hq. exists i, h, w, c. auto. }
  split; [exact HA|].
  intros Hgs Hst HnH HnW Hfh Hfw.
  destruct (Hgs kh kw C F) as [HWs Hbs]. fold W in HWs. fold b in HWs, Hbs.
  pose proof (@pad_inputs_shape X Xp ph pw s H Wd C HX Hp) as HXps.
  destruct (@forward_loops_returns self W b Xp
              (np_zeros [s; Z.to_nat nH; Z.to_nat nW; F])
              s (H + 2 * Z.to_nat ph) (Wd + 2 * Z.to_nat pw) C nH nW
              Hst HXps HWs Hbs Hfh Hfw eq_refl) as (Zr & Hl).
  assert (Hf : Conv_layer.forward g X self
               = (Ok Zr, Conv_layer.set_A X
                           (Conv_layer.set_pad_w pw
                              (Conv_layer.set_pad_h ph
                                 (Conv_layer.set_b b (Conv_layer.set_W W self)))))).
  { unfold Conv_layer.forward. rewrite HX.
    unfold bind, gets, modify, lift, ret. cbn [fst snd].
    change (Conv_layer.output_geometry self H Wd) with
      (Conv_layer.output_geometry self H Wd).
    cbn [Conv_layer.set_W Conv_layer.set_b Conv_layer.kernel_shape
         Conv_layer.filters].
    rewrite Hg.
    unfold np_zeros_z. cbn [forallb].
    replace (0 <=? Z.of_nat s)%Z with true by (symmetry; apply Z.leb_le; lia).
    replace (0 <=? nH)%Z with true by (symmetry; apply Z.leb_le; lia).
    replace (0 <=? nW)%Z with true by (symmetry; apply Z.leb_le; lia).
    replace (0 <=? Z.of_nat (Conv_layer.filters self))%Z with true
      by (symmetry; apply Z.leb_le; lia).
    cbn [andb map]. rewrite !Nat2Z.id.
    rewrite Hp. fold kh kw F W b. rewrite Hl. reflexivity. }
  eexists; eexists. split; [exact Hf|].
  destruct (HA _ _ Hf) as (Hs & Hcells).
  split; [exact Hs|].
  intros i h w c Hi Hh Hw Hc.
  specialize (Hcells i h w c Hi Hh Hw Hc).
  cbn [cell_value] in Hcells.
  rewrite (@np_getitem_sample Xp s _ _ C i HXps Hi) in Hcells. cbn [rbind] in Hcells.
  rewrite (@forward_cell_fits self W b
             (mk_nd [H + 2 * Z.to_nat ph; Wd + 2 * Z.to_nat pw; C]
                (fun j => get Xp (i :: j)))
             (H + 2 * Z.to_nat ph) (Wd + 2 * Z.to_nat pw) C h w c
             Hst eq_refl HWs Hbs Hc (Hfh h Hh) (Hfw w Hw)) in Hcells.
  injection Hcells as Hv. symmetry. exact Hv.
Qed.

(** X23. For an input of shape [(samples, H, W, C)], with [n_H], [n_W] and
    the padded input as [forward] computes them:
    every output cell [(i, h, w, c)] of a call that returns holds what
    [conv_single_step] gives on the window of sample [i] at [(h, w)], filter
    [c] and bias [c]; and when the kernel-shaped window fits in the padded
    input at every output position (stride not negative), the call returns
    and the cell is the sum over the window of input times filter [c]
    (no flip), plus bias [c]. *)
Theorem forward_is_cross_correlation (g : list nat -> ndarray * ndarray)
  (X Xp : ndarray) (self : Conv_layer.obj) (s H Wd C : nat) (ph pw nH nW : Z) :
  let kh := fst (Conv_layer.kernel_shape self) in
  let kw := snd (Conv_layer.kernel_shape self) in
  let st := Z.to_nat (Conv_layer.stride self) in
  let F := Conv_layer.filters self in
  let W := fst (g [kh; kw; C; F]) in
  let b := snd (g [kh; kw; C; F]) in
  shape X = [s; H; Wd; C] ->
  Conv_layer.output_geometry self H Wd = Ok (ph, pw, nH, nW) ->
  pad_inputs X (ph, pw) = Ok Xp ->
  (forall Zr self',
      Conv_layer.forward g X self = (Ok Zr, self') ->
      shape Zr = [s; Z.to_nat nH; Z.to_nat nW; F] /\
      forall i h w c,
        i < s -> h < Z.to_nat nH -> w < Z.to_nat nW -> c < F ->
        cell_value self W b Xp [i; h; w; c] = Ok (get Zr [i; h; w; c])) /\
  (glorot_shapes g ->
   (0 <= Conv_layer.stride self)%Z -> (0 <= nH)%Z -> (0 <= nW)%Z ->
   (forall h, h < Z.to_nat nH -> st * h + kh <= H + 2 * Z.to_nat ph) ->
   (forall w, w < Z.to_nat nW -> st * w + kw <= Wd + 2 * Z.to_nat pw) ->
   exists Zr self',
     Conv_layer.forward g X self = (Ok Zr, self') /\
     shape Zr = [s; Z.to_nat nH; Z.to_nat nW; F] /\
     forall i h w c,
       i < s -> h < Z.to_nat nH -> w < Z.to_nat nW -> c < F ->
       get Zr [i; h; w; c]
       = (qsum kh (fun p => qsum kw (fun q => qsum C (fun t =>
            get Xp [i; st * h + p; st * w + q; t]%nat * get W [p; q; t; c]%nat)))
          + get b [0; 0; 0; c]%nat)%Qc).
Proof.
  intros kh kw st F W b HX Hg Hp.
  exact (@forward_cells_spec g X Xp self s H Wd C ph pw nH nW HX Hg Hp).
Qed.

(** The 4 x 4 single-channel input, one 2 x 2 filter of ones, zero bias,
    stride 1, ['valid']: every output cell is the sum of its 2 x 2 window. *)
Lemma forward_is_cross_correlation_witness :
  exists Zr self',
    Conv_layer.forward ones_glorot image_4x4 conv_2x2_valid = (Ok Zr, self') /\
    shape Zr = [1; 3; 3; 1] /\
    forall h w, h < 3 -> w < 3 ->
      get Zr [0; h; w; 0]
      = (get image_4x4 [0; h; w; 0]%nat + get image_4x4 [0; h; w + 1; 0]%nat
         + get image_4x4 [0; h + 1; w; 0]%nat
         + get image_4x4 [0; h + 1; w + 1; 0]%nat)%Qc.
Proof.
  destruct (@forward_is_cross_correlation ones_glorot image_4x4
              (mk_nd [1; 4; 4; 1]
                 (fun idx =>
                    match idx with
                    | [i; h; w; c] =>
                        if (0 <=? h) && (h <? 0 + 4) && (0 <=? w) && (w <? 0 + 4)
                        then get image_4x4 [i; h - 0; w - 0; c]
                        else 0%Qc
                    | _ => 0%Qc
                    end))
              conv_2x2_valid 1 4 4 1 0%Z 0%Z 3%Z 3%Z eq_refl eq_refl eq_refl)
    as [_ HB].
  destruct HB as (Zr & self' & Hf & Hs & Hc).
  - exact ones_glorot_shapes.
  - cbn; lia.
  - lia.
  - lia.
  - intros h Hh. cbn in *. lia.
  - intros w Hw. cbn in *. lia.
  - exists Zr, self'. split; [exact Hf|]. split; [exact Hs|].
    intros h w Hh Hw.
    rewrite (Hc 0 h w 0) by (cbn; lia).
    destruct h as [|[|[|h]]]; [| | |lia];
      (destruct w as [|[|[|w]]]; [| | |lia]);
      apply Qc_is_canon; vm_compute; reflexivity.
Defined.

(** C1 (failing input). One 2 x 2 filter of ones with zero bias, ['same']
    padding and stride 1 on the 2 x 2 image (5, 6; 7, 8).  The pad is
    [int(1 / 2) = 0] and the output is 2 x 2, so the windows at the right
    and bottom edges leave the input: the slice of line 146 is clipped (at
    position (0, 1) to the shape (2, 1, 1), not the kernel's (2, 2, 1)) and
    [np.multiply] broadcasts it over the kernel.  The cell (0, 1) holds 28,
    twice the sum 6 + 8 of the input under the window, and the cells (1, 0)
    and (1, 1) hold 30 and 32.  With a 4 x 4 filter under ['same'] on the
    4 x 4 image the clipped slice cannot be broadcast and [forward]
    raises. *)
Theorem forward_same_padding_clips_windows :
  result_shape (fst (Conv_layer.forward ones_glorot image_2x2 conv_2x2_same))
  = Ok [1; 2; 2; 1] /\
  Conv_layer.pad_h (snd (Conv_layer.forward ones_glorot image_2x2 conv_2x2_same))
  = Some 0%Z /\
  Conv_layer.pad_w (snd (Conv_layer.forward ones_glorot image_2x2 conv_2x2_same))
  = Some 0%Z /\
  result_shape (x <- np_getitem image_2x2 [Ix 0] ;;
                np_getitem x [Sl 0 2; Sl 1 3; All])%py = Ok [2; 1; 1] /\
  result_cell (fst (Conv_layer.forward ones_glorot image_2x2 conv_2x2_same))
    [0; 0; 0; 0] = Ok (26 # 1) /\
  result_cell (fst (Conv_layer.forward ones_glorot image_2x2 conv_2x2_same))
    [0; 0; 1; 0] = Ok (28 # 1) /\
  (get image_2x2 [0; 0; 1; 0]%nat + get image_2x2 [0; 1; 1; 0]%nat)%Qc = Q2Qc 14 /\
  result_cell (fst (Conv_layer.forward ones_glorot image_2x2 conv_2x2_same))
    [0; 1; 0; 0] = Ok (30 # 1) /\
  result_cell (fst (Conv_layer.forward ones_glorot image_2x2 conv_2x2_same))
    [0; 1; 1; 0] = Ok (32 # 1) /\
  fst (Conv_layer.forward ones_glorot image_4x4 conv_4x4_same) = Raise ValueError.
Proof.
  repeat (split; [vm_compute; reflexivity|]).
  vm_compute. reflexivity.
Qed.

Lemma valid_window_fits (st a k h : nat) :
  0 < st -> k <= a ->
  h < Z.to_nat (Z.quot (Z.of_nat a - Z.of_nat k) (Z.of_nat st) + 1) ->
  st * h + k <= a.
Proof.
  intros Hst Hk Hh.
  rewrite Z.quot_div_nonneg in Hh by lia.
  assert (H1 : (Z.of_nat st * ((Z.of_nat a - Z.of_nat k) / Z.of_nat st)
                <= Z.of_nat a - Z.of_nat k)%Z)
    by (apply Z.mul_div_le; lia).
  assert (H2 : (0 <= (Z.of_nat a - Z.of_nat k) / Z.of_nat st)%Z)
    by (apply Z.div_pos; lia).
  nia.
Qed.

(** Under ['valid'] padding with a positive stride and a kernel not larger
    than the input, [forward] returns and every cell is the sum over the
    kernel-shaped window of the input itself. *)
Lemma forward_valid_cells (g : list nat -> ndarray * ndarray) (X : ndarray)
  (self : Conv_layer.obj) (s H Wd C : nat) :
  let kh := fst (Conv_layer.kernel_shape self) in
  let kw := snd (Conv_layer.kernel_shape self) in
  let st := Z.to_nat (Conv_layer.stride self) in
  let F := Conv_layer.filters self in
  let W := fst (g [kh; kw; C; F]) in
  let b := snd (g [kh; kw; C; F]) in
  glorot_shapes g ->
  shape X = [s; H; Wd; C] ->
  Conv_layer.padding self <> "same"%string ->
  (0 < Conv_layer.stride self)%Z -> kh <= H -> kw <= Wd ->
  exists Zr self',
    Conv_layer.forward g X self = (Ok Zr, self') /\
    shape Zr = [s; (H - kh) / st + 1; (Wd - kw) / st + 1; F] /\
    forall i h w c,
      i < s -> h < (H - kh) / st + 1 -> w < (Wd - kw) / st + 1 -> c < F ->
      get Zr [i; h; w; c]
      = (qsum kh (fun p => qsum kw (fun q => qsum C (fun t =>
           get X [i; st * h + p; st * w + q; t]%nat * get W [p; q; t; c]%nat)))
         + get b [0; 0; 0; c]%nat)%Qc.
Proof.
  intros kh kw st F W b Hgs HX Hpad Hst Hkh Hkw.
  set (nH := (Z.quot (Z.of_nat H - Z.of_nat kh) (Conv_layer.stride self) + 1)%Z).
  set (nW := (Z.quot (Z.of_nat Wd - Z.of_nat kw) (Conv_layer.stride self) + 1)%Z).
  assert (Hgeo : Conv_layer.output_geometry self H Wd = Ok (0%Z, 0%Z, nH, nW)).
  { unfold Conv_layer.output_geometry, py_int_truediv.
    apply String.eqb_neq in Hpad. rewrite Hpad.
    replace (Conv_layer.stride self =? 0)%Z with false
      by (symmetry; apply Z.eqb_neq; lia).
    reflexivity. }
  assert (Hstz : Z.of_nat st = Conv_layer.stride self) by (unfold st; lia).
  assert (HnH : Z.to_nat nH = (H - kh) / st + 1).
  { unfold nH. rewrite <- Hstz. rewrite Z.quot_div_nonneg by lia.
    rewrite <- Nat2Z.inj_sub by exact Hkh. rewrite <- Nat2Z.inj_div. lia. }
  assert (HnW : Z.to_nat nW = (Wd - kw) / st + 1).
  { unfold nW. rewrite <- Hstz. rewrite Z.quot_div_nonneg by lia.
    rewrite <- Nat2Z.inj_sub by exact Hkw. rewrite <- Nat2Z.inj_div. lia. }
  assert (Hp : exists Xp, pad_inputs X (0%Z, 0%Z) = Ok Xp /\
                 forall i y x t, y < H -> x < Wd ->
                                 get Xp [i; y; x; t] = get X [i; y; x; t]).
  { unfold pad_inputs. rewrite HX. cbn [fst snd Z.leb andb Z.to_nat Z.compare].
    eexists; split; [reflexivity|].
    intros i y x t Hy Hx. cbn [get].
    replace (y <? 0 + H) with true by (symmetry; apply Nat.ltb_lt; lia).
    replace (x <? 0 + Wd) with true by (symmetry; apply Nat.ltb_lt; lia).
    cbn [Nat.leb andb]. rewrite !Nat.sub_0_r. reflexivity. }
  destruct Hp as (Xp & Hp & HXp).
  destruct (@forward_cells_spec g X Xp self s H Wd C 0%Z 0%Z nH nW HX Hgeo Hp)
    as [_ HB].
  assert (Hfh : forall h, h < Z.to_nat nH -> st * h + kh <= H).
  { intros h Hh. apply valid_window_fits; [lia | exact Hkh |].
    unfold nH in Hh. rewrite Hstz. exact Hh. }
  assert (Hfw : forall w, w < Z.to_nat nW -> st * w + kw <= Wd).
  { intros w Hw. apply valid_window_fits; [lia | exact Hkw |].
    unfold nW in Hw. rewrite Hstz. exact Hw. }
  destruct HB as (Zr & self' & Hf & Hs & Hc).
  - exact Hgs.
  - lia.
  - lia.
  - lia.
  - intros h Hh. cbn [Z.to_nat]. specialize (Hfh h Hh). fold kh st. lia.
  - intros w Hw. cbn [Z.to_nat]. specialize (Hfw w Hw). fold kw st. lia.
  - exists Zr, self'. split; [exact Hf|].
    rewrite HnH, HnW in Hs. split; [exact Hs|].
    intros i h w c Hi Hh Hw Hcf.
    rewrite <- HnH in Hh. rewrite <- HnW in Hw.
    rewrite (Hc i h w c Hi Hh Hw Hcf).
    fold kh kw st F W b. f_equal.
    apply qsum_ext; intros p Hp'. apply qsum_ext; intros q Hq'.
    apply qsum_ext; intros t _.
    rewrite HXp; [reflexivity | |].
    + specialize (Hfh h Hh). lia.
    + specialize (Hfw w Hw). lia.
Qed.

(** Under ['same'] padding with stride 1 and odd kernel dimensions
    [2a+1] and [2b+1], [forward] pads by [a] and [b], returns an output of
    the spatial size of the input, and every cell is the sum over the
    kernel-shaped window of the padded input. *)
Lemma forward_same_cells (g : list nat -> ndarray * ndarray) (X : ndarray)
  (self : Conv_layer.obj) (s H Wd C a b0 : nat) :
  let F := Conv_layer.filters self in
  let W := fst (g [2 * a + 1; 2 * b0 + 1; C; F]) in
  let b := snd (g [2 * a + 1; 2 * b0 + 1; C; F]) in
  glorot_shapes g ->
  shape X = [s; H; Wd; C] ->
  Conv_layer.padding self = "same"%string ->
  Conv_layer.stride self = 1%Z ->
  Conv_layer.kernel_shape self = (2 * a + 1, 2 * b0 + 1) ->
  exists Xp Zr self',
    pad_inputs X (Z.of_nat a, Z.of_nat b0) = Ok Xp /\
    Conv_layer.forward g X self = (Ok Zr, self') /\
    Conv_layer.pad_h self' = Some (Z.of_nat a) /\
    Conv_layer.pad_w self' = Some (Z.of_nat b0) /\
    shape Zr = [s; H; Wd; F] /\
    forall i h w c,
      i < s -> h < H -> w < Wd -> c < F ->
      get Zr [i; h; w; c]
      = (qsum (2 * a + 1) (fun p => qsum (2 * b0 + 1) (fun q => qsum C (fun t =>
           get Xp [i; h + p; w + q; t]%nat * get W [p; q; t; c]%nat)))
         + get b [0; 0; 0; c]%nat)%Qc.
Proof.
  intros F W b Hgs HX Hpad Hst Hk.
  assert (Hgeo : Conv_layer.output_geometry self H Wd
                 = Ok (Z.of_nat a, Z.of_nat b0, Z.of_nat H, Z.of_nat Wd)).
  { unfold Conv_layer.output_geometry, py_int_truediv.
    rewrite Hpad, Hst, Hk. cbn [String.eqb Ascii.eqb Bool.eqb fst snd Z.eqb rbind].
    replace ((Z.of_nat H - 1) * 1 + Z.of_nat (2 * a + 1) - Z.of_nat H)%Z
      with (Z.of_nat a * 2)%Z by lia.
    replace ((Z.of_nat Wd - 1) * 1 + Z.of_nat (2 * b0 + 1) - Z.of_nat Wd)%Z
      with (Z.of_nat b0 * 2)%Z by lia.
    rewrite !Z.quot_mul by lia. reflexivity. }
  assert (Hp : exists Xp, pad_inputs X (Z.of_nat a, Z.of_nat b0) = Ok Xp).
  { unfold pad_inputs. rewrite HX. cbn [fst snd].
    replace (0 <=? Z.of_nat a)%Z with true by (symmetry; apply Z.leb_le; lia).
    replace (0 <=? Z.of_nat b0)%Z with true by (symmetry; apply Z.leb_le; lia).
    eexists; reflexivity. }
  destruct Hp as (Xp & Hp).
  destruct (@forward_cells_spec g X Xp self s H Wd C (Z.of_nat a) (Z.of_nat b0)
              (Z.of_nat H) (Z.of_nat Wd) HX Hgeo Hp) as [HA HB].
  rewrite Hk, Hst in HB. cbn [fst snd] in HB. rewrite !Nat2Z.id in HB.
  destruct HB as (Zr & self' & Hf & Hs & Hc).
  - exact Hgs.
  - lia.
  - lia.
  - lia.
  - intros h Hh. change (Z.to_nat 1) with 1. lia.
  - intros w Hw. change (Z.to_nat 1) with 1. lia.
  - exists Xp, Zr, self'. split; [exact Hp|]. split; [exact Hf|].
    assert (Hpads : Conv_layer.pad_h self' = Some (Z.of_nat a) /\
                    Conv_layer.pad_w self' = Some (Z.of_nat b0)).
    { destruct (@forward_geometry_facts g X Zr self self' s H Wd C HX Hf) as [Hsame _].
      destruct (Hsame Hpad) as (Hph & Hpw & _).
      rewrite Hph, Hpw, Hst, Hk. cbn [fst snd].
      replace ((Z.of_nat H - 1) * 1 + Z.of_nat (2 * a + 1) - Z.of_nat H)%Z
        with (Z.of_nat a * 2)%Z by lia.
      replace ((Z.of_nat Wd - 1) * 1 + Z.of_nat (2 * b0 + 1) - Z.of_nat Wd)%Z
        with (Z.of_nat b0 * 2)%Z by lia.
      rewrite !Z.quot_mul by lia. split; reflexivity. }
    destruct Hpads as [Hph Hpw].
    split; [exact Hph|]. split; [exact Hpw|]. split; [exact Hs|].
    intros i h w c Hi Hh Hw Hcf.
    rewrite (Hc i h w c Hi Hh Hw Hcf).
    change (Z.to_nat 1) with 1. rewrite !Nat.mul_1_l. reflexivity.
Qed.

(** ** [Conv_layer.backward] (C3, C4, C5, C6) *)

Lemma no_init_cache (s : Conv_layer.obj) :
  Conv_layer.has_attr s "init_cache" = false.
Proof.
  unfold Conv_layer.has_attr, Conv_layer.instance_attrs, Conv_layer.name_if.
  destruct (Conv_layer.W s), (Conv_layer.b s), (Conv_layer.pad_h s),
    (Conv_layer.pad_w s), (Conv_layer.A s), (Conv_layer.dW s), (Conv_layer.db s);
    reflexivity.
Qed.

Lemma backward_stops_at_init_cache (g : list nat -> ndarray * ndarray)
  (X Zr dY : ndarray) (learning_rate : Qc) (self0 self : Conv_layer.obj) :
  Conv_layer.forward g X self0 = (Ok Zr, self) ->
  Conv_layer.backward dY learning_rate self
  = (Raise (AttributeError "init_cache"), self).
Proof.
  intros Hf.
  destruct (forward_ok_inv _ _ _ Hf)
    as (s & H & Wd & C & ph & pw & nH & nW & Z0 & Xp & HX & _ & _ & _ & _ & Hs).
  unfold Conv_layer.backward, bind, getattr, gets, raise.
  rewrite Hs at 1; simpl. rewrite Hs at 1; simpl. rewrite Hs at 1; simpl.
  rewrite HX.
  rewrite no_init_cache. reflexivity.
Qed.

(** C3. After a call of [forward] that returned, every call of
    [Conv_layer.backward] raises the attribute error of the missing
    [init_cache] and leaves the instance exactly as it was: no gradient is
    stored and no parameter is updated (so the same holds for every later
    call). *)
Theorem backward_raises_on_init_cache (g : list nat -> ndarray * ndarray)
  (X Zr dY : ndarray) (learning_rate : Qc) (self0 self : Conv_layer.obj) :
  Conv_layer.forward g X self0 = (Ok Zr, self) ->
  Conv_layer.backward dY learning_rate self
  = (Raise (AttributeError "init_cache"), self).
Proof.
  exact (@backward_stops_at_init_cache g X Zr dY learning_rate self0 self).
Qed.

Lemma backward_raises_on_init_cache_witness :
  Conv_layer.backward image_1x1 1%Qc
    (snd (Conv_layer.forward ones_glorot image_4x4 conv_2x2_valid))
  = (Raise (AttributeError "init_cache"),
     snd (Conv_layer.forward ones_glorot image_4x4 conv_2x2_valid)).
Proof.
  destruct (Conv_layer.forward ones_glorot image_4x4 conv_2x2_valid)
    as [[Zr|e] self] eqn:Hf.
  - exact (backward_raises_on_init_cache _ _ image_1x1 1%Qc _ Hf).
  - vm_compute in Hf. discriminate Hf.
Defined.

Lemma init_cache_is_4d (filters : nat) (kernel_shape : nat * nat)
  (padding : string) (stride : Z) :
  cache_is_4d (Conv_layer.init filters kernel_shape padding stride).
Proof. exact I. Qed.

Lemma forward_keeps_cache_4d (g : list nat -> ndarray * ndarray) (X : ndarray)
  (self : Conv_layer.obj) :
  cache_is_4d self -> cache_is_4d (snd (Conv_layer.forward g X self)).
Proof.
  unfold cache_is_4d, Conv_layer.forward. intros Hc.
  destruct (shape X) as [|s [|H [|Wd [|C [|? ?]]]]] eqn:HX;
    try (unfold raise; exact Hc).
  unfold bind, gets, modify, lift, ret; cbn [fst snd].
  destruct (Conv_layer.output_geometry _ H Wd) as [[[[ph pw] nH] nW]|e];
    [|exact Hc].
  destruct (np_zeros_z _) as [Z0|e]; [|exact Hc].
  destruct (pad_inputs X (ph, pw)) as [X_pad|e]; [|exact Hc].
  destruct (Conv_layer.forward_loops _ _ _ _ _ _ _ _) as [Zr|e]; [|exact Hc].
  cbn [snd Conv_layer.set_A Conv_layer.A]. rewrite HX. reflexivity.
Qed.

(** Whatever [forward] did before (returned, raised, or was never called),
    [backward] raises an attribute error and changes nothing. *)
Lemma backward_attribute_error (dY : ndarray) (learning_rate : Qc)
  (self : Conv_layer.obj) :
  cache_is_4d self ->
  exists name,
    Conv_layer.backward dY learning_rate self = (Raise (AttributeError name), self).
Proof.
  unfold cache_is_4d, Conv_layer.backward, bind, getattr, gets, raise.
  destruct (Conv_layer.A self) as [A0|]; [|intros _; eexists; reflexivity].
  destruct (Conv_layer.pad_h self) as [ph|]; [|intros _; eexists; reflexivity].
  destruct (Conv_layer.pad_w self) as [pw|]; [|intros _; eexists; reflexivity].
  intros H4.
  destruct (shape A0) as [|s [|H [|Wd [|C [|? ?]]]]]; try discriminate H4.
  rewrite no_init_cache. eexists; reflexivity.
Qed.

Ltac step_match :=
  match goal with
  | |- context [match ?x with Ok _ => _ | Raise _ => _ end] => destruct x eqn:?
  | |- context [match ?x with Some _ => _ | None => _ end] => destruct x eqn:?
  | |- context [let (_, _) := ?x in _] => destruct x eqn:?
  end.

Lemma backward_cell_frame (dY a_pad da : ndarray) (i h w c : nat)
  (st : Conv_layer.obj) :
  Conv_layer.W (snd (Conv_layer.backward_cell dY a_pad i h w c da st))
  = Conv_layer.W st /\
  Conv_layer.b (snd (Conv_layer.backward_cell dY a_pad i h w c da st))
  = Conv_layer.b st.
Proof.
  unfold Conv_layer.backward_cell, bind, gets, getattr, lift, modify, ret.
  repeat (step_match; cbn [fst snd]);
    cbn [Conv_layer.W Conv_layer.b Conv_layer.set_dW Conv_layer.set_db];
    split; congruence.
Qed.

Lemma for_loopM_frame {I S A T : Type} (f : S -> T) (l : list I)
  (body : I -> A -> M S A) (a : A) (s : S) :
  (forall x a0 s0, f (snd (body x a0 s0)) = f s0) ->
  f (snd (for_loopM l body a s)) = f s.
Proof.
  intros Hb. revert a s; induction l as [|x l IH]; intros a s; cbn [for_loopM].
  - reflexivity.
  - unfold bind. specialize (Hb x a s).
    destruct (body x a s) as [[a'|e] s']; cbn [snd] in *.
    + rewrite IH. exact Hb.
    + exact Hb.
Qed.

Lemma accumulation_frame (dY a_pad da : ndarray) (i H Wd nf : nat)
  (st : Conv_layer.obj) :
  let r := for_loopM (seq 0 H) (fun h da_h =>
             for_loopM (seq 0 Wd) (fun w da_w =>
               for_loopM (seq 0 nf) (fun c da_c =>
                 Conv_layer.backward_cell dY a_pad i h w c da_c)
               da_w)
             da_h)
           da st in
  Conv_layer.W (snd r) = Conv_layer.W st /\ Conv_layer.b (snd r) = Conv_layer.b st.
Proof.
  intros r.
  pose (f := fun s : Conv_layer.obj => (Conv_layer.W s, Conv_layer.b s)).
  assert (E : f (snd r) = f st).
  { unfold r. apply (for_loopM_frame f). intros h da_h s_h.
    apply (for_loopM_frame f). intros w da_w s_w.
    apply (for_loopM_frame f). intros c da_c s_c.
    destruct (backward_cell_frame dY a_pad da_c i h w c s_c) as [HW Hb].
    unfold f. rewrite HW, Hb. reflexivity. }
  unfold f in E. inversion E. split; reflexivity.
Qed.

Ltac conv_step :=
  cbv beta iota;
  cbn [Conv_layer.W Conv_layer.b Conv_layer.dW Conv_layer.db
       Conv_layer.set_W Conv_layer.set_b Conv_layer.set_dW Conv_layer.set_db].

(** The branch in which a step raised. *)
Ltac raise_case :=
  conv_step; let Hd := fresh "Hd" in intros Hd; discriminate Hd.

Lemma backward_sample_updates (dY A_pad dA_pad dA dA' : ndarray) (lr : Qc)
  (ph pw : Z) (H Wd i : nat) (st st' : Conv_layer.obj) :
  Conv_layer.backward_sample dY A_pad dA_pad lr ph pw H Wd i dA st = (Ok dA', st') ->
  one_update lr st st'.
Proof.
  unfold Conv_layer.backward_sample, bind, lift, gets, getattr, modify, ret.
  destruct (np_getitem A_pad [Ix i]) as [a_pad|e]; [|raise_case]; conv_step.
  destruct (np_getitem dA_pad [Ix i]) as [da_pad|e]; [|raise_case]; conv_step.
  pose proof (accumulation_frame dY a_pad da_pad i H Wd (Conv_layer.filters st) st)
    as Hframe. cbv zeta in Hframe.
  destruct (for_loopM (seq 0 H) _ da_pad st) as [[da_pad'|e] st1]; [|raise_case]; conv_step.
  cbn [snd] in Hframe. destruct Hframe as [HW Hb].
  destruct (np_getitem da_pad' _) as [crop|e]; [|raise_case]; conv_step.
  destruct (np_setitem dA _ crop) as [dA1|e]; [|raise_case]; conv_step.
  destruct (Conv_layer.W st1) as [W0|] eqn:HW0; [|raise_case]; conv_step.
  destruct (Conv_layer.dW st1) as [dW0|] eqn:HdW0; [|raise_case]; conv_step.
  destruct (np_multiply (np_scalar lr) dW0) as [ldw|e] eqn:Hldw; [|raise_case]; conv_step.
  destruct (np_isub W0 [] ldw) as [W1|e] eqn:HW1; [|raise_case]; conv_step.
  destruct (Conv_layer.b st1) as [b0|] eqn:Hb0; [|raise_case]; conv_step.
  destruct (Conv_layer.db st1) as [db0|] eqn:Hdb0; [|raise_case]; conv_step.
  destruct (np_multiply (np_scalar lr) db0) as [ldb|e] eqn:Hldb; [|raise_case]; conv_step.
  destruct (np_isub b0 [] ldb) as [b1|e] eqn:Hb1; [|raise_case]; conv_step.
  intros Heq. injection Heq as _ Hst. subst st'.
  exists W0, b0, dW0, db0, ldw, ldb, W1, b1.
  cbn [Conv_layer.W Conv_layer.b Conv_layer.dW Conv_layer.db
       Conv_layer.set_W Conv_layer.set_b].
  repeat split; auto; congruence.
Qed.

Lemma sample_loop_updates (dY A_pad dA_pad : ndarray) (lr : Qc) (ph pw : Z)
  (H Wd : nat) (samples : list nat) (dA dA' : ndarray) (st st' : Conv_layer.obj) :
  for_loopM samples (Conv_layer.backward_sample dY A_pad dA_pad lr ph pw H Wd) dA st
  = (Ok dA', st') ->
  sample_updates lr (length samples) st st'.
Proof.
  revert dA st; induction samples as [|i l IH]; intros dA st; cbn [for_loopM length].
  - unfold ret. intros Heq; injection Heq as _ Hst. subst st'. constructor.
  - unfold bind.
    destruct (Conv_layer.backward_sample dY A_pad dA_pad lr ph pw H Wd i dA st)
      as [[dA1|e] st1] eqn:Hs; [|discriminate].
    intros Hl. econstructor.
    + exact (@backward_sample_updates _ _ _ _ _ _ _ _ _ _ _ _ _ Hs).
    + exact (IH dA1 st1 Hl).
Qed.

(** One pass of the innermost loop body, when it returns: the window of
    [da_pad] has received [W[:,:,:,c] * dY[i,h,w,c]], [dW[:,:,:,c]] the
    input window times [dY[i,h,w,c]], and [db[:,:,:,c]] the value
    [dY[i,h,w,c]]; nothing else of the instance changes. *)
Lemma backward_cell_accumulates (dY a_pad da da' : ndarray) (i h w c : nat)
  (st st' : Conv_layer.obj) :
  Conv_layer.backward_cell dY a_pad i h w c da st = (Ok da', st') ->
  let kh := Z.of_nat (fst (Conv_layer.kernel_shape st)) in
  let kw := Z.of_nat (snd (Conv_layer.kernel_shape st)) in
  let vs := (Conv_layer.stride st * Z.of_nat h)%Z in
  let hs := (Conv_layer.stride st * Z.of_nat w)%Z in
  let window := [Sl vs (vs + kh); Sl hs (hs + kw); All] in
  exists a_slice W0 Wc dy g dW0 gw dW1 db0 db1,
    np_getitem a_pad window = Ok a_slice /\
    Conv_layer.W st = Some W0 /\
    np_getitem W0 [All; All; All; Ix c] = Ok Wc /\
    np_getitem dY [Ix i; Ix h; Ix w; Ix c] = Ok dy /\
    np_multiply Wc dy = Ok g /\
    np_iadd da window g = Ok da' /\
    Conv_layer.dW st = Some dW0 /\
    np_multiply a_slice dy = Ok gw /\
    np_iadd dW0 [All; All; All; Ix c] gw = Ok dW1 /\
    Conv_layer.db st = Some db0 /\
    np_iadd db0 [All; All; All; Ix c] dy = Ok db1 /\
    st' = Conv_layer.set_db db1 (Conv_layer.set_dW dW1 st).
Proof.
  unfold Conv_layer.backward_cell, bind, lift, gets, getattr, modify, ret, rbind.
  destruct (np_getitem a_pad _) as [a_slice|e] eqn:Ha; [|raise_case]; conv_step.
  destruct (Conv_layer.W st) as [W0|] eqn:HW; [|raise_case]; conv_step.
  destruct (np_getitem W0 _) as [Wc|e] eqn:HWc; [|raise_case]; conv_step.
  destruct (np_getitem dY _) as [dy|e] eqn:Hdy; [|raise_case]; conv_step.
  destruct (np_multiply Wc dy) as [g|e] eqn:Hg; [|raise_case]; conv_step.
  destruct (np_iadd da _ g) as [da1|e] eqn:Hda; [|raise_case]; conv_step.
  destruct (Conv_layer.dW st) as [dW0|] eqn:HdW; [|raise_case]; conv_step.
  destruct (np_multiply a_slice dy) as [gw|e] eqn:Hgw; [|raise_case]; conv_step.
  destruct (np_iadd dW0 _ gw) as [dW1|e] eqn:HdW1; [|raise_case]; conv_step.
  destruct (Conv_layer.db st) as [db0|] eqn:Hdb; [|raise_case]; conv_step.
  destruct (np_iadd db0 _ dy) as [db1|e] eqn:Hdb1; [|raise_case]; conv_step.
  intros Heq. injection Heq as Hda' Hst. subst da' st'.
  exists a_slice, W0, Wc, dy, g, dW0, gw, dW1, db0, db1.
  repeat split; auto.
Qed.

(** The lines after the call of [init_cache], when they return, have
    updated [W] and [b] once per sample, [dW] and [db] starting from zero
    and never being reset in between. *)
Lemma remainder_updates_per_sample (dY A0 dA dA' : ndarray) (lr : Qc)
  (ph pw : Z) (samples H Wd : nat) (st st' : Conv_layer.obj) :
  Conv_layer.backward_from_line_169 dY lr A0 ph pw samples H Wd dA st
  = (Ok dA', st') ->
  exists W0 b0,
    Conv_layer.W st = Some W0 /\ Conv_layer.b st = Some b0 /\
    sample_updates lr samples
      (Conv_layer.set_db (np_zeros_like b0)
         (Conv_layer.set_dW (np_zeros_like W0) st))
      st'.
Proof.
  unfold Conv_layer.backward_from_line_169, bind, lift, getattr, modify.
  destruct (Conv_layer.W st) as [W0|] eqn:HW; [|raise_case]; conv_step.
  destruct (Conv_layer.b st) as [b0|] eqn:Hb; [|raise_case]; conv_step.
  destruct (pad_inputs A0 (ph, pw)) as [A_pad|e]; [|raise_case]; conv_step.
  destruct (pad_inputs dA (ph, pw)) as [dA_pad|e]; [|raise_case]; conv_step.
  intros Hl. exists W0, b0. split; [reflexivity|]. split; [reflexivity|].
  apply sample_loop_updates in Hl. rewrite length_seq in Hl. exact Hl.
Qed.

(** What one update does to the cells of [W]. *)
Lemma one_update_cells (lr : Qc) (st st' : Conv_layer.obj) :
  one_update lr st st' ->
  exists W0 dW1 W1,
    Conv_layer.W st = Some W0 /\ Conv_layer.dW st' = Some dW1 /\
    Conv_layer.W st' = Some W1 /\
    (shape dW1 = shape W0 ->
     forall idx, in_bounds (shape W0) idx ->
                 get W1 idx = (get W0 idx - lr * get dW1 idx)%Qc).
Proof.
  intros (W0 & b0 & dW1 & db1 & ldw & ldb & W1 & b1
          & HW & _ & HdW & _ & Hldw & HW1 & HW' & _).
  exists W0, dW1, W1. repeat split; auto.
  intros Hs idx Hidx.
  destruct (np_binop_scalar_l Qcmult lr dW1) as (r & Hr & Hrs & Hrg).
  unfold np_multiply in Hldw. rewrite Hr in Hldw. injection Hldw as <-.
  destruct (@np_iop_whole Qcminus W0 r) as (r' & Hr' & _ & Hr'g); [congruence|].
  unfold np_isub in HW1. rewrite Hr' in HW1. injection HW1 as <-.
  rewrite (Hr'g idx Hidx), Hrg by (rewrite Hs; exact Hidx). reflexivity.
Qed.

(** C4 (failing input). A layer with one 1 x 1 filter, ['valid'] padding
    and stride 1, after [forward] on a 1 x 1 x 1 x 1 input: [backward] on a
    gradient shaped like the output returns no gradient at all.  It raises
    the attribute error of [init_cache]; and past that call the crop
    [da_pad[0:-0, 0:-0, :]] is empty, so that the assignment into [dA]
    raises instead of giving a gradient of the input's shape. *)
Theorem conv_backward_valid_padding_fails :
  let self := snd (Conv_layer.forward ones_glorot image_1x1 conv_1x1_valid) in
  result_shape (fst (Conv_layer.forward ones_glorot image_1x1 conv_1x1_valid))
  = Ok [1; 1; 1; 1] /\
  Conv_layer.backward image_1x1 half self
  = (Raise (AttributeError "init_cache"), self) /\
  fst (Conv_layer.backward_past_init_cache image_1x1 half self) = Raise ValueError.
Proof.
  intros self. split; [vm_compute; reflexivity|]. split.
  - unfold self.
    destruct (Conv_layer.forward ones_glorot image_1x1 conv_1x1_valid)
      as [[Zr|e] self'] eqn:Hf; [|vm_compute in Hf; discriminate Hf].
    exact (@backward_stops_at_init_cache _ _ _ image_1x1 half _ _ Hf).
  - vm_compute. reflexivity.
Qed.

(** C5 (failing input). One 3 x 3 filter of ones, ['same'] padding, stride
    1, two samples of one pixel (5 and 7), gradient (1, 10), learning rate
    1/2.  [backward] raises at [init_cache] before [dW] and [db] even
    exist.  The lines after that call would accumulate as the claim says
    ([dW] centre 5*1 + 7*10, [db] 1 + 10, input gradient 1 and -15); with
    ['valid'] padding and a 1 x 1 kernel they would raise at the crop. *)
Theorem conv_backward_never_accumulates :
  let self := snd (Conv_layer.forward ones_glorot batch_two_1x1 conv_3x3_same) in
  result_shape (fst (Conv_layer.forward ones_glorot batch_two_1x1 conv_3x3_same))
  = Ok [2; 1; 1; 1] /\
  Conv_layer.backward grad_two_1x1 half self
  = (Raise (AttributeError "init_cache"), self) /\
  Conv_layer.dW self = None /\ Conv_layer.db self = None /\
  (let r := Conv_layer.backward_past_init_cache grad_two_1x1 half self in
   result_shape (fst r) = Ok [2; 1; 1; 1] /\
   result_cell (fst r) [0; 0; 0; 0] = Ok 1%Q /\
   result_cell (fst r) [1; 0; 0; 0] = Ok (-15)%Q /\
   attr_cell (Conv_layer.dW (snd r)) [1; 1; 0; 0] = Some 75%Q /\
   attr_cell (Conv_layer.db (snd r)) [0; 0; 0; 0] = Some 11%Q) /\
  (let self1 := snd (Conv_layer.forward ones_glorot image_2x2 conv_1x1_valid) in
   let r := Conv_layer.backward_past_init_cache image_2x2 half self1 in
   fst r = Raise ValueError /\
   attr_cell (Conv_layer.dW (snd r)) [0; 0; 0; 0] = Some 174%Q).
Proof.
  intros self. split; [vm_compute; reflexivity|]. split.
  - unfold self.
    destruct (Conv_layer.forward ones_glorot batch_two_1x1 conv_3x3_same)
      as [[Zr|e] self'] eqn:Hf; [|vm_compute in Hf; discriminate Hf].
    exact (@backward_stops_at_init_cache _ _ _ grad_two_1x1 half _ _ Hf).
  - repeat split; vm_compute; reflexivity.
Qed.

(** C6 (failing input). On the same two-sample batch [backward] updates
    [W] and [b] not twice but never: it raises at [init_cache] and both are
    as [forward] left them.  The lines after that call would update once
    per sample with the running [dW] and [db]: the centre weight becomes
    [1 - 5/2 - 75/2 = -39] (a single update with the full gradient would
    give [1 - 75/2]) and the bias [0 - 1/2 - 11/2 = -6]. *)
Theorem conv_backward_never_updates :
  let self := snd (Conv_layer.forward ones_glorot batch_two_1x1 conv_3x3_same) in
  snd (Conv_layer.backward grad_two_1x1 half self) = self /\
  attr_cell (Conv_layer.W (snd (Conv_layer.backward grad_two_1x1 half self)))
    [1; 1; 0; 0] = Some 1%Q /\
  attr_cell (Conv_layer.b (snd (Conv_layer.backward grad_two_1x1 half self)))
    [0; 0; 0; 0] = Some 0%Q /\
  (let r := Conv_layer.backward_past_init_cache grad_two_1x1 half self in
   attr_cell (Conv_layer.W (snd r)) [1; 1; 0; 0] = Some (-39)%Q /\
   attr_cell (Conv_layer.b (snd r)) [0; 0; 0; 0] = Some (-6)%Q).
Proof.
  intros self.
  assert (Hb : Conv_layer.backward grad_two_1x1 half self
               = (Raise (AttributeError "init_cache"), self)).
  { unfold self.
    destruct (Conv_layer.forward ones_glorot batch_two_1x1 conv_3x3_same)
      as [[Zr|e] self'] eqn:Hf; [|vm_compute in Hf; discriminate Hf].
    exact (@backward_stops_at_init_cache _ _ _ grad_two_1x1 half _ _ Hf). }
  rewrite Hb. cbn [snd].
  repeat split; vm_compute; reflexivity.
Qed.

(** ** [FC]: forward pass, errors and one gradient step (X1 - X4) *)

Lemma np_add_row (a b : ndarray) (m n : nat) :
  shape a = [m; n] -> shape b = [1; n] ->
  exists r, np_add a b = Ok r /\ shape r = [m; n] /\
            forall i j, i < m -> j < n ->
                        get r [i; j] = (get a [i; j]%nat + get b [0; j]%nat)%Qc.
Proof.
  intros Ha Hb. unfold np_add, np_binop, broadcast_shapes.
  rewrite Ha, Hb. cbn [rev app bcast_rev].
  assert (Hs : forall r : list nat,
             (if m =? 1 then Some (m :: r)
              else if m =? 1 then Some (1 :: r)
              else if 1 =? 1 then Some (m :: r) else None) = Some (m :: r)).
  { intros r. destruct (m =? 1); reflexivity. }
  rewrite ?Hs. rewrite Nat.eqb_refl. cbn [option_map rev app].
  eexists; split; [reflexivity|]. split; [reflexivity|].
  intros i j Hi Hj. cbn [get].
  rewrite (@bcast_index_in_bounds [m; n] [i; j])
    by (constructor; [exact Hi | constructor; [exact Hj | constructor]]).
  unfold bcast_index. cbn [length Nat.sub skipn combine map fst snd Nat.eqb].
  destruct (Nat.eqb_spec n 1) as [Hn|Hn]; [|reflexivity].
  replace j with 0 by lia. reflexivity.
Qed.

Lemma fc_forward_affine (self : FC.obj) (X : ndarray) (m n_in n_out : nat) :
  shape X = [m; n_in] ->
  shape (FC.weights self) = [n_in; n_out] ->
  shape (FC.bias self) = [1; n_out] ->
  exists Y,
    FC.forward X self = (Ok Y, FC.set_output Y (FC.set_input X self)) /\
    shape Y = [m; n_out] /\
    forall i j, i < m -> j < n_out ->
      get Y [i; j]
      = (qsum n_in (fun k => get X [i; k]%nat * get (FC.weights self) [k; j]%nat)
         + get (FC.bias self) [0; j]%nat)%Qc.
Proof.
  intros HX HW Hb.
  destruct (@np_dot_2d X (FC.weights self) m n_in n_out HX HW)
    as (xw & Hxw & Hxws & Hxwg).
  destruct (@np_add_row xw (FC.bias self) m n_out Hxws Hb) as (Y & HY & HYs & HYg).
  exists Y. split.
  - unfold FC.forward, bind, modify, gets, lift, ret, rbind.
    cbn [FC.set_input FC.weights FC.bias]. rewrite Hxw, HY. reflexivity.
  - split; [exact HYs|]. intros i j Hi Hj.
    rewrite (HYg i j Hi Hj), Hxwg. reflexivity.
Qed.

(** X1. On a batch [X] of shape [(m, n_in)], with weights of shape
    [(n_in, n_out)] and a bias of shape [(1, n_out)], [FC.forward] returns
    [X . W + b]: an array of shape [(m, n_out)] whose cell [(i, j)] is the
    sum over [k] of [X[i,k] * W[k,j]], plus [b[0,j]].  It caches the batch
    and the output and leaves the weights and the bias alone. *)
Theorem fc_forward_batch (self : FC.obj) (X : ndarray) (m n_in n_out : nat) :
  shape X = [m; n_in] ->
  shape (FC.weights self) = [n_in; n_out] ->
  shape (FC.bias self) = [1; n_out] ->
  exists Y self',
    FC.forward X self = (Ok Y, self') /\
    shape Y = [m; n_out] /\
    (forall i j, i < m -> j < n_out ->
       get Y [i; j]
       = (qsum n_in (fun k => get X [i; k]%nat * get (FC.weights self) [k; j]%nat)
          + get (FC.bias self) [0; j]%nat)%Qc) /\
    FC.input self' = Some X /\ FC.output self' = Some Y /\
    FC.weights self' = FC.weights self /\ FC.bias self' = FC.bias self.
Proof.
  intros HX HW Hb.
  destruct (@fc_forward_affine self X m n_in n_out HX HW Hb) as (Y & HY & HYs & HYg).
  exists Y, (FC.set_output Y (FC.set_input X self)).
  split; [exact HY|]. split; [exact HYs|]. split; [exact HYg|].
  repeat split.
Qed.

Lemma fc_forward_batch_witness :
  exists Y self',
    FC.forward batch_2x2 fc_2x1 = (Ok Y, self') /\
    shape Y = [2; 1] /\
    get Y [0; 0] = Q2Qc 4 /\ get Y [1; 0] = Q2Qc 5 /\
    FC.input self' = Some batch_2x2.
Proof.
  destruct (@fc_forward_batch fc_2x1 batch_2x2 2 2 1 eq_refl eq_refl eq_refl)
    as (Y & self' & HY & HYs & HYg & Hin & _).
  exists Y, self'. split; [exact HY|]. split; [exact HYs|].
  split; [|split; [|exact Hin]].
  - rewrite (HYg 0 0 ltac:(lia) ltac:(lia)).
    apply Qc_is_canon. vm_compute. reflexivity.
  - rewrite (HYg 1 0 ltac:(lia) ltac:(lia)).
    apply Qc_is_canon. vm_compute. reflexivity.
Defined.

(** X2. A batch whose number of features differs from the number of rows of
    the weights: [FC.forward] raises [ValueError], having already replaced
    the cached input by the batch; the cached output, the weights and the
    bias are as before. *)
Theorem fc_forward_feature_mismatch (self : FC.obj) (X : ndarray)
  (m k n_in n_out : nat) :
  shape X = [m; k] ->
  shape (FC.weights self) = [n_in; n_out] ->
  k <> n_in ->
  FC.forward X self = (Raise ValueError, FC.set_input X self).
Proof.
  intros HX HW Hk.
  unfold FC.forward, bind, modify, gets, lift, ret, rbind, np_dot.
  cbn [FC.set_input FC.weights FC.bias]. rewrite HX, HW.
  cbn [length Nat.sub last nth].
  replace (k =? n_in) with false by (symmetry; apply Nat.eqb_neq; exact Hk).
  reflexivity.
Qed.

Lemma fc_forward_feature_mismatch_witness :
  FC.forward grad_2x1 fc_2x1 = (Raise ValueError, FC.set_input grad_2x1 fc_2x1).
Proof.
  apply (@fc_forward_feature_mismatch fc_2x1 grad_2x1 2 1 2 1 eq_refl eq_refl).
  lia.
Defined.

(** X3. Before any call of [forward] the attribute [input] does not exist:
    [FC.backward] cannot return, and whatever it raises (an error of the
    first product, or the attribute error), the instance is unchanged: the
    weights and the bias have not been touched. *)
Theorem fc_backward_before_forward (self : FC.obj) (dY : ndarray) (lr : Qc) :
  FC.input self = None ->
  exists e, FC.backward dY lr self = (Raise e, self).
Proof.
  intros Hin. unfold FC.backward, bind, lift, gets, getattr.
  destruct (py_len dY) as [m|e]; [|eexists; reflexivity].
  destruct (np_dot dY (np_T (FC.weights self))) as [grad|e];
    [|eexists; reflexivity].
  rewrite Hin. eexists; reflexivity.
Qed.

Lemma fc_backward_before_forward_witness :
  exists e, FC.backward grad_2x1 1%Qc fc_2x1 = (Raise e, fc_2x1).
Proof.
  exact (@fc_backward_before_forward fc_2x1 grad_2x1 1%Qc eq_refl).
Defined.

(** With matching 2-d shapes the error is the missing attribute. *)
Lemma fc_backward_before_forward_attribute (self : FC.obj) (dY : ndarray)
  (lr : Qc) (m n_in n_out : nat) :
  FC.input self = None ->
  shape (FC.weights self) = [n_in; n_out] ->
  shape dY = [m; n_out] ->
  FC.backward dY lr self = (Raise (AttributeError "input"), self).
Proof.
  intros Hin HW HdY.
  destruct (@np_dot_2d dY (np_T (FC.weights self)) m n_out n_in HdY)
    as (grad & Hgrad & _).
  { unfold np_T; cbn [shape]. rewrite HW. reflexivity. }
  unfold FC.backward, bind, lift, gets, getattr, py_len.
  rewrite HdY, Hgrad, Hin. reflexivity.
Qed.

(** X4. [forward], [backward] with the gradient [dY], then [forward] again
    on the same batch of [m > 0] samples: all three calls return, and the
    second output is [X . W' + b'] for the parameters [backward] left
    behind, [W' = W - lr * (X^T . dY / m)] and
    [b' = b - lr * (sum of the rows of dY / m)]: [backward] has used the
    batch cached by the first [forward], and the second [forward] reads
    what [backward] stored. *)
Theorem fc_gradient_step (self : FC.obj) (X dY : ndarray) (lr : Qc)
  (m n_in n_out : nat) :
  0 < m ->
  shape X = [m; n_in] ->
  shape (FC.weights self) = [n_in; n_out] ->
  shape (FC.bias self) = [1; n_out] ->
  shape dY = [m; n_out] ->
  exists Y s1 grad s2 Y' s3,
    FC.forward X self = (Ok Y, s1) /\
    FC.backward dY lr s1 = (Ok grad, s2) /\
    FC.forward X s2 = (Ok Y', s3) /\
    shape Y' = [m; n_out] /\
    forall i j, i < m -> j < n_out ->
      get Y' [i; j]
      = (qsum n_in (fun k =>
           get X [i; k]%nat
           * (get (FC.weights self) [k; j]%nat
              - lr * (qsum m (fun t => get X [t; k]%nat * get dY [t; j]%nat)
                      / qc_of_nat m)))
         + (get (FC.bias self) [0; j]%nat
            - lr * (qsum m (fun t => get dY [t; j]%nat) / qc_of_nat m)))%Qc.
Proof.
  intros _ HX HW Hb HdY.
  destruct (@fc_forward_affine self X m n_in n_out HX HW Hb) as (Y & HY & HYs & HYg).
  set (s1 := FC.set_output Y (FC.set_input X self)) in *.
  destruct (@fc_backward_spec s1 X dY lr m n_in n_out eq_refl HX HW Hb HdY)
    as (grad & s2 & Hbk & _ & _ & _ & HW2s & HW2 & Hb2s & Hb2).
  destruct (@fc_forward_affine s2 X m n_in n_out HX HW2s Hb2s)
    as (Y' & HY' & HY's & HY'g).
  exists Y, s1, grad, s2, Y', (FC.set_output Y' (FC.set_input X s2)).
  split; [exact HY|]. split; [exact Hbk|]. split; [exact HY'|].
  split; [exact HY's|].
  intros i j Hi Hj.
  rewrite (HY'g i j Hi Hj), (Hb2 j Hj).
  unfold s1; cbn [FC.set_output FC.set_input FC.bias FC.weights].
  f_equal. apply qsum_ext. intros k Hk. rewrite (HW2 k j Hk Hj).
  unfold s1; cbn [FC.set_output FC.set_input FC.bias FC.weights]. reflexivity.
Qed.

Lemma fc_gradient_step_witness :
  exists Y s1 grad s2 Y' s3,
    FC.forward batch_2x2 fc_2x1 = (Ok Y, s1) /\
    FC.backward grad_2x1 half s1 = (Ok grad, s2) /\
    FC.forward batch_2x2 s2 = (Ok Y', s3) /\
    shape Y' = [2; 1] /\
    get Y' [0; 0] = Q2Qc (13 # 4).
Proof.
  destruct (@fc_gradient_step fc_2x1 batch_2x2 grad_2x1 half 2 2 1
              ltac:(lia) eq_refl eq_refl eq_refl eq_refl)
    as (Y & s1 & grad & s2 & Y' & s3 & H1 & H2 & H3 & Hs & H4).
  exists Y, s1, grad, s2, Y', s3.
  split; [exact H1|]. split; [exact H2|]. split; [exact H3|]. split; [exact Hs|].
  rewrite (H4 0 0 ltac:(lia) ltac:(lia)).
  apply Qc_is_canon. vm_compute. reflexivity.
Defined.

(** ** [ActivationLayer] and [Flatten] (X5, X6) *)

(** X5. Once [forward] has cached [X], [Flatten.backward] returns exactly
    when the gradient has as many elements as [X]: the result has the shape
    of [X] and holds the elements of the gradient in the same row-major
    order.  With any other number of elements it raises [ValueError].
    Either way the instance is unchanged. *)
Theorem flatten_backward_size (self : Flatten.obj) (X dY : ndarray) (lr : Qc) :
  Flatten.input self = Some X ->
  (prod_dims (shape dY) = prod_dims (shape X) ->
   exists r, Flatten.backward dY lr self = (Ok r, self) /\
             shape r = shape X /\
             forall n, n < prod_dims (shape X) ->
                       get r (unravel (shape X) n) = get dY (unravel (shape dY) n)) /\
  (prod_dims (shape dY) <> prod_dims (shape X) ->
   Flatten.backward dY lr self = (Raise ValueError, self)).
Proof.
  intros Hin. unfold Flatten.backward, bind, getattr, lift, np_reshape.
  rewrite Hin. split; intros Hs.
  - rewrite Hs, Nat.eqb_refl. eexists; split; [reflexivity|].
    split; [reflexivity|]. intros n Hn. cbn [get].
    rewrite ravel_unravel by exact Hn. reflexivity.
  - replace (prod_dims (shape dY) =? prod_dims (shape X)) with false
      by (symmetry; apply Nat.eqb_neq; exact Hs).
    reflexivity.
Qed.

Lemma flatten_backward_size_witness :
  let self := Flatten.mk (Some batch_2x2x3) None in
  (exists r, Flatten.backward grad_2x6 1%Qc self = (Ok r, self) /\
             shape r = [2; 2; 3] /\
             get r [1; 0; 2] = get grad_2x6 [1; 2]) /\
  Flatten.backward grad_2x1 1%Qc self = (Raise ValueError, self).
Proof.
  intros self. split.
  - destruct (@flatten_backward_size self batch_2x2x3 grad_2x6 1%Qc eq_refl)
      as [Hok _].
    destruct (Hok eq_refl) as (r & Hr & Hs & Hg).
    exists r. split; [exact Hr|]. split; [exact Hs|].
    exact (Hg 8 ltac:(cbn; lia)).
  - destruct (@flatten_backward_size self batch_2x2x3 grad_2x1 1%Qc eq_refl)
      as [_ Hbad].
    apply Hbad. cbn. lia.
Defined.

(** X6. [ActivationLayer.forward] returns what the activation function
    returns and caches both the input and the output; a following
    [backward] returns the gradient function applied to that same input,
    multiplied cell by cell with [dY], and changes nothing. *)
Theorem activation_forward_backward (self : ActivationLayer.obj)
  (X Y G dY : ndarray) (lr : Qc) :
  ActivationLayer.activation self X = Ok Y ->
  ActivationLayer.activation_grad self X = Ok G ->
  shape G = shape X -> shape dY = shape X ->
  exists self1 r,
    ActivationLayer.forward X self = (Ok Y, self1) /\
    ActivationLayer.input self1 = Some X /\
    ActivationLayer.output self1 = Some Y /\
    ActivationLayer.backward dY lr self1 = (Ok r, self1) /\
    shape r = shape X /\
    forall idx, in_bounds (shape X) idx ->
                get r idx = (get G idx * get dY idx)%Qc.
Proof.
  intros HY HG HGs HdY.
  set (self1 := ActivationLayer.set_output Y (ActivationLayer.set_input X self)).
  destruct (@activation_backward_shape self1 X G dY lr eq_refl HG HGs HdY)
    as (r & Hr & Hrs & Hrg).
  exists self1, r. split.
  - unfold ActivationLayer.forward, bind, modify, gets, lift, ret.
    cbn [ActivationLayer.set_input ActivationLayer.activation]. rewrite HY.
    reflexivity.
  - split; [reflexivity|]. split; [reflexivity|]. split; [exact Hr|].
    split; [exact Hrs | exact Hrg].
Qed.

Lemma activation_forward_backward_witness :
  exists self1 r,
    ActivationLayer.forward batch_2x2 identity_activation = (Ok batch_2x2, self1) /\
    ActivationLayer.backward batch_2x2 1%Qc self1 = (Ok r, self1) /\
    shape r = [2; 2] /\ get r [1; 1] = 1%Qc.
Proof.
  destruct (@activation_forward_backward identity_activation batch_2x2 batch_2x2
              (mk_nd [2; 2] (fun _ => 1%Qc)) batch_2x2 1%Qc
              eq_refl eq_refl eq_refl eq_refl)
    as (self1 & r & Hf & _ & _ & Hb & Hs & Hg).
  exists self1, r. split; [exact Hf|]. split; [exact Hb|]. split; [exact Hs|].
  rewrite (Hg [1; 1]).
  - apply Qc_is_canon. vm_compute. reflexivity.
  - repeat constructor.
Defined.

(** ** [Conv_layer]: what [forward] refuses, and [backward] in any state
    (X7 - X11) *)

Lemma conv_forward_not_4d (g : list nat -> ndarray * ndarray) (X : ndarray)
  (self : Conv_layer.obj) :
  length (shape X) <> 4 ->
  Conv_layer.forward g X self = (Raise ValueError, self).
Proof.
  intros Hn. unfold Conv_layer.forward.
  destruct (shape X) as [|s [|H [|Wd [|C [|? ?]]]]]; try reflexivity.
  exfalso; apply Hn; reflexivity.
Qed.

(** X7. An input that is not 4-d cannot be unpacked at line 112:
    [Conv_layer.forward] raises [ValueError] before it has drawn new
    parameters or written any attribute. *)
Theorem conv_forward_needs_4d (g : list nat -> ndarray * ndarray) (X : ndarray)
  (self : Conv_layer.obj) :
  length (shape X) <> 4 ->
  Conv_layer.forward g X self = (Raise ValueError, self).
Proof. apply conv_forward_not_4d. Qed.

Lemma conv_forward_needs_4d_witness :
  Conv_layer.forward ones_glorot batch_2x2x3 conv_3x3_valid
  = (Raise ValueError, conv_3x3_valid).
Proof.
  apply (@conv_forward_needs_4d ones_glorot batch_2x2x3 conv_3x3_valid).
  cbn. lia.
Defined.

(** X8. A call of [Conv_layer.forward] that raises has not replaced the
    cached input [A] (assigned on the last line only), nor [dW] and [db],
    nor the configuration of the layer; [W], [b] and the pad amounts may
    already have been overwritten. *)
Theorem conv_forward_raise_keeps_cache (g : list nat -> ndarray * ndarray)
  (X : ndarray) (self self' : Conv_layer.obj) (e : exn) :
  Conv_layer.forward g X self = (Raise e, self') ->
  Conv_layer.A self' = Conv_layer.A self /\
  Conv_layer.dW self' = Conv_layer.dW self /\
  Conv_layer.db self' = Conv_layer.db self /\
  Conv_layer.stride self' = Conv_layer.stride self /\
  Conv_layer.kernel_shape self' = Conv_layer.kernel_shape self /\
  Conv_layer.padding self' = Conv_layer.padding self /\
  Conv_layer.filters self' = Conv_layer.filters self.
Proof.
  unfold Conv_layer.forward.
  destruct (shape X) as [|s [|H [|Wd [|C [|? ?]]]]];
    try (unfold raise; intros Heq; injection Heq as _ <-; repeat split).
  unfold bind, gets, modify, lift, ret; cbn [fst snd].
  destruct (Conv_layer.output_geometry _ H Wd) as [[[[ph pw] nH] nW]|e0];
    [|intros Heq; injection Heq as _ <-; repeat split].
  destruct (np_zeros_z _) as [Z0|e0];
    [|intros Heq; injection Heq as _ <-; repeat split].
  destruct (pad_inputs X (ph, pw)) as [X_pad|e0];
    [|intros Heq; injection Heq as _ <-; repeat split].
  destruct (Conv_layer.forward_loops _ _ _ _ _ _ _ _) as [Zr|e0];
    [intros Heq; discriminate Heq|intros Heq; injection Heq as _ <-; repeat split].
Qed.

Lemma conv_forward_raise_keeps_cache_witness :
  let self := Conv_layer.set_A image_2x2 conv_1x1_stride0 in
  let self' := snd (Conv_layer.forward ones_glorot image_1x1 self) in
  fst (Conv_layer.forward ones_glorot image_1x1 self) = Raise ZeroDivisionError /\
  Conv_layer.A self' = Some image_2x2 /\
  Conv_layer.W self' = Some (fst (ones_glorot [1; 1; 1; 1])).
Proof.
  intros self self'. split; [reflexivity|]. split; [|reflexivity].
  destruct (@conv_forward_raise_keeps_cache ones_glorot image_1x1 self self'
              ZeroDivisionError eq_refl) as (HA & _).
  exact HA.
Defined.

(** X9. A stride of zero with a padding other than ['same']: the division
    of line 127 raises [ZeroDivisionError], after [W] and [b] have been
    replaced by the new draw; nothing else is written. *)
Theorem conv_forward_zero_stride (g : list nat -> ndarray * ndarray) (X : ndarray)
  (self : Conv_layer.obj) (s H Wd C : nat) :
  shape X = [s; H; Wd; C] ->
  Conv_layer.padding self <> "same"%string ->
  Conv_layer.stride self = 0%Z ->
  let shp := [fst (Conv_layer.kernel_shape self); snd (Conv_layer.kernel_shape self);
              C; Conv_layer.filters self] in
  Conv_layer.forward g X self
  = (Raise ZeroDivisionError,
     Conv_layer.set_b (snd (g shp)) (Conv_layer.set_W (fst (g shp)) self)).
Proof.
  intros HX Hp Hst shp. unfold Conv_layer.forward. rewrite HX.
  unfold bind, gets, modify, lift, ret; cbn [fst snd].
  unfold Conv_layer.output_geometry, py_int_truediv.
  apply String.eqb_neq in Hp. rewrite Hp, Hst. reflexivity.
Qed.

Lemma conv_forward_zero_stride_witness :
  Conv_layer.forward ones_glorot image_2x2 conv_1x1_stride0
  = (Raise ZeroDivisionError,
     Conv_layer.set_b (snd (ones_glorot [1; 1; 1; 1]))
       (Conv_layer.set_W (fst (ones_glorot [1; 1; 1; 1])) conv_1x1_stride0)).
Proof.
  apply (@conv_forward_zero_stride ones_glorot image_2x2 conv_1x1_stride0
           1 2 2 1 eq_refl).
  - discriminate.
  - reflexivity.
Defined.

(** X10. Padding other than ['same'], stride 1, a kernel taller than the
    input.  Taller by two rows or more: the computed output height is
    negative and [np.zeros] refuses it, so [forward] raises [ValueError].
    Taller by exactly one row (and not wider than the input by more than
    one column): [forward] returns an output with no rows at all and caches
    the input. *)
Theorem conv_forward_kernel_taller (g : list nat -> ndarray * ndarray)
  (X : ndarray) (self : Conv_layer.obj) (s H Wd C : nat) :
  shape X = [s; H; Wd; C] ->
  Conv_layer.padding self <> "same"%string ->
  Conv_layer.stride self = 1%Z ->
  let kh := fst (Conv_layer.kernel_shape self) in
  let kw := snd (Conv_layer.kernel_shape self) in
  (H + 1 < kh -> fst (Conv_layer.forward g X self) = Raise ValueError) /\
  (kh = H + 1 -> kw <= Wd + 1 ->
   exists Zr self',
     Conv_layer.forward g X self = (Ok Zr, self') /\
     shape Zr = [s; 0; Wd + 1 - kw; Conv_layer.filters self] /\
     Conv_layer.A self' = Some X).
Proof.
  intros HX Hp Hst kh kw.
  apply String.eqb_neq in Hp.
  assert (Hgeo : Conv_layer.output_geometry self H Wd
                 = Ok (0%Z, 0%Z, (Z.of_nat H - Z.of_nat kh + 1)%Z,
                       (Z.of_nat Wd - Z.of_nat kw + 1)%Z)).
  { unfold Conv_layer.output_geometry, py_int_truediv.
    rewrite Hp, Hst. cbn [Z.eqb rbind]. rewrite !Z.quot_1_r. reflexivity. }
  split.
  - intros Hk. unfold Conv_layer.forward. rewrite HX.
    unfold bind, gets, modify, lift, ret; cbn [fst snd].
    cbn [Conv_layer.set_W Conv_layer.set_b Conv_layer.kernel_shape
         Conv_layer.filters].
    rewrite Hgeo. unfold np_zeros_z. cbn [forallb].
    replace (0 <=? Z.of_nat H - Z.of_nat kh + 1)%Z with false
      by (symmetry; apply Z.leb_gt; lia).
    rewrite andb_false_l, andb_false_r. reflexivity.
  - intros Hk Hkw.
    assert (HXp : exists Xp, pad_inputs X (0%Z, 0%Z) = Ok Xp /\
                             shape Xp = [s; H + 2 * 0; Wd + 2 * 0; C]).
    { unfold pad_inputs. rewrite HX. cbn [fst snd Z.leb Z.compare andb Z.to_nat].
      eexists; split; reflexivity. }
    destruct HXp as (Xp & HXp & HXps).
    assert (HnH : (Z.of_nat H - Z.of_nat kh + 1)%Z = 0%Z) by lia.
    assert (Hl : forall W0 b0 Z0,
               Conv_layer.forward_loops self W0 b0 Xp s
                 (Z.of_nat H - Z.of_nat kh + 1) (Z.of_nat Wd - Z.of_nat kw + 1) Z0
               = Ok Z0).
    { intros W0 b0 Z0. rewrite HnH. unfold Conv_layer.forward_loops.
      cut (forall l, (forall i, In i l -> i < s) ->
             for_loop l (fun i Zi =>
               (x <- np_getitem Xp [Ix i] ;;
                for_loop (py_range 0) (fun h Zh =>
                  for_loop (py_range (Z.of_nat Wd - Z.of_nat kw + 1)) (fun w Zw =>
                    for_loop (seq 0 (Conv_layer.filters self)) (fun c Zc =>
                      (v <- Conv_layer.forward_cell self W0 b0 x h w c ;;
                       np_setitem Zc [Ix i; Ix h; Ix w; Ix c] (np_scalar v))%py)
                    Zw) Zh) Zi)%py) Z0 = Ok Z0).
      { intros Hc. apply Hc. intros i Hi. apply in_seq in Hi. lia. }
      induction l as [|i l IH]; intros Hin; cbn [for_loop]; [reflexivity|].
      rewrite (@np_getitem_sample Xp s _ _ C i HXps) by (apply Hin; left; reflexivity).
      cbn [rbind py_range Z.to_nat seq for_loop].
      apply IH. intros j Hj. apply Hin. right. exact Hj. }
    eexists; eexists. split.
    + unfold Conv_layer.forward. rewrite HX.
      unfold bind, gets, modify, lift, ret; cbn [fst snd].
      cbn [Conv_layer.set_W Conv_layer.set_b Conv_layer.kernel_shape
           Conv_layer.filters].
      rewrite Hgeo. unfold np_zeros_z. cbn [forallb].
      replace (0 <=? Z.of_nat s)%Z with true by (symmetry; apply Z.leb_le; lia).
      replace (0 <=? Z.of_nat H - Z.of_nat kh + 1)%Z with true
        by (symmetry; apply Z.leb_le; lia).
      replace (0 <=? Z.of_nat Wd - Z.of_nat kw + 1)%Z with true
        by (symmetry; apply Z.leb_le; fold kw; lia).
      replace (0 <=? Z.of_nat (Conv_layer.filters self))%Z with true
        by (symmetry; apply Z.leb_le; lia).
      cbn [andb]. rewrite HXp, Hl. reflexivity.
    + split; [|reflexivity].
      cbn [np_zeros shape map]. rewrite !Nat2Z.id.
      f_equal. f_equal; [lia|]. f_equal. fold kw. lia.
Qed.

Lemma conv_forward_kernel_taller_witness :
  fst (Conv_layer.forward ones_glorot image_1x1 conv_3x3_valid) = Raise ValueError /\
  exists Zr self',
    Conv_layer.forward ones_glorot image_1x1 conv_2x2_valid = (Ok Zr, self') /\
    shape Zr = [1; 0; 0; 1] /\ Conv_layer.A self' = Some image_1x1.
Proof.
  split.
  - destruct (@conv_forward_kernel_taller ones_glorot image_1x1 conv_3x3_valid
                1 1 1 1 eq_refl ltac:(discriminate) eq_refl) as [Hbad _].
    apply Hbad. cbn. lia.
  - destruct (@conv_forward_kernel_taller ones_glorot image_1x1 conv_2x2_valid
                1 1 1 1 eq_refl ltac:(discriminate) eq_refl) as [_ Hempty].
    exact (Hempty eq_refl ltac:(cbn; lia)).
Defined.

Lemma backward_keeps_state (dY : ndarray) (learning_rate : Qc)
  (self : Conv_layer.obj) :
  cache_is_4d self ->
  snd (Conv_layer.backward dY learning_rate self) = self.
Proof.
  intros Hc. destruct (@backward_attribute_error dY learning_rate self Hc)
    as (name & Hb).
  rewrite Hb. reflexivity.
Qed.

Lemma reachable_cache_is_4d (self : Conv_layer.obj) :
  reachable self -> cache_is_4d self.
Proof.
  induction 1 as [filters kernel_shape padding stride | g X self _ IH
                 | dY lr self _ IH].
  - apply init_cache_is_4d.
  - apply forward_keeps_cache_4d. exact IH.
  - rewrite (@backward_keeps_state dY lr self IH). exact IH.
Qed.

(** X11. In every state a [Conv_layer] can reach from [__init__] by calls
    of [forward] and [backward], returned or raised, [backward] raises an
    [AttributeError] and leaves the instance exactly as it was: a layer of
    this class never produces a gradient and never updates [W] or [b]. *)
Theorem conv_backward_always_raises (dY : ndarray) (learning_rate : Qc)
  (self : Conv_layer.obj) :
  reachable self ->
  exists name,
    Conv_layer.backward dY learning_rate self
    = (Raise (AttributeError name), self).
Proof.
  intros Hr. apply backward_attribute_error.
  apply reachable_cache_is_4d. exact Hr.
Qed.

Lemma conv_backward_always_raises_witness :
  let fresh := Conv_layer.init 1 (3, 3) "same" 1 in
  let failed := snd (Conv_layer.forward ones_glorot batch_2x2x3 fresh) in
  let used := snd (Conv_layer.forward ones_glorot image_2x2 failed) in
  (exists name, Conv_layer.backward grad_two_1x1 half fresh
                = (Raise (AttributeError name), fresh)) /\
  (exists name, Conv_layer.backward image_2x2 half used
                = (Raise (AttributeError name), used)).
Proof.
  intros fresh failed used. split.
  - apply (@conv_backward_always_raises grad_two_1x1 half fresh).
    apply reach_init.
  - apply (@conv_backward_always_raises image_2x2 half used).
    apply reach_forward. apply reach_forward. apply reach_init.
Defined.

(** ** [Model]: layers behind references *)

Lemma for_loopM_rel {I S A : Type} (R : S -> S -> Prop) (l : list I)
  (body : I -> A -> M S A) (a : A) (s : S) :
  (forall s0, R s0 s0) ->
  (forall s1 s2 s3, R s1 s2 -> R s2 s3 -> R s1 s3) ->
  (forall x a0 s0, R s0 (snd (body x a0 s0))) ->
  R s (snd (for_loopM l body a s)).
Proof.
  intros Hrefl Htrans Hb. revert a s.
  induction l as [|x l IH]; intros a s; cbn [for_loopM].
  - apply Hrefl.
  - unfold bind. specialize (Hb x a s).
    destruct (body x a s) as [[a'|e] s']; cbn [snd] in *.
    + exact (Htrans _ _ _ Hb (IH a' s')).
    + exact Hb.
Qed.

Lemma for_loopM_raises {I S A : Type} (P : S -> Prop) (l : list I)
  (body : I -> A -> M S A) (x : I) (a : A) (s : S) :
  In x l -> P s ->
  (forall y a0 s0, P s0 -> P (snd (body y a0 s0))) ->
  (forall a0 s0, P s0 -> exists e, fst (body x a0 s0) = Raise e) ->
  exists e, fst (for_loopM l body a s) = Raise e.
Proof.
  intros Hx Hs Hp Hr. revert a s Hs.
  induction l as [|y l IH]; intros a s Hs; [destruct Hx|].
  cbn [for_loopM]. unfold bind.
  destruct Hx as [->|Hx].
  - destruct (Hr a s Hs) as (e & He).
    destruct (body x a s) as [[a'|e'] s']; cbn [fst] in He; [discriminate He|].
    exists e'. reflexivity.
  - pose proof (Hp y a s Hs) as Hs'.
    destruct (body y a s) as [[a'|e'] s']; cbn [snd] in Hs'.
    + exact (IH Hx a' s' Hs').
    + exists e'. reflexivity.
Qed.

Lemma nth_error_update_nth_eq {A : Type} (l : list A) (k : nat) (x v : A) :
  nth_error l k = Some x -> nth_error (update_nth k v l) k = Some v.
Proof.
  revert k; induction l as [|y l IH]; intros [|k] H; cbn in *;
    try discriminate H; [reflexivity | exact (IH k H)].
Qed.

Lemma nth_error_update_nth_neq {A : Type} (l : list A) (k k' : nat) (v : A) :
  k <> k' -> nth_error (update_nth k v l) k' = nth_error l k'.
Proof.
  revert k k'; induction l as [|y l IH]; intros [|k] [|k'] H; cbn;
    try reflexivity; [congruence | apply IH; congruence].
Qed.

Lemma update_nth_same {A : Type} (l : list A) (k : nat) (v : A) :
  nth_error l k = Some v -> update_nth k v l = l.
Proof.
  revert k; induction l as [|y l IH]; intros [|k] H; cbn in *;
    try discriminate H.
  - congruence.
  - f_equal. exact (IH k H).
Qed.

Lemma update_nth_Forall2 {A : Type} (R : A -> A -> Prop) (l : list A)
  (k : nat) (x v : A) :
  (forall y, R y y) -> nth_error l k = Some x -> R x v ->
  Forall2 R l (update_nth k v l).
Proof.
  intros Hrefl. revert k; induction l as [|y l IH]; intros [|k] H Hxv; cbn in *;
    try discriminate H.
  - injection H as ->. constructor; [exact Hxv|].
    clear - Hrefl. induction l; constructor; auto.
  - constructor; [apply Hrefl | exact (IH k H Hxv)].
Qed.

Lemma layer_kept_refl (l : Model.layer_obj) : layer_kept l l.
Proof. destruct l; cbn; repeat split. Qed.

Lemma layer_kept_trans (l1 l2 l3 : Model.layer_obj) :
  layer_kept l1 l2 -> layer_kept l2 l3 -> layer_kept l1 l3.
Proof.
  destruct l1, l2, l3; cbn; try tauto; intuition congruence.
Qed.

Lemma heap_kept_refl (h : list Model.layer_obj) : Forall2 layer_kept h h.
Proof. induction h; constructor; auto using layer_kept_refl. Qed.

Lemma heap_kept_trans (h1 h2 h3 : list Model.layer_obj) :
  Forall2 layer_kept h1 h2 -> Forall2 layer_kept h2 h3 ->
  Forall2 layer_kept h1 h3.
Proof.
  intros H12; revert h3; induction H12; intros h3 H23; inversion H23; subst;
    constructor; eauto using layer_kept_trans.
Qed.

Lemma model_kept_refl (s : Model.obj) : model_kept s s.
Proof. unfold model_kept; repeat split; apply heap_kept_refl. Qed.

Lemma model_kept_trans (s1 s2 s3 : Model.obj) :
  model_kept s1 s2 -> model_kept s2 s3 -> model_kept s1 s3.
Proof.
  unfold model_kept. intros (A1 & A2 & A3 & A4 & A5 & A6 & A7)
                            (B1 & B2 & B3 & B4 & B5 & B6 & B7).
  repeat split; try congruence. exact (heap_kept_trans A7 B7).
Qed.

Lemma fc_forward_keeps_parameters (X : ndarray) (o : FC.obj) :
  FC.weights (snd (FC.forward X o)) = FC.weights o /\
  FC.bias (snd (FC.forward X o)) = FC.bias o.
Proof.
  unfold FC.forward, bind, modify, gets, lift, ret.
  cbn [FC.set_input FC.weights FC.bias].
  destruct (rbind _ _); cbn; split; reflexivity.
Qed.

Lemma conv_forward_keeps_hyper (g : list nat -> ndarray * ndarray)
  (X : ndarray) (o : Conv_layer.obj) :
  let o' := snd (Conv_layer.forward g X o) in
  Conv_layer.stride o' = Conv_layer.stride o /\
  Conv_layer.kernel_shape o' = Conv_layer.kernel_shape o /\
  Conv_layer.padding o' = Conv_layer.padding o /\
  Conv_layer.filters o' = Conv_layer.filters o.
Proof.
  unfold Conv_layer.forward.
  destruct (shape X) as [|s [|H [|Wd [|C [|? ?]]]]] eqn:HX;
    try (unfold raise; cbn; repeat split; reflexivity).
  unfold bind, gets, modify, lift, ret; cbn [fst snd].
  destruct (Conv_layer.output_geometry _ H Wd) as [[[[ph pw] nH] nW]|e];
    [|cbn; repeat split; reflexivity].
  destruct (np_zeros_z _) as [Z0|e]; [|cbn; repeat split; reflexivity].
  destruct (pad_inputs X (ph, pw)) as [X_pad|e]; [|cbn; repeat split; reflexivity].
  destruct (Conv_layer.forward_loops _ _ _ _ _ _ _ _) as [Zr|e];
    cbn; repeat split; reflexivity.
Qed.

Lemma layer_forward_kept (g : nat -> list nat -> ndarray * ndarray) (d : nat)
  (l : Model.layer_obj) (X : ndarray) :
  layer_kept l (snd (fst (Model.layer_forward g d l X))).
Proof.
  destruct l as [o|o|o|o]; cbn [Model.layer_forward fst snd layer_kept].
  - apply fc_forward_keeps_parameters.
  - unfold ActivationLayer.forward, bind, modify, gets, lift, ret.
    cbn [ActivationLayer.set_input ActivationLayer.activation].
    destruct (ActivationLayer.activation o X); cbn; split; reflexivity.
  - exact I.
  - apply conv_forward_keeps_hyper.
Qed.

Lemma call_forward_kept (g : nat -> list nat -> ndarray * ndarray) (ref : nat)
  (X : ndarray) (s : Model.obj) :
  model_kept s (snd (Model.call_forward g ref X s)).
Proof.
  unfold Model.call_forward.
  destruct (nth_error (Model.heap s) ref) as [l|] eqn:Hl; cbn [snd].
  - unfold model_kept; cbn. repeat split.
    apply (@update_nth_Forall2 _ layer_kept _ _ l);
      [apply layer_kept_refl | exact Hl | apply layer_forward_kept].
  - apply model_kept_refl.
Qed.

Lemma forward_pass_kept (g : nat -> list nat -> ndarray * ndarray)
  (X : ndarray) (s : Model.obj) :
  model_kept s (snd (Model.forward_pass g X s)).
Proof.
  unfold Model.forward_pass, bind, gets.
  apply for_loopM_rel;
    [apply model_kept_refl | apply model_kept_trans | intros; apply call_forward_kept].
Qed.

Lemma predict_kept (g : nat -> list nat -> ndarray * ndarray)
  (input_data : ndarray) (s : Model.obj) :
  model_kept s (snd (Model.predict g input_data s)).
Proof.
  unfold Model.predict, bind at 1, lift.
  destruct (py_len input_data) as [samples|e]; [|apply model_kept_refl].
  apply for_loopM_rel;
    [apply model_kept_refl | apply model_kept_trans |].
  intros i result s0. unfold bind, lift, gets, ret.
  destruct (np_getitem input_data [Ix i]) as [X|e]; [|apply model_kept_refl].
  pose proof (forward_pass_kept g X s0) as Hk.
  destruct (Model.forward_pass g X s0) as [[X'|e] s1]; exact Hk.
Qed.

Lemma heap_kept_fc (h h' : list Model.layer_obj) (ref : nat) (o : FC.obj) :
  Forall2 layer_kept h h' ->
  nth_error h ref = Some (Model.FC_layer o) ->
  exists o', nth_error h' ref = Some (Model.FC_layer o') /\
             FC.weights o' = FC.weights o /\ FC.bias o' = FC.bias o.
Proof.
  intros Hk. revert ref. induction Hk as [|l l' h h' Hl Hk IH]; intros [|ref] Hn;
    cbn [nth_error] in *; try discriminate Hn.
  - injection Hn as ->. destruct l' as [o'| | |]; cbn in Hl; try contradiction.
    exists o'. split; [reflexivity | exact Hl].
  - exact (IH ref Hn).
Qed.

(** ** [Model.predict] (X12 - X15) *)

(** X12. [predict] trains nothing, whatever it returns or raises: the
    attributes of the model and the output are as before, every layer
    object keeps its class and its configuration, and every [FC] layer has
    the weights and the bias it had.  (What [predict] does overwrite are
    the caches of the layers, and [W] and [b] of a [Conv_layer].) *)
Theorem predict_keeps_parameters (g : nat -> list nat -> ndarray * ndarray)
  (input_data : ndarray) (s : Model.obj) :
  model_kept s (snd (Model.predict g input_data s)) /\
  forall ref o,
    nth_error (Model.heap s) ref = Some (Model.FC_layer o) ->
    exists o',
      nth_error (Model.heap (snd (Model.predict g input_data s))) ref
      = Some (Model.FC_layer o') /\
      FC.weights o' = FC.weights o /\ FC.bias o' = FC.bias o.
Proof.
  pose proof (predict_kept g input_data s) as Hk.
  split; [exact Hk|]. intros ref o Ho.
  destruct Hk as (_ & _ & _ & _ & _ & _ & Hh).
  exact (@heap_kept_fc _ _ ref o Hh Ho).
Qed.

Lemma for_loopM_append_length {I St B : Type} (l : list I)
  (body : I -> list B -> M St (list B)) (a r : list B) (s s' : St) :
  (forall x a0 s0 a1 s1, body x a0 s0 = (Ok a1, s1) -> length a1 = S (length a0)) ->
  for_loopM l body a s = (Ok r, s') -> length r = length a + length l.
Proof.
  intros Hb. revert a s. induction l as [|x l IH]; intros a s H; cbn [for_loopM] in H.
  - unfold ret in H. injection H as <- _. cbn. lia.
  - unfold bind in H. destruct (body x a s) as [[a1|e] s1] eqn:Hx; [|discriminate H].
    rewrite (IH _ _ H), (Hb _ _ _ _ _ Hx). cbn. lia.
Qed.

(** X13. When [predict] returns, the list it returns has one entry per
    sample: its length is the length of the first axis of the input. *)
Theorem predict_one_result_per_sample (g : nat -> list nat -> ndarray * ndarray)
  (input_data : ndarray) (rs : list ndarray) (s s' : Model.obj) :
  Model.predict g input_data s = (Ok rs, s') ->
  py_len input_data = Ok (length rs).
Proof.
  unfold Model.predict, bind at 1, lift.
  destruct (py_len input_data) as [samples|e]; [|discriminate].
  intros H. apply for_loopM_append_length in H.
  - rewrite H, length_seq. reflexivity.
  - clear. intros i a0 s0 a1 s1. unfold bind, lift, ret.
    destruct (np_getitem input_data [Ix i]) as [X|e]; [|discriminate].
    destruct (Model.forward_pass g X s0) as [[X'|e] s2]; [|discriminate].
    intros H; injection H as <- _. rewrite length_app. cbn. lia.
Qed.

Lemma predict_one_result_per_sample_witness :
  exists rs s',
    Model.predict ones_draws batch_2x2 model_fc = (Ok rs, s') /\ length rs = 2.
Proof.
  destruct (Model.predict ones_draws batch_2x2 model_fc) as [[rs|e] s'] eqn:Hp.
  - exists rs, s'. split; [reflexivity|].
    pose proof (@predict_one_result_per_sample ones_draws batch_2x2 rs model_fc
                  s' Hp) as H.
    cbn in H. injection H as H. symmetry. exact H.
  - apply (f_equal fst) in Hp. discriminate Hp.
Defined.

Lemma np_getitem_first (a : ndarray) (n i : nat) (sh : list nat) :
  shape a = n :: sh -> i < n ->
  np_getitem a [Ix i] = Ok (mk_nd sh (fun j => get a (i :: j))).
Proof.
  intros Hs Hi. unfold np_getitem. rewrite Hs. cbn [resolve].
  rewrite resolve1_Ix by exact Hi. reflexivity.
Qed.

Lemma model_state_eta (s : Model.obj) :
  Model.set_draws (Model.draws s) (Model.set_heap (Model.heap s) s) = s.
Proof. destruct s; reflexivity. Qed.

(** X15. [predict] hands the layers one sample at a time, without its
    batch axis.  When the first layer is a [Conv_layer] and the samples are
    not 4-d themselves (so for every 4-d batch of images), [predict] raises
    [ValueError] on the first sample and leaves the model and its layers
    exactly as they were. *)
Theorem predict_conv_first_raises (g : nat -> list nat -> ndarray * ndarray)
  (input_data : ndarray) (s : Model.obj) (ref n : nat) (rest sh : list nat)
  (o : Conv_layer.obj) :
  Model.layers s = ref :: rest ->
  nth_error (Model.heap s) ref = Some (Model.Conv o) ->
  shape input_data = n :: sh -> 0 < n -> length sh <> 4 ->
  Model.predict g input_data s = (Raise ValueError, s).
Proof.
  intros Hl Hr Hs Hn H4.
  unfold Model.predict, bind at 1, lift, py_len. rewrite Hs.
  destruct n as [|n]; [lia|]. cbn [seq for_loopM].
  unfold bind at 1. unfold bind at 1, lift.
  rewrite (@np_getitem_first input_data (S n) 0 sh Hs Hn).
  unfold bind at 1. unfold Model.forward_pass at 1, bind at 1, gets.
  rewrite Hl. cbn [for_loopM]. unfold bind at 1.
  unfold Model.call_forward at 1. rewrite Hr. cbn [Model.layer_forward fst snd].
  rewrite conv_forward_needs_4d by exact H4. cbn [fst snd shape].
  destruct (Nat.eqb_spec (length sh) 4) as [E|_]; [contradiction|].
  rewrite (update_nth_same _ _ Hr), model_state_eta. reflexivity.
Qed.


Lemma predict_conv_first_raises_witness :
  Model.predict ones_draws image_4x4 model_conv = (Raise ValueError, model_conv).
Proof.
  apply (@predict_conv_first_raises ones_draws image_4x4 model_conv 0 1 []
           [4; 4; 1] conv_1x1_valid eq_refl eq_refl eq_refl); cbn; lia.
Defined.

Lemma np_add_vector_row (a b : ndarray) (n : nat) :
  shape a = [n] -> shape b = [1; n] ->
  exists r, np_add a b = Ok r /\ shape r = [1; n] /\
            forall j, j < n ->
                      get r [0; j] = (get a [j]%nat + get b [0; j]%nat)%Qc.
Proof.
  intros Ha Hb. unfold np_add, np_binop, broadcast_shapes.
  rewrite Ha, Hb. cbn [rev app bcast_rev]. rewrite Nat.eqb_refl.
  cbn [option_map rev app].
  eexists; split; [reflexivity|]. split; [reflexivity|].
  intros j Hj. cbn [get]. unfold bcast_index.
  cbn [length Nat.sub skipn combine map fst snd Nat.eqb].
  destruct (Nat.eqb_spec n 1) as [Hn|Hn]; [|reflexivity].
  replace j with 0 by lia. reflexivity.
Qed.

Lemma np_dot_vector_matrix (a b : ndarray) (k n : nat) :
  shape a = [k] -> shape b = [k; n] ->
  exists r, np_dot a b = Ok r /\ shape r = [n] /\
            forall j, get r [j]
                      = qsum k (fun t => (get a [t] * get b [t; j])%Qc).
Proof.
  intros Ha Hb. unfold np_dot. rewrite Ha, Hb.
  cbn [length Nat.sub last nth removelast firstn skipn app].
  rewrite Nat.eqb_refl.
  eexists; split; [reflexivity|]. split; [reflexivity|].
  intros j; reflexivity.
Qed.

Lemma fc_forward_vector (self : FC.obj) (x : ndarray) (n_in n_out : nat) :
  shape x = [n_in] ->
  shape (FC.weights self) = [n_in; n_out] ->
  shape (FC.bias self) = [1; n_out] ->
  exists y,
    FC.forward x self = (Ok y, FC.set_output y (FC.set_input x self)) /\
    shape y = [1; n_out] /\
    forall j, j < n_out ->
      get y [0; j]
      = (qsum n_in (fun k => get x [k]%nat * get (FC.weights self) [k; j]%nat)
         + get (FC.bias self) [0; j]%nat)%Qc.
Proof.
  intros Hx HW Hb.
  destruct (@np_dot_vector_matrix x (FC.weights self) n_in n_out Hx HW)
    as (xw & Hxw & Hxws & Hxwg).
  destruct (@np_add_vector_row xw (FC.bias self) n_out Hxws Hb)
    as (y & Hy & Hys & Hyg).
  exists y. split.
  - unfold FC.forward, bind, modify, gets, lift, ret, rbind.
    cbn [FC.set_input FC.weights FC.bias]. rewrite Hxw, Hy. reflexivity.
  - split; [exact Hys|]. intros j Hj.
    rewrite (Hyg j Hj), Hxwg. reflexivity.
Qed.

Lemma predict_fc_sample (g : nat -> list nat -> ndarray * ndarray)
  (X W b : ndarray) (ref m n_in n_out i : nat) (s : Model.obj) :
  shape X = [m; n_in] -> shape W = [n_in; n_out] -> shape b = [1; n_out] ->
  fc_model ref W b s -> i < m ->
  exists y s',
    bind (lift (np_getitem X [Ix i])) (Model.forward_pass g) s = (Ok y, s') /\
    fc_model ref W b s' /\ affine_row X W b n_in n_out i y.
Proof.
  intros HX HW Hb (Hl & o & Ho & HoW & Hob) Hi.
  unfold bind at 1, lift. rewrite (@np_getitem_first X m i [n_in] HX Hi).
  unfold Model.forward_pass, bind at 1, gets. rewrite Hl. cbn [for_loopM].
  unfold bind at 1. unfold Model.call_forward. rewrite Ho.
  cbn [Model.layer_forward fst snd].
  destruct (@fc_forward_vector o (mk_nd [n_in] (fun j => get X (i :: j)))
              n_in n_out eq_refl) as (y & Hy & Hys & Hyg);
    [congruence | congruence |].
  rewrite Hy. cbn [fst snd]. unfold ret.
  eexists; eexists; split; [reflexivity|]. split.
  - split; [exact Hl|]. eexists; split.
    + cbn [Model.heap Model.set_draws Model.set_heap].
      exact (nth_error_update_nth_eq _ _ _ Ho).
    + cbn [FC.weights FC.bias FC.set_output FC.set_input]. split; assumption.
  - split; [exact Hys|]. intros j Hj. rewrite (Hyg j Hj).
    cbn [get]. rewrite HoW, Hob. reflexivity.
Qed.

Lemma predict_fc_loop (g : nat -> list nat -> ndarray * ndarray)
  (X W b : ndarray) (ref m n_in n_out : nat) :
  shape X = [m; n_in] -> shape W = [n_in; n_out] -> shape b = [1; n_out] ->
  forall (len start : nat) (acc : list ndarray) (s : Model.obj),
  fc_model ref W b s -> start + len <= m ->
  exists rs s',
    for_loopM (seq start len) (fun i result =>
      bind (lift (np_getitem X [Ix i])) (fun x =>
        bind (Model.forward_pass g x) (fun X' =>
          ret (result ++ [X'])))) acc s = (Ok (acc ++ rs), s') /\
    fc_model ref W b s' /\ length rs = len /\
    forall k, k < len -> affine_row X W b n_in n_out (start + k) (nth k rs X).
Proof.
  intros HX HW Hb len.
  induction len as [|len IH]; intros start acc s Hs Hle.
  - exists [], s. cbn [seq for_loopM]. unfold ret. rewrite app_nil_r.
    split; [reflexivity|]. split; [exact Hs|]. split; [reflexivity|].
    intros k Hk; lia.
  - cbn [seq for_loopM].
    destruct (@predict_fc_sample g X W b ref m n_in n_out start s HX HW Hb Hs)
      as (y & s1 & Hy & Hs1 & Hrow); [lia|].
    unfold bind at 1.
    assert (E : bind (lift (np_getitem X [Ix start])) (fun x =>
                  bind (Model.forward_pass g x) (fun X' =>
                    ret (acc ++ [X']))) s = (Ok (acc ++ [y]), s1)).
    { revert Hy. unfold bind, lift, ret.
      destruct (np_getitem X [Ix start]) as [x|e]; [|discriminate].
      destruct (Model.forward_pass g x s) as [[X'|e] s2]; [|discriminate].
      intros H; injection H as -> ->. reflexivity. }
    rewrite E.
    destruct (IH (S start) (acc ++ [y]) s1 Hs1) as (rs & s' & Hrs & Hs' & Hlen & Hrows);
      [lia|].
    exists (y :: rs), s'. split; [|split; [exact Hs'|split]].
    + rewrite Hrs, <- app_assoc. reflexivity.
    + cbn. lia.
    + intros [|k] Hk; cbn [nth].
      * rewrite Nat.add_0_r. exact Hrow.
      * replace (start + S k) with (S start + k) by lia. apply Hrows. lia.
Qed.



(** X14. On a model whose only layer is an [FC] layer with weights of shape
    [(n_in, n_out)] and a bias of shape [(1, n_out)], [predict] on a batch
    of shape [(m, n_in)] returns a list of [m] arrays; the entry [i] has
    shape [(1, n_out)] and holds the row [X[i] . W + b], the row [i] of what
    [forward] gives on the whole batch. *)
Theorem predict_fc_rows (g : nat -> list nat -> ndarray * ndarray)
  (X : ndarray) (s : Model.obj) (ref : nat) (o : FC.obj) (m n_in n_out : nat) :
  Model.layers s = [ref] ->
  nth_error (Model.heap s) ref = Some (Model.FC_layer o) ->
  shape X = [m; n_in] ->
  shape (FC.weights o) = [n_in; n_out] ->
  shape (FC.bias o) = [1; n_out] ->
  exists rs s',
    Model.predict g X s = (Ok rs, s') /\ length rs = m /\
    forall i, i < m ->
      exists y, nth_error rs i = Some y /\ shape y = [1; n_out] /\
        forall j, j < n_out ->
          get y [0; j]
          = (qsum n_in (fun k => get X [i; k]%nat * get (FC.weights o) [k; j]%nat)
             + get (FC.bias o) [0; j]%nat)%Qc.
Proof.
  intros Hl Ho HX HW Hb.
  assert (Hs : fc_model ref (FC.weights o) (FC.bias o) s).
  { split; [exact Hl|]. exists o. repeat split. exact Ho. }
  unfold Model.predict, bind at 1, lift, py_len. rewrite HX.
  destruct (@predict_fc_loop g X (FC.weights o) (FC.bias o) ref m n_in n_out
              HX HW Hb m 0 [] s Hs) as (rs & s' & Hrs & _ & Hlen & Hrows); [lia|].
  exists rs, s'. split; [exact Hrs|]. split; [exact Hlen|].
  intros i Hi. exists (nth i rs X). split.
  - apply nth_error_nth'. lia.
  - exact (Hrows i Hi).
Qed.

Lemma predict_fc_rows_witness :
  exists rs s' y,
    Model.predict ones_draws batch_2x2 model_fc = (Ok rs, s') /\ length rs = 2 /\
    nth_error rs 1 = Some y /\ shape y = [1; 1] /\ get y [0; 0] = Q2Qc 5.
Proof.
  destruct (@predict_fc_rows ones_draws batch_2x2 model_fc 0 fc_2x1 2 2 1
              eq_refl eq_refl eq_refl eq_refl eq_refl)
    as (rs & s' & Hp & Hl & Hrows).
  destruct (Hrows 1 ltac:(lia)) as (y & Hy & Hs & Hg).
  exists rs, s', y. split; [exact Hp|]. split; [exact Hl|].
  split; [exact Hy|]. split; [exact Hs|].
  rewrite (Hg 0 ltac:(lia)). apply Qc_is_canon. vm_compute. reflexivity.
Defined.

(** ** [Model.train] and [Model.fit] (X16 - X22) *)

Lemma call_forward_conv_at (g : nat -> list nat -> ndarray * ndarray)
  (ref r : nat) (X : ndarray) (s : Model.obj) :
  conv_at ref s -> conv_at ref (snd (Model.call_forward g r X s)).
Proof.
  intros (o & Ho & Hc). unfold Model.call_forward, conv_at.
  destruct (nth_error (Model.heap s) r) as [l|] eqn:Hl; cbn [snd];
    [|exists o; split; assumption].
  cbn [Model.heap Model.set_draws Model.set_heap].
  destruct (Nat.eq_dec r ref) as [->|Hne].
  - rewrite (nth_error_update_nth_eq _ _ _ Hl).
    rewrite Ho in Hl; injection Hl as <-. cbn [Model.layer_forward fst snd].
    eexists; split; [reflexivity|]. apply forward_keeps_cache_4d. exact Hc.
  - rewrite (nth_error_update_nth_neq _ _ Hne). exists o; split; assumption.
Qed.

Lemma call_backward_conv_at (lr : Qc) (ref r : nat) (dY : ndarray)
  (s : Model.obj) :
  conv_at ref s -> conv_at ref (snd (Model.call_backward lr r dY s)).
Proof.
  intros (o & Ho & Hc). unfold Model.call_backward, conv_at.
  destruct (nth_error (Model.heap s) r) as [l|] eqn:Hl; cbn [snd];
    [|exists o; split; assumption].
  cbn [Model.heap Model.set_heap].
  destruct (Nat.eq_dec r ref) as [->|Hne].
  - rewrite (nth_error_update_nth_eq _ _ _ Hl).
    rewrite Ho in Hl; injection Hl as <-. cbn [Model.layer_backward fst snd].
    destruct (@backward_attribute_error dY lr o Hc) as (name & Hb).
    rewrite Hb. cbn [snd]. exists o; split; [reflexivity | exact Hc].
  - rewrite (nth_error_update_nth_neq _ _ Hne). exists o; split; assumption.
Qed.

Lemma call_backward_conv_raises (lr : Qc) (ref : nat) (dY : ndarray)
  (s : Model.obj) :
  conv_at ref s -> exists e, fst (Model.call_backward lr ref dY s) = Raise e.
Proof.
  intros (o & Ho & Hc). unfold Model.call_backward. rewrite Ho.
  cbn [Model.layer_backward fst snd].
  destruct (@backward_attribute_error dY lr o Hc) as (name & Hb).
  rewrite Hb. eexists; reflexivity.
Qed.

Lemma forward_pass_conv_at (g : nat -> list nat -> ndarray * ndarray)
  (ref : nat) (X : ndarray) (s : Model.obj) :
  conv_at ref s ->
  conv_at ref (snd (Model.forward_pass g X s)).
Proof.
  unfold Model.forward_pass, bind, gets.
  apply (@for_loopM_rel _ _ _ (fun s0 s1 => conv_at ref s0 -> conv_at ref s1)).
  - auto.
  - auto.
  - intros r a0 s0. apply call_forward_conv_at.
Qed.

Lemma train_raises_with_conv (g : nat -> list nat -> ndarray * ndarray)
  (X Y : ndarray) (lr : Qc) (ref : nat) (s : Model.obj) :
  In ref (Model.layers s) -> conv_at ref s ->
  exists e, fst (Model.train g X Y lr s) = Raise e.
Proof.
  intros Hin Hc. unfold Model.train.
  unfold bind at 1.
  pose proof (@forward_pass_conv_at g ref X s Hc) as Hc1.
  pose proof (forward_pass_kept g X s) as (_ & Hl1 & _).
  destruct (Model.forward_pass g X s)
    as [[X'|e] s1]; cbn [snd] in *; [|exists e; reflexivity].
  unfold bind at 1, gets. unfold bind at 1, Model.callable.
  destruct (Model.loss s1) as [l|]; [|eexists; reflexivity].
  unfold bind at 1, lift.
  destruct (l Y X') as [v|e]; [|exists e; reflexivity].
  unfold bind at 1, modify. unfold bind at 1.
  cbn [Model.loss_prime Model.set_err].
  destruct (Model.loss_prime s1) as [lp|]; [|eexists; reflexivity].
  unfold bind at 1.
  destruct (lp Y X') as [error|e]; [|exists e; reflexivity].
  unfold bind at 1. cbn [Model.layers Model.set_err]. rewrite Hl1.
  unfold bind.
  destruct (@for_loopM_raises _ _ _ (conv_at ref) (rev (Model.layers s))
              (Model.call_backward lr) ref error
              (Model.set_err (PyFloat (pynum_value (Model.err s1) + v)) s1))
    as (e & He).
  - apply in_rev in Hin. exact Hin.
  - exact Hc1.
  - intros r a0 s0. apply call_backward_conv_at.
  - intros a0 s0. apply call_backward_conv_raises.
  - destruct (for_loopM _ _ error _) as [[a|e'] s2]; cbn [fst] in He;
      [discriminate He | exists e'; reflexivity].
Qed.

(** X16. A model that holds a [Conv_layer] among its layers cannot be
    trained: [train] never returns.  Whatever the other layers and the loss
    do, the backward pass reaches the [Conv_layer], whose [backward] raises
    (if nothing has raised before). *)
Theorem train_with_conv_raises (g : nat -> list nat -> ndarray * ndarray)
  (X Y : ndarray) (lr : Qc) (ref : nat) (s : Model.obj) :
  In ref (Model.layers s) -> conv_at ref s ->
  exists e, fst (Model.train g X Y lr s) = Raise e.
Proof. apply train_raises_with_conv. Qed.

Lemma train_with_conv_raises_witness :
  exists e, fst (Model.train ones_draws image_1x1 image_1x1 half model_conv)
            = Raise e.
Proof.
  apply (@train_with_conv_raises ones_draws image_1x1 image_1x1 half 0 model_conv).
  - left; reflexivity.
  - exists conv_1x1_valid. split; [reflexivity | exact I].
Defined.

(** X21. Before [use] has set a loss, [train] raises: it runs the forward
    pass, and if that returns, calling the loss [None] is a [TypeError].
    No backward pass has run: the error accumulator, and the weights and
    the bias of every [FC] layer, are as before. *)
Theorem train_without_loss (g : nat -> list nat -> ndarray * ndarray)
  (X Y : ndarray) (lr : Qc) (s : Model.obj) :
  Model.loss s = None ->
  exists e s',
    Model.train g X Y lr s = (Raise e, s') /\ model_kept s s' /\
    forall out, fst (Model.forward_pass g X s) = Ok out -> e = TypeError.
Proof.
  intros Hn. unfold Model.train.
  unfold bind at 1.
  pose proof (forward_pass_kept g X s) as Hk.
  destruct (Model.forward_pass g X s)
    as [[X'|e] s1]; cbn [fst snd] in *.
  - unfold bind at 1, gets. unfold bind at 1, Model.callable.
    destruct Hk as (K1 & K2 & K3 & K4 & K5 & K6 & K7).
    rewrite K4, Hn. exists TypeError, s1. split; [reflexivity|].
    split; [|reflexivity].
    unfold model_kept. repeat split; assumption.
  - exists e, s1. split; [reflexivity|]. split; [exact Hk|].
    intros out Hout. discriminate Hout.
Qed.

Lemma train_without_loss_witness :
  exists s',
    Model.train ones_draws batch_2x2 grad_2x1 half model_fc_no_loss
    = (Raise TypeError, s') /\ model_kept model_fc_no_loss s'.
Proof.
  destruct (@train_without_loss ones_draws batch_2x2 grad_2x1 half
              model_fc_no_loss eq_refl) as (e & s' & Ht & Hk & He).
  destruct (Model.forward_pass ones_draws batch_2x2 model_fc_no_loss)
    as [[out|e0] s1] eqn:Hf.
  - rewrite (He out eq_refl) in Ht. exists s'. split; [exact Ht | exact Hk].
  - apply (f_equal fst) in Hf. discriminate Hf.
Defined.

Lemma fit_step_raises_with_conv (g : nat -> list nat -> ndarray * ndarray)
  (x_train y_train : ndarray) (idx : pyindex) (rows : nat) (lr : Qc)
  (ref : nat) (s : Model.obj) :
  In ref (Model.layers s) -> conv_at ref s ->
  exists e, fst (Model.fit_step g x_train y_train idx rows lr s) = Raise e.
Proof.
  intros Hin Hc. unfold Model.fit_step, bind, lift.
  destruct (py_set_first (shape x_train) rows) as [sh_x|e]; [|exists e; reflexivity].
  destruct (rbind (np_getitem x_train [idx; All]) _) as [X|e]; [|exists e; reflexivity].
  destruct (py_set_first (shape y_train) rows) as [sh_y|e]; [|exists e; reflexivity].
  destruct (rbind (np_getitem y_train [idx; All]) _) as [Y|e]; [|exists e; reflexivity].
  exact (@train_raises_with_conv g X Y lr ref s Hin Hc).
Qed.

Lemma for_loopM_head_raises {I St A : Type} (x : I) (l : list I)
  (body : I -> A -> M St A) (a : A) (s : St) :
  (exists e, fst (body x a s) = Raise e) ->
  exists e, fst (for_loopM (x :: l) body a s) = Raise e.
Proof.
  intros (e & He). cbn [for_loopM]. unfold bind.
  destruct (body x a s) as [[a'|e'] s']; cbn [fst] in He; [discriminate He|].
  exists e'. reflexivity.
Qed.

Lemma py_range_pos (n : Z) : (0 < n)%Z -> py_range n = 0 :: seq 1 (Z.to_nat n - 1).
Proof.
  intros Hn. unfold py_range.
  destruct (Z.to_nat n) as [|k] eqn:E; [lia|].
  cbn [seq]. rewrite Nat.sub_succ, Nat.sub_0_r. reflexivity.
Qed.

(** X17. In the ['online'] and ['batch'] modes, [fit] with at least one
    epoch on a model that holds a [Conv_layer] among its layers never
    returns, whatever the training data: it raises. *)
Theorem fit_with_conv_raises (g : nat -> list nat -> ndarray * ndarray)
  (x_train y_train : ndarray) (epochs : Z) (lr : Qc) (ref : nat)
  (s : Model.obj) :
  Model.training_method s = "online"%string \/
  Model.training_method s = "batch"%string ->
  (0 < epochs)%Z ->
  In ref (Model.layers s) -> conv_at ref s ->
  exists e, fst (Model.fit g x_train y_train epochs lr s) = Raise e.
Proof.
  intros Hm He Hin Hc. unfold Model.fit.
  unfold bind at 1, lift.
  destruct (py_len x_train) as [samples|e]; [|exists e; reflexivity].
  rewrite (py_range_pos He). apply for_loopM_head_raises.
  unfold Model.fit_epoch.
  unfold bind at 1, modify. unfold bind at 1, gets.
  cbn [Model.training_method Model.set_err].
  set (s0 := Model.set_err (PyInt 0) s).
  assert (Hin0 : In ref (Model.layers s0)) by exact Hin.
  assert (Hc0 : conv_at ref s0) by exact Hc.
  clearbody s0. unfold bind at 1.
  destruct Hm as [Hm|Hm]; rewrite Hm.
  - cbn [String.eqb Ascii.eqb Bool.eqb].
    destruct samples as [|n].
    + cbn [seq for_loopM]. unfold ret. unfold bind, gets, lift, pynum_div.
      cbn [Nat.eqb]. eexists; reflexivity.
    + cbn [seq].
      destruct (@for_loopM_head_raises _ _ _ 0 (seq 1 n)
                  (fun j (_ : unit) =>
                     Model.fit_step g x_train y_train (Ix j) 1 lr) tt s0)
        as (e & Hr).
      { exact (@fit_step_raises_with_conv g x_train y_train (Ix 0) 1 lr ref s0
                 Hin0 Hc0). }
      destruct (for_loopM _ _ tt s0) as [[a|e'] s1]; cbn [fst] in Hr;
        [discriminate Hr | exists e'; reflexivity].
  - cbn [String.eqb Ascii.eqb Bool.eqb].
    unfold bind at 1, lift, py_truediv. cbn [Z.eqb rbind].
    destruct (py_max (PyInt 1) _) as [z|q] eqn:Hmax.
    + assert (z = 1%Z) as ->.
      { revert Hmax. unfold py_max. destruct (_ ?= _)%Qc; intros H;
          try discriminate H; injection H as <-; reflexivity. }
      unfold bind at 1, py_range_num. cbn [py_range Z.to_nat Pos.to_nat Pos.iter_op seq].
      destruct (@for_loopM_head_raises _ _ _ 0 []
                  (fun j (_ : unit) =>
                     Model.fit_step g x_train y_train
                       (Sl (Z.of_nat j * 100)
                           (Z.min (Z.of_nat samples) (Z.of_nat j * 100 + 100)))
                       (Z.to_nat (Z.min (Z.of_nat samples) (Z.of_nat j * 100 + 100)
                                  - Z.of_nat j * 100)) lr) tt s0)
        as (e & Hr).
      { apply (@fit_step_raises_with_conv g x_train y_train _ _ lr ref s0 Hin0 Hc0). }
      destruct (for_loopM _ _ tt s0) as [[a|e'] s1]; cbn [fst] in Hr;
        [discriminate Hr | exists e'; reflexivity].
    + unfold bind at 1, py_range_num. eexists; reflexivity.
Qed.


Lemma fit_with_conv_raises_witness :
  exists e, fst (Model.fit ones_draws image_1x1 image_1x1 1 half model_conv)
            = Raise e.
Proof.
  apply (@fit_with_conv_raises ones_draws image_1x1 image_1x1 1%Z half 0
           model_conv).
  - left; reflexivity.
  - lia.
  - left; reflexivity.
  - exists conv_1x1_valid. split; [reflexivity | exact I].
Defined.

Lemma batches_over_100 (n : nat) :
  100 < n ->
  exists q, py_truediv (Z.of_nat n) 100 = Ok (PyFloat q) /\
            py_max (PyInt 1) (PyFloat q) = PyFloat q.
Proof.
  intros Hn. unfold py_truediv. cbn [Z.eqb].
  eexists; split; [reflexivity|].
  unfold py_max. cbn [pynum_value].
  assert (H : (Q2Qc (inject_Z 1)
               < Q2Qc (inject_Z (Z.of_nat n)) / Q2Qc (inject_Z 100))%Qc).
  { change (Qlt (this (Q2Qc (inject_Z 1)))
                 (this (Q2Qc (inject_Z (Z.of_nat n)) / Q2Qc (inject_Z 100))%Qc)).
    unfold Qcdiv, Qcmult, Qcinv. cbn [this Q2Qc]. rewrite !Qred_correct.
    unfold Qlt, Qmult, Qinv, inject_Z. cbn [Qnum Qden]. lia. }
  rewrite (proj1 (Qclt_alt _ _) H). reflexivity.
Qed.

(** X18. In the ['batch'] mode with more than 100 samples, the number of
    batches [max(1, samples/100)] is a float and [range] refuses it: [fit]
    raises [TypeError] in the first epoch, having only reset the error
    accumulator; no layer has been called. *)
Theorem fit_batch_over_100 (g : nat -> list nat -> ndarray * ndarray)
  (x_train y_train : ndarray) (epochs : Z) (lr : Qc) (n : nat) (sh : list nat)
  (s : Model.obj) :
  Model.training_method s = "batch"%string ->
  shape x_train = n :: sh -> 100 < n -> (0 < epochs)%Z ->
  Model.fit g x_train y_train epochs lr s
  = (Raise TypeError, Model.set_err (PyInt 0) s).
Proof.
  intros Hm Hs Hn He. unfold Model.fit.
  unfold bind at 1, lift, py_len. rewrite Hs.
  rewrite (py_range_pos He). cbn [for_loopM].
  unfold bind at 1. unfold Model.fit_epoch.
  unfold bind at 1, modify. unfold bind at 1, gets.
  cbn [Model.training_method Model.set_err]. rewrite Hm.
  cbn [String.eqb Ascii.eqb Bool.eqb].
  unfold bind at 1. unfold bind at 1, lift.
  destruct (batches_over_100 Hn) as (q & Hq & Hmax).
  rewrite Hq. cbn [rbind]. rewrite Hmax.
  unfold bind at 1, py_range_num. reflexivity.
Qed.

Lemma fit_batch_over_100_witness :
  Model.fit ones_draws (np_zeros [101; 2]) (np_zeros [101; 1]) 3 half
    model_fc_batch
  = (Raise TypeError, Model.set_err (PyInt 0) model_fc_batch).
Proof.
  apply (@fit_batch_over_100 ones_draws (np_zeros [101; 2]) (np_zeros [101; 1])
           3%Z half 101 [2] model_fc_batch eq_refl eq_refl); lia.
Defined.

(** X20. With training data of length zero and a training method other
    than ['batch'], the first epoch trains nothing and the average
    [0 / 0] raises [ZeroDivisionError]; only the error accumulator has
    been reset. *)
Theorem fit_no_samples (g : nat -> list nat -> ndarray * ndarray)
  (x_train y_train : ndarray) (epochs : Z) (lr : Qc) (sh : list nat)
  (s : Model.obj) :
  Model.training_method s <> "batch"%string ->
  shape x_train = 0 :: sh -> (0 < epochs)%Z ->
  Model.fit g x_train y_train epochs lr s
  = (Raise ZeroDivisionError, Model.set_err (PyInt 0) s).
Proof.
  intros Hm Hs He. unfold Model.fit.
  unfold bind at 1, lift, py_len. rewrite Hs.
  rewrite (py_range_pos He). cbn [for_loopM].
  unfold bind at 1. unfold Model.fit_epoch.
  unfold bind at 1, modify. unfold bind at 1, gets.
  cbn [Model.training_method Model.set_err].
  apply String.eqb_neq in Hm. rewrite Hm.
  unfold bind at 1.
  destruct (String.eqb (Model.training_method s) "online");
    cbn [seq for_loopM]; unfold ret;
    unfold bind, gets, lift, pynum_div; cbn [Nat.eqb]; reflexivity.
Qed.

Lemma fit_no_samples_witness :
  Model.fit ones_draws (np_zeros [0; 2]) (np_zeros [0; 1]) 1 half model_fc
  = (Raise ZeroDivisionError, Model.set_err (PyInt 0) model_fc).
Proof.
  apply (@fit_no_samples ones_draws (np_zeros [0; 2]) (np_zeros [0; 1]) 1%Z half
           [2] model_fc); [discriminate | reflexivity | lia].
Defined.

Lemma zero_error (n : nat) :
  pynum_div (PyInt 0) (S n) = Ok (PyFloat 0%Qc).
Proof.
  unfold pynum_div. cbn [Nat.eqb pynum_value].
  do 2 f_equal. apply Qc_is_canon. reflexivity.
Qed.

Lemma fit_unknown_method_loop (g : nat -> list nat -> ndarray * ndarray)
  (x_train y_train : ndarray) (epochs : Z) (lr : Qc) (n : nat)
  (l : list nat) (s : Model.obj) :
  Model.training_method s <> "online"%string ->
  Model.training_method s <> "batch"%string ->
  for_loopM l (fun i (_ : unit) =>
    Model.fit_epoch g x_train y_train (S n) epochs lr i) tt s
  = (Ok tt,
     Model.mk (Model.training_method s) (Model.layers s)
       (match l with [] => Model.err s | _ => PyFloat 0%Qc end)
       (Model.loss s) (Model.loss_prime s) (Model.heap s) (Model.draws s)
       (Model.stdout s
        ++ map (fun i => (Z.of_nat i + 1, epochs, 0%Qc)%Z) l)).
Proof.
  intros Ho Hb. apply String.eqb_neq in Ho, Hb.
  revert s Ho Hb. induction l as [|i l IH]; intros s Ho Hb.
  - cbn [for_loopM map]. unfold ret. rewrite app_nil_r. destruct s; reflexivity.
  - cbn [for_loopM]. unfold bind at 1. unfold Model.fit_epoch at 1.
    unfold bind at 1, modify. unfold bind at 1, gets.
    cbn [Model.training_method Model.set_err]. rewrite Ho, Hb.
    unfold bind at 1, ret. unfold bind at 1.
    cbn [Model.err Model.set_err].
    unfold bind at 1, lift. rewrite zero_error.
    unfold bind at 1. cbn [pynum_value].
    rewrite IH by (cbn; assumption).
    cbn [Model.training_method Model.layers Model.err Model.loss Model.loss_prime
         Model.heap Model.draws Model.stdout Model.set_err Model.print map].
    rewrite <- app_assoc. cbn [app].
    destruct l; reflexivity.
Qed.

(** X19. A training method that is neither ['online'] nor ['batch'] is not
    reported: with at least one sample, [fit] returns after printing one
    line per epoch, each with error zero, and has called no layer; the
    layers, and the number of draws made, are as before. *)
Theorem fit_unknown_method (g : nat -> list nat -> ndarray * ndarray)
  (x_train y_train : ndarray) (epochs : Z) (lr : Qc) (n : nat) (sh : list nat)
  (s : Model.obj) :
  Model.training_method s <> "online"%string ->
  Model.training_method s <> "batch"%string ->
  shape x_train = S n :: sh ->
  exists s',
    Model.fit g x_train y_train epochs lr s = (Ok tt, s') /\
    Model.heap s' = Model.heap s /\
    Model.draws s' = Model.draws s /\
    Model.layers s' = Model.layers s /\
    ((0 < epochs)%Z -> Model.err s' = PyFloat 0%Qc) /\
    Model.stdout s'
    = Model.stdout s
      ++ map (fun i => (Z.of_nat i + 1, epochs, 0%Qc)%Z) (py_range epochs).
Proof.
  intros Ho Hb Hs. unfold Model.fit.
  unfold bind at 1, lift, py_len. rewrite Hs.
  rewrite (@fit_unknown_method_loop g x_train y_train epochs lr n
             (py_range epochs) s Ho Hb).
  eexists; split; [reflexivity|]. cbn. repeat split.
  intros He. rewrite (py_range_pos He). reflexivity.
Qed.

Lemma fit_unknown_method_witness :
  exists s',
    Model.fit ones_draws batch_2x2 grad_2x1 2 half model_fc_minibatch = (Ok tt, s') /\
    Model.heap s' = Model.heap model_fc_minibatch /\
    Model.stdout s' = [(1, 2, 0%Qc); (2, 2, 0%Qc)]%Z.
Proof.
  destruct (@fit_unknown_method ones_draws batch_2x2 grad_2x1 2%Z half 1 [2]
              model_fc_minibatch ltac:(discriminate) ltac:(discriminate) eq_refl)
    as (s' & Hf & Hh & _ & _ & _ & Ho).
  exists s'. split; [exact Hf|]. split; [exact Hh | exact Ho].
Defined.

Ltac model_step :=
  cbn [Model.training_method Model.layers Model.err Model.loss Model.loss_prime
       Model.heap Model.draws Model.stdout Model.set_err Model.set_heap
       Model.set_draws Model.set_layers Model.set_loss Model.print].

(** X22. On a model whose only layer is an [FC] layer, with a loss and a
    loss gradient that accept the output, [train] on a batch of [m > 0]
    samples returns after one gradient step: the loss of the output [X . W + b] has been added to the
    error accumulator, and the weights and the bias have moved by [- lr]
    times [X^T . dY / m] and the column means of [dY], where [dY] is the
    loss gradient at the output. *)
Theorem train_fc_step (g : nat -> list nat -> ndarray * ndarray)
  (X Y : ndarray) (lr : Qc) (s : Model.obj) (ref : nat) (o : FC.obj)
  (l : ndarray -> ndarray -> result Qc)
  (lp : ndarray -> ndarray -> result ndarray) (m n_in n_out : nat) :
  Model.layers s = [ref] ->
  nth_error (Model.heap s) ref = Some (Model.FC_layer o) ->
  Model.loss s = Some l -> Model.loss_prime s = Some lp ->
  0 < m ->
  shape X = [m; n_in] ->
  shape (FC.weights o) = [n_in; n_out] ->
  shape (FC.bias o) = [1; n_out] ->
  (forall out, shape out = [m; n_out] -> exists v, l Y out = Ok v) ->
  (forall out, shape out = [m; n_out] ->
     exists dY, lp Y out = Ok dY /\ shape dY = [m; n_out]) ->
  exists out v dY o' s',
    Model.train g X Y lr s = (Ok tt, s') /\
    FC.forward X o = (Ok out, FC.set_output out (FC.set_input X o)) /\
    l Y out = Ok v /\ lp Y out = Ok dY /\
    Model.err s' = PyFloat (pynum_value (Model.err s) + v)%Qc /\
    nth_error (Model.heap s') ref = Some (Model.FC_layer o') /\
    (forall j k, j < n_in -> k < n_out ->
       get (FC.weights o') [j; k]
       = (get (FC.weights o) [j; k]%nat
          - lr * (qsum m (fun i => get X [i; j]%nat * get dY [i; k]%nat)
                  / qc_of_nat m))%Qc) /\
    (forall k, k < n_out ->
       get (FC.bias o') [0; k]
       = (get (FC.bias o) [0; k]%nat
          - lr * (qsum m (fun i => get dY [i; k]%nat) / qc_of_nat m))%Qc).
Proof.
  intros Hl Ho Hloss Hlp _ HX HW Hb Htot Htot'.
  destruct (@fc_forward_affine o X m n_in n_out HX HW Hb) as (out & Hf & Hos & _).
  destruct (Htot out Hos) as (v & Hv).
  destruct (Htot' out Hos) as (dY & HdY & HdYs).
  set (o1 := FC.set_output out (FC.set_input X o)) in *.
  destruct (@fc_backward_spec o1 X dY lr m n_in n_out eq_refl HX HW Hb HdYs)
    as (grad & o2 & Hbk & _ & _ & _ & _ & HW2 & _ & Hb2).
  exists out, v, dY, o2. eexists. split; [|split; [exact Hf|]].
  - unfold Model.train. unfold bind at 1.
    unfold Model.forward_pass, bind at 1, gets. rewrite Hl. cbn [for_loopM].
    unfold bind at 1. unfold Model.call_forward. rewrite Ho.
    cbn [Model.layer_forward fst snd]. rewrite Hf. cbn [fst snd]. unfold ret at 1.
    unfold bind at 1, gets. unfold bind at 1, Model.callable.
    model_step. rewrite Hloss.
    unfold bind at 1, lift. rewrite Hv.
    unfold bind at 1, modify. unfold bind at 1.
    model_step. rewrite Hlp.
    unfold bind at 1. rewrite HdY.
    unfold bind at 1. model_step. rewrite Hl. cbn [rev app for_loopM].
    unfold bind at 1. unfold bind at 1. unfold Model.call_backward.
    model_step. rewrite (nth_error_update_nth_eq _ _ _ Ho).
    cbn [Model.layer_backward fst snd]. fold o1. rewrite Hbk. cbn [fst snd].
    unfold ret. reflexivity.
  - split; [exact Hv|]. split; [exact HdY|]. split; [reflexivity|].
    split; [|split; [exact HW2 | exact Hb2]].
    model_step.
    eapply nth_error_update_nth_eq.
    exact (nth_error_update_nth_eq _ _ _ Ho).
Qed.

Lemma train_fc_step_witness :
  exists o' s',
    Model.train ones_draws batch_2x2 grad_2x1 half model_fc = (Ok tt, s') /\
    Model.err s' = PyFloat (Q2Qc 9) /\
    nth_error (Model.heap s') 0 = Some (Model.FC_layer o') /\
    get (FC.weights o') [0; 0] = 0%Qc /\
    get (FC.bias o') [0; 0] = Q2Qc (3 # 4).
Proof.
  destruct (@train_fc_step ones_draws batch_2x2 grad_2x1 half model_fc 0 fc_2x1
              sum_loss output_as_gradient 2 2 1
              eq_refl eq_refl eq_refl eq_refl ltac:(lia) eq_refl eq_refl eq_refl
              (fun out _ => ex_intro _ (np_sum out) eq_refl)
              (fun out H => ex_intro _ out (conj eq_refl H)))
    as (out & v & dY & o' & s' & Ht & Hf & Hv & HdY & He & Ho & HW & Hb).
  injection Hf as Hout. injection Hv as Hv. injection HdY as HdY.
  subst dY v out.
  exists o', s'. split; [exact Ht|]. split; [|split; [exact Ho|split]].
  - rewrite He. f_equal; try (apply Qc_is_canon; vm_compute; reflexivity).
  - rewrite (HW 0 0 ltac:(lia) ltac:(lia)).
    apply Qc_is_canon. vm_compute. reflexivity.
  - rewrite (Hb 0 ltac:(lia)). apply Qc_is_canon. vm_compute. reflexivity.
Defined.
